(** * Vocabulary flashcards: the cache-backed word store

    A shallow embedding of [ApiManager] (the JSONBin.io wrapper) and of the
    parts of [StorageManager] it relies on, together with the properties of
    the word collection operations, the retry policy and the streak counter.
    The rest of [StorageManager] (credentials, password, session, learned
    words) and the list fields of the edit form follow the scenarios. *)

From Stdlib Require Import ZArith List String Ascii Lia DecimalString.
From stdpp Require Import base option list gmap strings.

Local Open Scope string_scope.
Local Open Scope Z_scope.

(** ** JavaScript strings

    A string is a sequence of code units; the embedding keeps the code units
    below 256, which is what [String.string] offers. *)

Module JsString.

(** The code units that [String.prototype.trim] strips (WhiteSpace and
    LineTerminator of ECMAScript) among the code units below 256:
    TAB, LF, VT, FF, CR, SPACE and NBSP. *)
Definition is_space (c : ascii) : bool :=
  let n := nat_of_ascii c in
  ((9 <=? n)%nat && (n <=? 13)%nat) || (n =? 32)%nat || (n =? 160)%nat.

Definition is_empty (s : string) : bool :=
  match s with EmptyString => true | String _ _ => false end.

Fixpoint trimStart (s : string) : string :=
  match s with
  | EmptyString => EmptyString
  | String c s' => if is_space c then trimStart s' else s
  end.

Fixpoint trimEnd (s : string) : string :=
  match s with
  | EmptyString => EmptyString
  | String c s' =>
      let r := trimEnd s' in
      if is_space c && is_empty r then EmptyString else String c r
  end.

(** [s.trim()] *)
Definition trim (s : string) : string := trimEnd (trimStart s).

(** [s.split(sep)] for a separator of one code unit: the segments between
    the occurrences of [sep], in order; the empty string gives one empty
    segment. *)
Fixpoint split (sep : ascii) (s : string) : list string :=
  match s with
  | EmptyString => [EmptyString]
  | String c s' =>
      if Ascii.eqb c sep then EmptyString :: split sep s'
      else match split sep s' with
           | seg :: segs => String c seg :: segs
           | [] => [String c EmptyString]
           end
  end.

Fixpoint all_space (s : string) : bool :=
  match s with
  | EmptyString => true
  | String c s' => is_space c && all_space s'
  end.

Fixpoint mem (c : ascii) (s : string) : bool :=
  match s with
  | EmptyString => false
  | String c' s' => Ascii.eqb c' c || mem c s'
  end.

(** A string is clean at the front when it does not start with a space,
    clean at the back when it does not end with one. *)
Definition clean_front (s : string) : bool :=
  match s with EmptyString => true | String c _ => negb (is_space c) end.

Fixpoint clean_back (s : string) : bool :=
  match s with
  | EmptyString => true
  | String c EmptyString => negb (is_space c)
  | String _ s' => clean_back s'
  end.

(** [segments.join(sep)] for a separator of one code unit *)
Fixpoint join (sep : ascii) (segments : list string) : string :=
  match segments with
  | [] => EmptyString
  | [seg] => seg
  | seg :: rest => seg +:+ String sep (join sep rest)
  end.

End JsString.

(** A trimmed string: one that [trim] leaves as it is. *)
Definition trimmed (s : string) : Prop := JsString.trim s = s.

(** ** JavaScript values

    The values a word, a patch or a form input holds.  [undefined] is not a
    value: a property whose value is [undefined] is an absent key, and
    reading a property gives an [option value] ([None] for [undefined]).
    Arrays hold strings, as the list fields of a word do. *)

Inductive value : Type :=
  | VNull
  | VBool (b : bool)
  | VNum (n : Z)
  | VStr (s : string)
  | VArr (items : list string).

Abbreviation jsobject := (gmap string value).

(** ToBoolean *)
Definition truthy (v : option value) : bool :=
  match v with
  | None | Some VNull => false
  | Some (VBool b) => b
  | Some (VNum n) => negb (n =? 0)
  | Some (VStr s) => negb (JsString.is_empty s)
  | Some (VArr _) => true
  end.

(** [a === b].  Two arrays are equal only when they are the same object,
    which two arrays read from different words or from a parsed document
    never are. *)
Definition strict_eq (a b : option value) : bool :=
  match a, b with
  | None, None => true
  | Some VNull, Some VNull => true
  | Some (VBool x), Some (VBool y) => Bool.eqb x y
  | Some (VNum x), Some (VNum y) => x =? y
  | Some (VStr x), Some (VStr y) => String.eqb x y
  | _, _ => false
  end.

(** [a || b] *)
Definition js_or (a b : option value) : option value :=
  if truthy a then a else b.

(** [{ ...o, k: v }]: a property set to [undefined] reads as an absent one. *)
Definition set_prop (k : string) (v : option value) (o : jsobject) : jsobject :=
  match v with
  | Some x => <[k := x]> o
  | None => delete k o
  end.

(** An object literal [{ k1: v1, ..., kn: vn }] *)
Definition object_literal (props : list (string * option value)) : jsobject :=
  fold_left (fun o kv => set_prop (fst kv) (snd kv) o) props ∅.

(** [l.findIndex(p)] *)
Fixpoint findIndex {A} (p : A -> bool) (l : list A) : Z :=
  match l with
  | [] => -1
  | x :: l' =>
      if p x then 0
      else let i := findIndex p l' in if i =? -1 then -1 else i + 1
  end.

(** ** [ApiManager.parseArrayField] *)

Definition parseArrayField (field : option value) : list string :=
  match field with
  | Some (VArr items) =>
      List.filter
        (fun item => truthy (Some (VStr item))
                     && truthy (Some (VStr (JsString.trim item))))
        items
  | Some (VStr s) =>
      if truthy (Some (VStr (JsString.trim s))) then
        List.filter (fun item => truthy (Some (VStr item)))
          (List.map JsString.trim (JsString.split "," s))
      else []
  | _ => []
  end.

(** The list a comma-separated string stands for, in the words of the data
    model: its segments, trimmed, the empty ones left out. *)
Definition trimmed_nonempty_segments (s : string) : list string :=
  List.filter (fun seg => negb (JsString.is_empty seg))
    (List.map JsString.trim (JsString.split "," s)).

(** ** Dates

    A [Date] is its time value: the milliseconds since 1970-01-01T00:00:00Z,
    an integer between -8.64e15 and 8.64e15.  [toISOString] follows
    ECMAScript (proleptic Gregorian calendar, UTC); outside that range
    JavaScript has no date to print. *)

Module JsDate.

Definition msPerDay : Z := 86400000.
Definition maxTime : Z := 8640000000000000.

Definition valid_time (t : Z) : Prop := - maxTime <= t <= maxTime.

(** Day number of a time value, and the milliseconds within that day. *)
Definition Day (t : Z) : Z := t / msPerDay.
Definition TimeWithinDay (t : Z) : Z := t mod msPerDay.

(** Year of the 400-year era, month and day of the month of the day
    [doe] of an era (eras start on 1 March of a year divisible by 400). *)
Definition yoe_of_doe (doe : Z) : Z :=
  (doe - doe / 1460 + doe / 36524 - doe / 146096) / 365.
Definition doy_of_doe (doe : Z) : Z :=
  let yoe := yoe_of_doe doe in
  doe - (365 * yoe + yoe / 4 - yoe / 100).
Definition mp_of_doy (doy : Z) : Z := (5 * doy + 2) / 153.
Definition dom_of_doy (doy : Z) : Z :=
  doy - (153 * mp_of_doy doy + 2) / 5 + 1.
Definition month_of_mp (mp : Z) : Z := if mp <? 10 then mp + 3 else mp - 9.

(** Year, month (1..12) and day of the month (1..31) of a day number. *)
Definition civil_from_days (day : Z) : Z * Z * Z :=
  let z := day + 719468 in
  let era := z / 146097 in
  let doe := z mod 146097 in
  let doy := doy_of_doe doe in
  let m := month_of_mp (mp_of_doy doy) in
  let y := yoe_of_doe doe + era * 400 in
  (if m <=? 2 then y + 1 else y, m, dom_of_doy doy).

Definition digit (n : Z) : ascii := ascii_of_nat (48 + Z.to_nat n).

(** [n] in [k] decimal digits, zero padded. *)
Fixpoint digits (k : nat) (n : Z) : string :=
  match k with
  | O => EmptyString
  | S k' => digits k' (n / 10) +:+ String (digit (n mod 10)) EmptyString
  end.

(** Four digits for the years 0 to 9999, a sign and six digits otherwise. *)
Definition year_string (y : Z) : string :=
  if (0 <=? y) && (y <=? 9999) then digits 4 y
  else (if y <? 0 then "-" else "+") +:+ digits 6 (Z.abs y).

Definition date_string (day : Z) : string :=
  let '(y, m, d) := civil_from_days day in
  year_string y +:+ "-" +:+ digits 2 m +:+ "-" +:+ digits 2 d.

Definition time_string (ms : Z) : string :=
  digits 2 (ms / 3600000) +:+ ":" +:+ digits 2 ((ms / 60000) mod 60) +:+ ":"
  +:+ digits 2 ((ms / 1000) mod 60) +:+ "." +:+ digits 3 (ms mod 1000).

(** [new Date(t).toISOString()] *)
Definition toISOString (t : Z) : string :=
  date_string (Day t) +:+ "T" +:+ time_string (TimeWithinDay t) +:+ "Z".

End JsDate.

(** [StorageManager.getDateString]: [date.toISOString().split('T')[0]] *)
Definition getDateString (date : Z) : string :=
  List.hd EmptyString (JsString.split "T" (JsDate.toISOString date)).

(** ** Errors, local storage, the network and the clock *)

Record js_error := Error { name : string; message : string }.

Inductive result (A : Type) : Type :=
  | Ok (a : A)
  | Throw (e : js_error).
Arguments Ok {A} a.
Arguments Throw {A} e.

(** What [localStorage.getItem] followed by [JSON.parse] finds under a key:
    nothing, a text that does not parse, or the stored data. *)
Inductive stored (A : Type) : Type :=
  | NoItem
  | BadJson
  | Item (a : A).
Arguments NoItem {A}.
Arguments BadJson {A}.
Arguments Item {A} a.

Record StreakData := { currentStreak : Z; lastActiveDate : option string }.

(** The keys of [StorageManager.KEYS] that the store and the streak use.
    A write to [localStorage] is taken to succeed: the code catches a failed
    write, logs it and goes on. *)
Record LocalStorage := {
  vocab_api_key : option string;
  vocab_bin_id : option string;
  vocab_streak_data : stored StreakData;
  vocab_local_words : stored (list jsobject);
}.

(** The JSON document of the bin: the word array and its metadata. *)
Record document_meta := {
  totalWords : Z;
  createdAt : option string;
  lastUpdated : string;
}.

Record document := {
  words : option (list jsobject);
  meta : option document_meta;
}.

(** The body of a response of JSONBin.io, as far as the client reads it. *)
Record response_json := {
  json_message : option string;
  record : option document;
  metadata : option (option string);
}.

Record response := {
  ok : bool;
  status : Z;
  json : option response_json;
}.

(** The second argument of [fetch] and of [ApiManager.request]. *)
Record fetch_options := {
  method : option string;
  headers : gmap string string;
  body : option document;
}.

Definition no_options : fetch_options :=
  {| method := None; headers := ∅; body := None |}.

(** How the network answers one call of [fetch]: the promise is rejected
    (no connection, or an [AbortError] when the request is cancelled), or a
    response arrives. *)
Inductive net_outcome : Type :=
  | Rejected (e : js_error)
  | Responded (r : response).

(** What the program does to the outside: the requests it issues and the
    timers it waits for, oldest first. *)
Inductive event : Type :=
  | EvFetch (url : string) (options : fetch_options)
  | EvSleep (ms : Z).

(** The world an operation runs in.  [network i] is the answer to the
    [i]-th call of [fetch], [random i] the [i]-th draw of
    [Math.random() * 16 | 0], [clock] what [Date.now()] returns.  The remote
    service is not part of the world: what the program does to it is the
    trace of its requests, what it answers is [network].  The clock is
    logical: it moves by the delay of each timer, and synchronous code and
    requests take no time. *)
Record World := {
  storage : LocalStorage;
  clock : Z;
  network : nat -> net_outcome;
  fetches : nat;
  random : nat -> Z;
  draws : nat;
  trace : list event;
}.

(** ** Operations on the world: state and exceptions *)

Definition M (A : Type) : Type := World -> result A * World.

Definition ret {A} (a : A) : M A := fun w => (Ok a, w).

Definition throw {A} (e : js_error) : M A := fun w => (Throw e, w).

Definition bind {A B} (m : M A) (k : A -> M B) : M B :=
  fun w =>
    match m w with
    | (Ok a, w') => k a w'
    | (Throw e, w') => (Throw e, w')
    end.

(** [try { m } catch (error) { handler error }] *)
Definition try_catch {A} (m : M A) (handler : js_error -> M A) : M A :=
  fun w =>
    match m w with
    | (Ok a, w') => (Ok a, w')
    | (Throw e, w') => handler e w'
    end.

Declare Scope js_scope.
Delimit Scope js_scope with js.
Notation "'let*' x ':=' m 'in' k" := (bind m (fun x => k))
  (at level 10, x name, m at level 100, k at level 200) : js_scope.
Local Open Scope js_scope.

Definition with_storage (ls : LocalStorage) (w : World) : World :=
  {| storage := ls; clock := clock w; network := network w;
     fetches := fetches w; random := random w; draws := draws w;
     trace := trace w |}.

Definition getStorage : M LocalStorage := fun w => (Ok (storage w), w).

Definition setStorage (ls : LocalStorage) : M unit :=
  fun w => (Ok tt, with_storage ls w).

(** [Date.now()], also the time value of [new Date()] *)
Definition Date_now : M Z := fun w => (Ok (clock w), w).

(** [await new Promise(resolve => setTimeout(resolve, ms))] *)
Definition after_sleep (ms : Z) (w : World) : World :=
  {| storage := storage w; clock := clock w + ms;
     network := network w; fetches := fetches w;
     random := random w; draws := draws w;
     trace := (trace w ++ [EvSleep ms])%list |}.

Definition sleep (ms : Z) : M unit := fun w => (Ok tt, after_sleep ms w).

(** [await fetch(url, options)] *)
Definition after_fetch (url : string) (options : fetch_options) (w : World)
  : World :=
  {| storage := storage w; clock := clock w;
     network := network w; fetches := S (fetches w);
     random := random w; draws := draws w;
     trace := (trace w ++ [EvFetch url options])%list |}.

Definition fetch (url : string) (options : fetch_options) : M response :=
  fun w =>
    match network w (fetches w) with
    | Rejected e => (Throw e, after_fetch url options w)
    | Responded r => (Ok r, after_fetch url options w)
    end.

(** [Math.random() * 16 | 0] *)
Definition Math_random_16 : M Z :=
  fun w =>
    (Ok (random w (draws w) mod 16),
     {| storage := storage w; clock := clock w; network := network w;
        fetches := fetches w; random := random w; draws := S (draws w);
        trace := trace w |}).

(** [this.getDateString(new Date(t))] for the date of the time value [t]:
    a time value outside the range of [Date] makes an invalid date, on
    which [toISOString] throws a [RangeError]. *)
Definition getDateString_of_time (t : Z) : M string :=
  if (- JsDate.maxTime <=? t) && (t <=? JsDate.maxTime)
  then ret (getDateString t)
  else throw (Error "RangeError" "Invalid time value").

(** ** [StorageManager] *)

Module StorageManager.

Record credentials := { apiKey : string; binId : string }.

(** [localStorage.getItem(key) || ''] *)
Definition getApiCredentials : M credentials :=
  let* ls := getStorage in
  ret {| apiKey := default EmptyString (vocab_api_key ls);
         binId := default EmptyString (vocab_bin_id ls) |}.

Definition hasApiCredentials : M bool :=
  let* c := getApiCredentials in
  ret (truthy (Some (VStr (apiKey c))) && truthy (Some (VStr (binId c)))).

Definition getStreakData : M StreakData :=
  let* ls := getStorage in
  match vocab_streak_data ls with
  | Item data => ret data
  | NoItem | BadJson => ret {| currentStreak := 0; lastActiveDate := None |}
  end.

(** The stored [lastActiveDate] as a value: a string or [null]. *)
Definition json_date (d : option string) : option value :=
  Some (match d with Some s => VStr s | None => VNull end).

(** [localStorage.setItem(KEYS.STREAK_DATA, JSON.stringify(newData))] *)
Definition with_streak_data (newData : StreakData) (ls : LocalStorage)
  : LocalStorage :=
  {| vocab_api_key := vocab_api_key ls;
     vocab_bin_id := vocab_bin_id ls;
     vocab_streak_data := Item newData;
     vocab_local_words := vocab_local_words ls |}.

Definition setStreakData (newData : StreakData) : M unit :=
  let* ls := getStorage in
  setStorage (with_streak_data newData ls).

(** The sum [currentStreak + 1] is a sum of numbers of JavaScript, which
    is the sum of the integers as long as the stored count is a safe
    integer (below [2 ^ 53] in absolute value); the properties of the
    streak are stated for such counts. *)
Definition updateStreak : M Z :=
  let* now := Date_now in
  let* today := getDateString_of_time now in
  let* streakData := getStreakData in
  let lastActive := json_date (lastActiveDate streakData) in
  if strict_eq lastActive (Some (VStr today)) then
    ret (currentStreak streakData)
  else
    let* now' := Date_now in
    let* yesterday := getDateString_of_time (now' - 86400000) in
    let newStreak :=
      if strict_eq lastActive (Some (VStr yesterday)) then
        currentStreak streakData + 1
      else if negb (truthy lastActive) then 1
      else 1 in
    let newData := {| currentStreak := newStreak;
                      lastActiveDate := Some today |} in
    let* _ := setStreakData newData in
    ret newStreak.

(** [localStorage.setItem(KEYS.LOCAL_WORDS, JSON.stringify(words))] *)
Definition with_local_words (ws : list jsobject) (ls : LocalStorage)
  : LocalStorage :=
  {| vocab_api_key := vocab_api_key ls;
     vocab_bin_id := vocab_bin_id ls;
     vocab_streak_data := vocab_streak_data ls;
     vocab_local_words := Item ws |}.

Definition saveLocalWords (ws : list jsobject) : M unit :=
  let* ls := getStorage in
  setStorage (with_local_words ws ls).

(** The Local Cache Snapshot: the words that [getLocalWords] reads. *)
Definition snapshot (ls : LocalStorage) : list jsobject :=
  match vocab_local_words ls with
  | Item ws => ws
  | NoItem | BadJson => []
  end.

Definition getLocalWords : M (list jsobject) :=
  let* ls := getStorage in
  match vocab_local_words ls with
  | Item ws => ret ws
  | NoItem | BadJson => ret []
  end.

(** [v.toString(16)] for [0 <= v < 16] *)
Definition hex_digit (v : Z) : ascii :=
  if v <? 10 then ascii_of_nat (48 + Z.to_nat v)
  else ascii_of_nat (87 + Z.to_nat v).

(** [template.replace(/[xy]/g, c => ...)] *)
Fixpoint replace_xy (template : string) : M string :=
  match template with
  | EmptyString => ret EmptyString
  | String c rest =>
      if Ascii.eqb c "x" || Ascii.eqb c "y" then
        let* r := Math_random_16 in
        let v := if Ascii.eqb c "x" then r else Z.lor (Z.land r 3) 8 in
        let* rest' := replace_xy rest in
        ret (String (hex_digit v) rest')
      else
        let* rest' := replace_xy rest in
        ret (String c rest')
  end.

Definition generateId : M string :=
  replace_xy "xxxxxxxx-xxxx-4xxx-yxxx-xxxxxxxxxxxx".

End StorageManager.

(** ** [ApiManager] *)

Module ApiManager.

Import StorageManager.

Definition BASE_URL : string := "https://api.jsonbin.io/v3".

Definition getHeaders : M (gmap string string) :=
  let* c := getApiCredentials in
  ret (<["X-Master-Key" := apiKey c]>
       (<["Content-Type" := "application/json"]> ∅)).

Definition string_of_number (n : Z) : string :=
  NilZero.string_of_int (Z.to_int n).

(** [await response.json()] *)
Definition response_json_of (r : response) : M response_json :=
  match json r with
  | Some j => ret j
  | None => throw (Error "SyntaxError" "Unexpected token in JSON")
  end.

Definition empty_json : response_json :=
  {| json_message := None; record := None; metadata := None |}.

(** One pass through the [try] block of [request]. *)
Definition attempt (url : string) (options : fetch_options)
  : M response_json :=
  let* own := getHeaders in
  let* response :=
    fetch url {| method := method options;
                 headers := headers options ∪ own;
                 body := body options |} in
  if negb (ok response) then
    let* errorData :=
      try_catch (response_json_of response) (fun _ => ret empty_json) in
    throw (Error "Error"
             (match json_message errorData with
              | Some msg =>
                  if JsString.is_empty msg
                  then "HTTP error " +:+ string_of_number (status response)
                  else msg
              | None => "HTTP error " +:+ string_of_number (status response)
              end))
  else response_json_of response.

Fixpoint request (url : string) (options : fetch_options) (retries : nat)
  : M response_json :=
  try_catch (attempt url options)
    (fun error =>
       match retries with
       | S retries' =>
           if negb (String.eqb (name error) "AbortError") then
             let* _ := sleep 1000 in
             request url options retries'
           else throw error
       | O => throw error
       end).

(** [result.record?.words || []] *)
Definition record_words (result : response_json) : list jsobject :=
  match record result with
  | Some doc => default [] (words doc)
  | None => []
  end.

Definition testConnection : M bool :=
  try_catch
    (let* c := getApiCredentials in
     if negb (truthy (Some (VStr (binId c)))) then
       throw (Error "Error" "Bin ID not configured")
     else
       let url := BASE_URL +:+ "/b/" +:+ binId c +:+ "/latest" in
       let* _ := request url no_options 2 in
       ret true)
    (fun _ => ret false).

Definition createBin (binName : string) : M (option string) :=
  let url := BASE_URL +:+ "/b" in
  let* now := Date_now in
  let initialData :=
    {| words := Some [];
       meta := Some {| totalWords := 0;
                       createdAt := Some (JsDate.toISOString now);
                       lastUpdated := JsDate.toISOString now |} |} in
  let* result :=
    request url {| method := Some "POST";
                   headers := <["X-Bin-Name" := binName]> ∅;
                   body := Some initialData |} 2 in
  match metadata result with
  | Some id => ret id
  | None =>
      throw (Error "TypeError" "Cannot read properties of undefined")
  end.

Definition fetchAllWords : M (list jsobject) :=
  try_catch
    (let* c := getApiCredentials in
     if negb (truthy (Some (VStr (binId c)))) then getLocalWords
     else
       let url := BASE_URL +:+ "/b/" +:+ binId c +:+ "/latest" in
       let* result := request url no_options 2 in
       let ws := record_words result in
       let* _ := saveLocalWords ws in
       ret ws)
    (fun _ => getLocalWords).

Definition fetchWordsByDate (dateString : option value) : M (list jsobject) :=
  let* allWords := fetchAllWords in
  ret (List.filter (fun word => strict_eq (word !! "date") dateString)
         allWords).

Definition saveAllWords (ws : list jsobject) : M bool :=
  try_catch
    (let* c := getApiCredentials in
     if negb (truthy (Some (VStr (binId c)))) then
       let* _ := saveLocalWords ws in
       ret true
     else
       let url := BASE_URL +:+ "/b/" +:+ binId c in
       let* now := Date_now in
       let data :=
         {| words := Some ws;
            meta := Some {| totalWords := Z.of_nat (length ws);
                            createdAt := None;
                            lastUpdated := JsDate.toISOString now |} |} in
       let* _ := request url {| method := Some "PUT"; headers := ∅;
                                body := Some data |} 2 in
       let* _ := saveLocalWords ws in
       ret true)
    (fun _ =>
       let* _ := saveLocalWords ws in
       ret false).

Definition getNextWordNumber (allWords : list jsobject) (date : option value)
  : Z :=
  let dateWords :=
    List.filter (fun w => strict_eq (w !! "date") date) allWords in
  Z.of_nat (length dateWords) + 1.

Definition addWord (wordData : jsobject) : M jsobject :=
  let* allWords := fetchAllWords in
  let* id := generateId in
  let* now := Date_now in
  let newWord :=
    object_literal
      [ ("id", Some (VStr id));
        ("date", js_or (wordData !! "date") (Some (VStr (getDateString now))));
        ("wordNumber",
          Some (VNum (getNextWordNumber allWords (wordData !! "date"))));
        ("english", wordData !! "english");
        ("ipa", js_or (wordData !! "ipa") (Some (VStr EmptyString)));
        ("context", js_or (wordData !! "context") (Some (VStr EmptyString)));
        ("meaning", js_or (wordData !! "meaning") (Some (VStr EmptyString)));
        ("banglaMeanings",
          Some (VArr (parseArrayField (wordData !! "banglaMeanings"))));
        ("synonyms", Some (VArr (parseArrayField (wordData !! "synonyms"))));
        ("antonyms", Some (VArr (parseArrayField (wordData !! "antonyms"))));
        ("isLearned", Some (VBool false));
        ("createdAt", Some (VStr (JsDate.toISOString now))) ] in
  let allWords' := (allWords ++ [newWord])%list in
  let* _ := saveAllWords allWords' in
  ret newWord.

(** The value [updateWord] gives a list field: the patch's, parsed, when
    the patch has one, the word's own otherwise. *)
Definition updated_list_field (key : string) (old updates : jsobject)
  : option value :=
  match updates !! key with
  | Some v => Some (VArr (parseArrayField (Some v)))
  | None => old !! key
  end.

Definition updateWord (wordId : value) (updates : jsobject) : M jsobject :=
  let* allWords := fetchAllWords in
  let index :=
    findIndex (fun w => strict_eq (w !! "id") (Some wordId)) allWords in
  if index =? -1 then throw (Error "Error" "Word not found")
  else
    let old := default ∅ (allWords !! Z.to_nat index) in
    let* now := Date_now in
    let updated :=
      set_prop "updatedAt" (Some (VStr (JsDate.toISOString now)))
        (set_prop "antonyms" (updated_list_field "antonyms" old updates)
           (set_prop "synonyms" (updated_list_field "synonyms" old updates)
              (set_prop "banglaMeanings"
                 (updated_list_field "banglaMeanings" old updates)
                 (updates ∪ old)))) in
    let allWords' := <[Z.to_nat index := updated]> allWords in
    let* _ := saveAllWords allWords' in
    ret updated.

(** The [forEach] of [deleteWord]: the words of the given date are numbered
    from [number] on, in the order of the list. *)
Fixpoint renumber (number : Z) (date : option value) (ws : list jsobject)
  : list jsobject :=
  match ws with
  | [] => []
  | word :: rest =>
      if strict_eq (word !! "date") date then
        <["wordNumber" := VNum number]> word :: renumber (number + 1) date rest
      else word :: renumber number date rest
  end.

Definition deleteWord (wordId : value) : M bool :=
  let* allWords := fetchAllWords in
  let filteredWords :=
    List.filter (fun w => negb (strict_eq (w !! "id") (Some wordId)))
      allWords in
  if (length filteredWords =? length allWords)%nat then
    throw (Error "Error" "Word not found")
  else
    let deletedWord :=
      List.find (fun w => strict_eq (w !! "id") (Some wordId)) allWords in
    let filteredWords' :=
      match deletedWord with
      | Some deleted => renumber 1 (deleted !! "date") filteredWords
      | None => filteredWords
      end in
    let* _ := saveAllWords filteredWords' in
    ret true.

Definition getWordCountForDate (dateString : option value) : M Z :=
  let* ws := fetchWordsByDate dateString in
  ret (Z.of_nat (length ws)).

Definition getTotalWordCount : M Z :=
  let* ws := fetchAllWords in
  ret (Z.of_nat (length ws)).

Definition isDailyLimitReached (dateString : option value) (limit : Z)
  : M bool :=
  let* count := getWordCountForDate dateString in
  ret (limit <=? count).

End ApiManager.

(** ** Vocabulary of the properties *)

(** A credential is absent when its key is missing from [localStorage] or
    holds the empty string. *)
Definition credential_absent (c : option string) : Prop :=
  c = None \/ c = Some EmptyString.

(** The options [request] hands to [fetch]: its own, with the headers of
    [getHeaders] underneath. *)
Definition sent_options (options : fetch_options) (ls : LocalStorage)
  : fetch_options :=
  {| method := method options;
     headers :=
       headers options
       ∪ <["X-Master-Key" := default EmptyString (vocab_api_key ls)]>
           (<["Content-Type" := "application/json"]> ∅);
     body := body options |}.

(** What one attempt of [request] makes of the answer of the network. *)
Definition attempt_result (o : net_outcome) : result response_json :=
  match o with
  | Rejected e => Throw e
  | Responded r =>
      if ok r then
        match json r with
        | Some j => Ok j
        | None => Throw (Error "SyntaxError" "Unexpected token in JSON")
        end
      else
        Throw (Error "Error"
                 (match json r with
                  | Some j =>
                      match json_message j with
                      | Some msg =>
                          if JsString.is_empty msg
                          then "HTTP error "
                               +:+ ApiManager.string_of_number (status r)
                          else msg
                      | None => "HTTP error "
                                +:+ ApiManager.string_of_number (status r)
                      end
                  | None => "HTTP error "
                            +:+ ApiManager.string_of_number (status r)
                  end))
  end.

(** An attempt fails when it throws; it is cancelled when what it throws is
    an [AbortError]. *)
Definition attempt_fails (o : net_outcome) : Prop :=
  exists e, attempt_result o = Throw e.

Definition attempt_cancelled (o : net_outcome) : Prop :=
  exists e, attempt_result o = Throw e /\ name e = "AbortError".

(** [k] attempts of the same request, a wait of one second before each
    attempt but the first. *)
Definition attempts_trace (request : event) (k : nat) : list event :=
  match k with
  | O => []
  | S k' => request :: List.concat (List.repeat [EvSleep 1000; request] k')
  end.

(** A safe integer: an integer that a number of JavaScript holds exactly,
    together with its neighbours. *)
Definition safe_integer (n : Z) : Prop := - 2 ^ 53 < n < 2 ^ 53.

(** The stored streak state: what [getStreakData] reads. *)
Definition stored_streak (ls : LocalStorage) : StreakData :=
  match vocab_streak_data ls with
  | Item data => data
  | NoItem | BadJson => {| currentStreak := 0; lastActiveDate := None |}
  end.

(** The world after the streak state has been persisted. *)
Definition with_streak (count : Z) (date : string) (w : World) : World :=
  with_storage
    (StorageManager.with_streak_data
       {| currentStreak := count; lastActiveDate := Some date |} (storage w))
    w.

(** The addresses of the bin and the request that replaces its document. *)
Definition latest_url (ls : LocalStorage) : string :=
  ApiManager.BASE_URL +:+ "/b/" +:+ default EmptyString (vocab_bin_id ls)
  +:+ "/latest".

Definition bin_url (ls : LocalStorage) : string :=
  ApiManager.BASE_URL +:+ "/b/" +:+ default EmptyString (vocab_bin_id ls).

Definition put_options (ws : list jsobject) (now : Z) : fetch_options :=
  {| method := Some "PUT";
     headers := ∅;
     body := Some {| words := Some ws;
                     meta := Some {| totalWords := Z.of_nat (length ws);
                                     createdAt := None;
                                     lastUpdated := JsDate.toISOString now |} |} |}.

(** The world after [k] attempts ([1 <= k]) of a request that started in
    [w]: only the clock, the count of requests and the trace have moved. *)
Definition after_attempts (url : string) (options : fetch_options) (k : nat)
  (w : World) : World :=
  {| storage := storage w;
     clock := clock w + 1000 * (Z.of_nat k - 1);
     network := network w;
     fetches := (fetches w + k)%nat;
     random := random w;
     draws := draws w;
     trace := (trace w ++ attempts_trace (EvFetch url options) k)%list |}.

(** An event that writes nothing to the remote document: a wait, or a
    request without method (a GET) and without body. *)
Definition read_only (e : event) : bool :=
  match e with
  | EvSleep _ => true
  | EvFetch _ options =>
      match method options, body options with
      | None, None => true
      | _, _ => false
      end
  end.

(** The words of a date, and the word with a given id, as the code compares
    them. *)
Definition has_date (date : option value) (w : jsobject) : bool :=
  strict_eq (w !! "date") date.

Definition has_id (wordId : value) (w : jsobject) : bool :=
  strict_eq (w !! "id") (Some wordId).

(** The [wordNumber]s of the words of a date, in the order of the
    collection. *)
Definition date_numbers (date : option value) (ws : list jsobject)
  : list (option value) :=
  List.map (fun w => w !! "wordNumber") (List.filter (has_date date) ws).

(** The numbers [1..k] as [wordNumber]s. *)
Definition one_to (k : nat) : list (option value) :=
  List.map (fun i => Some (VNum (Z.of_nat i))) (List.seq 1 k).

(** The numbering invariant of the collection for one date: the
    [wordNumber]s of its [k] words are the numbers [1..k], each once. *)
Definition contiguous_numbering (date : option value) (ws : list jsobject)
  : Prop :=
  Permutation (date_numbers date ws) (one_to (length (date_numbers date ws))).

(** ** Scenarios

    Concrete answers of the network, words and devices, for the examples. *)

Module Scenario.

Definition offline : net_outcome :=
  Rejected (Error "TypeError" "Failed to fetch").

Definition cancelled : net_outcome :=
  Rejected (Error "AbortError" "The user aborted a request.").

Definition unavailable : net_outcome :=
  Responded {| ok := false; status := 503; json := None |}.

Definition served (ws : list jsobject) : net_outcome :=
  Responded
    {| ok := true; status := 200;
       json := Some {| json_message := None;
                       record := Some {| words := Some ws; meta := None |};
                       metadata := None |} |}.

Definition word (id date : string) (number : Z) (english : string)
  : jsobject :=
  object_literal
    [ ("id", Some (VStr id)); ("date", Some (VStr date));
      ("wordNumber", Some (VNum number)); ("english", Some (VStr english));
      ("synonyms", Some (VArr ["old"]));
      ("createdAt", Some (VStr "2025-10-30T08:00:00.000Z")) ].

(** 2025-11-02T14:59:59.999Z *)
Definition afternoon : Z := 1762095599999.

Definition device (key bin : option string) (cached : stored (list jsobject))
  (streak : stored StreakData) (net : nat -> net_outcome) : World :=
  {| storage := {| vocab_api_key := key; vocab_bin_id := bin;
                   vocab_streak_data := streak;
                   vocab_local_words := cached |};
     clock := afternoon;
     network := net;
     fetches := 0;
     random := fun i => Z.of_nat i;
     draws := 0;
     trace := [] |}.

(** A device without credentials, last active on 2025-11-01 with a streak
    of 3. *)
Definition returning_user : World :=
  device None None NoItem
    (Item {| currentStreak := 3; lastActiveDate := Some "2025-11-01" |})
    (fun _ => offline).

Definition cat : jsobject := word "id-cat" "2025-11-02" 1 "cat".
Definition dog : jsobject := word "id-dog" "2025-11-01" 1 "dog".
Definition owl : jsobject := word "id-owl" "2025-11-02" 2 "owl".
Definition emu : jsobject := word "id-emu" "2025-11-02" 3 "emu".

(** A device that never had credentials, with four cached words. *)
Definition local_only : World :=
  device None None (Item [cat; dog; owl; emu]) NoItem (fun _ => offline).

(** A device with a bin id but no access key, an empty cache, and a network
    that serves a one-word document. *)
Definition keyless : World :=
  device None (Some "BIN") NoItem NoItem (fun _ => served [cat]).

(** A configured device whose cache holds one word and whose network fails
    twice before it serves a two-word document. *)
Definition flaky : World :=
  device (Some "KEY") (Some "BIN") (Item [dog]) NoItem
    (fun i => if (i <? 2)%nat then unavailable else served [cat; owl]).

(** A configured device whose network is down. *)
Definition unreachable : World :=
  device (Some "KEY") (Some "BIN") (Item [dog]) NoItem (fun _ => offline).

(** A configured device whose cache is behind the served document. *)
Definition stale_cache : World :=
  device (Some "KEY") (Some "BIN") (Item [dog]) NoItem
    (fun _ => served [cat; owl]).

(** A configured device with an empty cache: the first read is served a
    one-word document, the three attempts of the next request fail, and
    later reads are served the same one-word document again. *)
Definition save_fails : World :=
  device (Some "KEY") (Some "BIN") NoItem NoItem
    (fun i => if (i =? 0)%nat then served [cat]
              else if (i <? 4)%nat then offline else served [cat]).

(** A patch that names a new id, date and creation time. *)
Definition rewriting_patch : jsobject :=
  object_literal
    [ ("id", Some (VStr "id-new")); ("date", Some (VStr "1999-01-01"));
      ("createdAt", Some (VStr "1999-01-01T00:00:00.000Z")) ].

(** A patch of the edit form: a new translation and new synonyms. *)
Definition edit_patch : jsobject :=
  object_literal
    [ ("english", Some (VStr "hound")); ("synonyms", Some (VStr "x,y")) ].

(** A patch whose synonyms are a list, with an entry that is not trimmed
    and an entry that holds a comma. *)
Definition list_patch : jsobject :=
  object_literal [ ("synonyms", Some (VArr [" a "; "b,c"; "  "])) ].

(** An input of [addWord] without a date. *)
Definition undated_input : jsobject :=
  object_literal [ ("english", Some (VStr "yak")) ].

(** An input of [addWord] for 2025-11-02. *)
Definition dated_input : jsobject :=
  object_literal
    [ ("date", Some (VStr "2025-11-02")); ("english", Some (VStr "yak"));
      ("synonyms", Some (VStr "a, b ,c")) ].

End Scenario.

(** ** More of [StorageManager]: credentials, password, session, learned words *)

(** [btoa] of the browser: base64 with padding, on the code units below 256
    that a string of the embedding holds. *)
Module Base64.

Definition alphabet : string :=
  "ABCDEFGHIJKLMNOPQRSTUVWXYZabcdefghijklmnopqrstuvwxyz0123456789+/".

(** The character of a six-bit number: its place in [alphabet]. *)
Definition sextet_char (n : Z) : ascii :=
  if n <? 26 then ascii_of_nat (65 + Z.to_nat n)
  else if n <? 52 then ascii_of_nat (71 + Z.to_nat n)
  else if n <? 62 then ascii_of_nat (Z.to_nat n - 4)
  else if n =? 62 then "+"%char
  else "/"%char.

Definition code (c : ascii) : Z := Z.of_nat (nat_of_ascii c).

Fixpoint btoa (s : string) : string :=
  match s with
  | EmptyString => EmptyString
  | String a EmptyString =>
      String (sextet_char (code a / 4))
        (String (sextet_char (code a mod 4 * 16)) "==")
  | String a (String b EmptyString) =>
      String (sextet_char (code a / 4))
        (String (sextet_char (code a mod 4 * 16 + code b / 16))
           (String (sextet_char (code b mod 16 * 4)) "="))
  | String a (String b (String c rest)) =>
      String (sextet_char (code a / 4))
        (String (sextet_char (code a mod 4 * 16 + code b / 16))
           (String (sextet_char (code b mod 16 * 4 + code c / 64))
              (String (sextet_char (code c mod 64)) (btoa rest))))
  end.

End Base64.

(** A [Set] of strings: its elements in insertion order, each once. *)
Module JsSet.

(** [set.has(x)] *)
Definition has (x : string) (set : list string) : bool :=
  existsb (String.eqb x) set.

(** [set.add(x)] *)
Definition add (x : string) (set : list string) : list string :=
  if has x set then set else (set ++ [x])%list.

(** [set.delete(x)] *)
Definition remove (x : string) (set : list string) : list string :=
  List.filter (fun y => negb (String.eqb y x)) set.

(** [new Set(array)] *)
Definition of_array (array : list string) : list string :=
  fold_left (fun set x => add x set) array [].

End JsSet.

(** The whole storage of the device: the keys of [LocalStorage], the other
    keys of [StorageManager.KEYS], and the flag that [sessionStorage]
    holds.  The learned words are stored as an array of word ids; a text
    that [new Set(JSON.parse(data))] cannot make a set of counts as one
    that does not parse. *)
Record BrowserStorage := {
  local_keys : LocalStorage;
  vocab_admin_password : option string;
  vocab_learned_words : stored (list string);
  vocab_last_visit : option string;
  admin_logged_in : option string;
}.

Module StorageManagerRest.

Import StorageManager.

(** [localStorage.setItem(KEYS.API_KEY, apiKey)] and the same for the bin
    id *)
Definition with_credentials (apiKey binId : string) (ls : LocalStorage)
  : LocalStorage :=
  {| vocab_api_key := Some apiKey;
     vocab_bin_id := Some binId;
     vocab_streak_data := vocab_streak_data ls;
     vocab_local_words := vocab_local_words ls |}.

Definition saveApiCredentials (apiKey binId : string) : M bool :=
  let* ls := getStorage in
  let* _ := setStorage (with_credentials apiKey binId ls) in
  ret true.

Definition with_admin_password (hash : option string) (st : BrowserStorage)
  : BrowserStorage :=
  {| local_keys := local_keys st;
     vocab_admin_password := hash;
     vocab_learned_words := vocab_learned_words st;
     vocab_last_visit := vocab_last_visit st;
     admin_logged_in := admin_logged_in st |}.

Definition setAdminPassword (password : string) (st : BrowserStorage)
  : BrowserStorage :=
  let hash := Base64.btoa password in
  with_admin_password (Some hash) st.

Definition verifyPassword (password : string) (st : BrowserStorage) : bool :=
  let stored := vocab_admin_password st in
  if negb (truthy (VStr <$> stored)) then String.eqb password "admin123"
  else String.eqb (default EmptyString stored) (Base64.btoa password).

Definition isAdminLoggedIn (st : BrowserStorage) : bool :=
  match admin_logged_in st with
  | Some flag => String.eqb flag "true"
  | None => false
  end.

Definition with_admin_logged_in (flag : option string) (st : BrowserStorage)
  : BrowserStorage :=
  {| local_keys := local_keys st;
     vocab_admin_password := vocab_admin_password st;
     vocab_learned_words := vocab_learned_words st;
     vocab_last_visit := vocab_last_visit st;
     admin_logged_in := flag |}.

Definition setAdminLoggedIn (status : bool) (st : BrowserStorage)
  : BrowserStorage :=
  if status then with_admin_logged_in (Some "true") st
  else with_admin_logged_in None st.

Definition getLearnedWords (st : BrowserStorage) : list string :=
  match vocab_learned_words st with
  | Item data => JsSet.of_array data
  | NoItem | BadJson => []
  end.

(** [localStorage.setItem(KEYS.LEARNED_WORDS, JSON.stringify([...learned]))] *)
Definition with_learned_words (learned : list string) (st : BrowserStorage)
  : BrowserStorage :=
  {| local_keys := local_keys st;
     vocab_admin_password := vocab_admin_password st;
     vocab_learned_words := Item learned;
     vocab_last_visit := vocab_last_visit st;
     admin_logged_in := admin_logged_in st |}.

Definition markWordAsLearned (wordId : string) (st : BrowserStorage)
  : BrowserStorage :=
  let learned := JsSet.add wordId (getLearnedWords st) in
  with_learned_words learned st.

Definition unmarkWordAsLearned (wordId : string) (st : BrowserStorage)
  : BrowserStorage :=
  let learned := JsSet.remove wordId (getLearnedWords st) in
  with_learned_words learned st.

Definition isWordLearned (wordId : string) (st : BrowserStorage) : bool :=
  JsSet.has wordId (getLearnedWords st).

(** Every key of [KEYS] is removed and the session storage is cleared. *)
Definition clearAll (st : BrowserStorage) : BrowserStorage :=
  {| local_keys := {| vocab_api_key := None; vocab_bin_id := None;
                      vocab_streak_data := NoItem;
                      vocab_local_words := NoItem |};
     vocab_admin_password := None;
     vocab_learned_words := NoItem;
     vocab_last_visit := None;
     admin_logged_in := None |}.

End StorageManagerRest.

(** ** The list fields in the edit form of [AdminApp] *)

Module AdminApp.

(** [array.join(sep)] *)
Fixpoint join (sep : string) (array : list string) : string :=
  match array with
  | [] => EmptyString
  | [item] => item
  | item :: rest => item +:+ sep +:+ join sep rest
  end.

(** What [openEditModal] writes into the input of a list field:
    [(word.synonyms || []).join(', ')].  A field that is truthy and no
    array has no [join]. *)
Definition edit_field_text (field : option value) : result string :=
  match js_or field (Some (VArr [])) with
  | Some (VArr items) => Ok (join ", " items)
  | _ => Throw (Error "TypeError" "join is not a function")
  end.

(** What [saveWordEdit] reads from the input: [input.value.trim() || ''] *)
Definition edit_field_value (text : string) : option value :=
  js_or (Some (VStr (JsString.trim text))) (Some (VStr EmptyString)).

End AdminApp.

(** ** More vocabulary of the properties *)

(** The address and the options of the request of [createBin]. *)
Definition create_url : string := ApiManager.BASE_URL +:+ "/b".

Definition create_options (binName : string) (now : Z) : fetch_options :=
  {| method := Some "POST";
     headers := <["X-Bin-Name" := binName]> ∅;
     body := Some {| words := Some [];
                     meta := Some {| totalWords := 0;
                                     createdAt := Some (JsDate.toISOString now);
                                     lastUpdated := JsDate.toISOString now |} |} |}.

(** The message of the error that [request] makes of a response that is not
    ok: the [message] of its body when it has one that is not empty, the
    status otherwise. *)
Definition http_error_message (r : response) : string :=
  match json r with
  | Some j =>
      match json_message j with
      | Some msg =>
          if JsString.is_empty msg
          then "HTTP error " +:+ ApiManager.string_of_number (status r)
          else msg
      | None => "HTTP error " +:+ ApiManager.string_of_number (status r)
      end
  | None => "HTTP error " +:+ ApiManager.string_of_number (status r)
  end.

(** The characters that may stand for a character [t] of the template of
    [generateId]: a hexadecimal digit for [x], one of 8, 9, a and b for
    [y], the character itself otherwise. *)
Definition id_char (t c : ascii) : Prop :=
  if Ascii.eqb t "x" then JsString.mem c "0123456789abcdef" = true
  else if Ascii.eqb t "y" then JsString.mem c "89ab" = true
  else c = t.

(** The instants of the years 0000 to 9999, whose year [toISOString]
    prints in four digits: from 0000-01-01T00:00:00.000Z to
    9999-12-31T23:59:59.999Z. *)
Definition four_digit_year (t : Z) : Prop :=
  -62167219200000 <= t < 253402300800000.

(** An entry of a list field that the edit form gives back as it is:
    trimmed, not empty and without comma. *)
Definition plain_entry (x : string) : Prop :=
  trimmed x /\ x <> EmptyString /\ JsString.mem "," x = false.

(** * Properties *)

(** ** Strings: trimming and splitting *)

Module JsStringFacts.
Import JsString.

Lemma is_empty_true s : is_empty s = true <-> s = EmptyString.
Proof. destruct s; simpl; split; congruence. Qed.

Lemma is_empty_false s : is_empty s = false <-> s <> EmptyString.
Proof. destruct s; simpl; split; congruence. Qed.

Lemma trimStart_empty s : trimStart s = EmptyString <-> all_space s = true.
Proof.
  induction s as [|c s IH]; simpl.
  - tauto.
  - destruct (is_space c); simpl; [exact IH | split; discriminate].
Qed.

Lemma trimEnd_empty s : trimEnd s = EmptyString <-> all_space s = true.
Proof.
  induction s as [|c s IH]; simpl.
  - tauto.
  - destruct (is_space c); simpl.
    + destruct (trimEnd s) eqn:E; simpl.
      * split; [intros _; now apply IH | reflexivity].
      * split; [discriminate | intros H; apply IH in H; discriminate].
    + split; discriminate.
Qed.

Lemma all_space_trimStart s : all_space s = true -> all_space (trimStart s) = true.
Proof. intros H. apply trimStart_empty in H. now rewrite H. Qed.

Lemma trim_empty s : trim s = EmptyString <-> all_space s = true.
Proof.
  unfold trim. rewrite trimEnd_empty. split.
  - induction s as [|c s IH]; simpl; [reflexivity|].
    destruct (is_space c) eqn:E; simpl; [exact IH|].
    rewrite E. simpl. discriminate.
  - apply all_space_trimStart.
Qed.

Lemma trimStart_clean s : clean_front (trimStart s) = true.
Proof.
  induction s as [|c s IH]; simpl; [reflexivity|].
  destruct (is_space c) eqn:E; [exact IH | simpl; now rewrite E].
Qed.

Lemma trimStart_id s : clean_front s = true -> trimStart s = s.
Proof.
  destruct s as [|c s]; simpl; [reflexivity|].
  now destruct (is_space c).
Qed.

Lemma trimEnd_clean s : clean_front s = true -> clean_front (trimEnd s) = true.
Proof.
  destruct s as [|c s]; simpl; [reflexivity|].
  destruct (is_space c) eqn:E; simpl; [discriminate|].
  intros _. now rewrite E.
Qed.

Lemma trimEnd_idem s : trimEnd (trimEnd s) = trimEnd s.
Proof.
  induction s as [|c s IH]; simpl; [reflexivity|].
  destruct (is_space c && is_empty (trimEnd s)) eqn:E; simpl; [reflexivity|].
  now rewrite IH, E.
Qed.

Lemma trim_idem s : trim (trim s) = trim s.
Proof.
  unfold trim.
  rewrite (trimStart_id (trimEnd (trimStart s))).
  - apply trimEnd_idem.
  - apply trimEnd_clean, trimStart_clean.
Qed.

Lemma split_no_sep sep s : mem sep s = false -> split sep s = [s].
Proof.
  induction s as [|c s IH]; simpl; [reflexivity|].
  destruct (Ascii.eqb c sep); simpl; [discriminate|].
  intros H. now rewrite (IH H).
Qed.

Lemma split_app_sep sep a b :
  mem sep a = false ->
  split sep (a +:+ String sep b) = a :: split sep b.
Proof.
  induction a as [|c a IH]; simpl.
  - intros _. now rewrite Ascii.eqb_refl.
  - destruct (Ascii.eqb c sep); simpl; [discriminate|].
    intros H. now rewrite (IH H).
Qed.

(** Splitting loses nothing: joining the segments gives the string back,
    and no segment holds the separator. *)
Lemma split_join sep s : join sep (split sep s) = s.
Proof.
  induction s as [|c s IH]; cbn [split]; [reflexivity|].
  destruct (Ascii.eqb_spec c sep) as [->|Hne].
  - cbn [join]. destruct (split sep s) as [|seg segs] eqn:E.
    + destruct s; cbn [split] in E; [discriminate|].
      destruct (Ascii.eqb a sep); [discriminate|].
      now destruct (split sep s).
    + cbn [String.append]. now rewrite IH.
  - destruct (split sep s) as [|seg segs] eqn:E.
    + destruct s; cbn [split] in E; [discriminate|].
      destruct (Ascii.eqb a sep); [discriminate|].
      now destruct (split sep s).
    + cbn [join] in *. destruct segs; cbn [String.append]; now rewrite <- IH.
Qed.

Lemma split_segments sep s :
  Forall (fun seg => mem sep seg = false) (split sep s).
Proof.
  induction s as [|c s IH]; cbn [split]; [now repeat constructor|].
  destruct (Ascii.eqb c sep) eqn:E; [now constructor|].
  destruct (split sep s) as [|seg segs].
  - repeat constructor. cbn [mem]. now rewrite E.
  - inversion IH as [|? ? Hseg Hsegs]; subst. constructor; [|exact Hsegs].
    cbn [mem]. now rewrite E, Hseg.
Qed.

(** Trimming removes a run of spaces at each end, and nothing else: the
    result is clean at both ends. *)
Lemma trimStart_decompose s :
  exists pre, s = pre +:+ trimStart s /\ all_space pre = true.
Proof.
  induction s as [|c s (pre & IH & Hpre)]; cbn [trimStart].
  - now exists EmptyString.
  - destruct (is_space c) eqn:E.
    + exists (String c pre). split.
      * change (String c s = String c (pre +:+ trimStart s)). now rewrite <- IH.
      * cbn [all_space]. now rewrite E, Hpre.
    + now exists EmptyString.
Qed.

Lemma trimEnd_decompose s :
  exists post, s = trimEnd s +:+ post /\ all_space post = true.
Proof.
  induction s as [|c s (post & IH & Hpost)]; cbn [trimEnd].
  - now exists EmptyString.
  - destruct (is_space c && is_empty (trimEnd s)) eqn:E.
    + apply andb_prop in E as [Ec Er]. apply is_empty_true in Er.
      rewrite Er in IH. change (s = post) in IH.
      exists (String c post). split.
      * change (String c s = String c post). now rewrite <- IH.
      * cbn [all_space]. now rewrite Ec, Hpost.
    + exists post. split; [|exact Hpost].
      change (String c s = String c (trimEnd s +:+ post)). now rewrite <- IH.
Qed.

Lemma trim_decompose s :
  exists pre post,
    s = pre +:+ trim s +:+ post
    /\ all_space pre = true /\ all_space post = true.
Proof.
  destruct (trimStart_decompose s) as (pre & Hs & Hpre).
  destruct (trimEnd_decompose (trimStart s)) as (post & Ht & Hpost).
  exists pre, post. unfold trim. now rewrite <- Ht.
Qed.

Lemma trimEnd_clean_back s : clean_back (trimEnd s) = true.
Proof.
  induction s as [|c s IH]; cbn [trimEnd]; [reflexivity|].
  destruct (is_space c && is_empty (trimEnd s)) eqn:E; [reflexivity|].
  destruct (trimEnd s) as [|c' r]; [|exact IH].
  cbn [is_empty] in E. rewrite andb_true_r in E. cbn [clean_back].
  now rewrite E.
Qed.

Lemma trim_clean s :
  clean_front (trim s) = true /\ clean_back (trim s) = true.
Proof.
  split; [apply trimEnd_clean, trimStart_clean | apply trimEnd_clean_back].
Qed.

Lemma all_space_no_comma s : all_space s = true -> mem "," s = false.
Proof.
  induction s as [|c s IH]; simpl; [reflexivity|].
  intros H. apply andb_prop in H as [Hc Hs].
  rewrite (IH Hs), orb_false_r.
  destruct (Ascii.eqb c ",") eqn:E; [|reflexivity].
  apply Ascii.eqb_eq in E. subst c. discriminate.
Qed.

End JsStringFacts.

(** ** The list fields *)

Lemma parseArrayField_string s :
  parseArrayField (Some (VStr s)) = trimmed_nonempty_segments s.
Proof.
  unfold parseArrayField, trimmed_nonempty_segments, truthy.
  destruct (JsString.is_empty (JsString.trim s)) eqn:E; simpl; [|reflexivity].
  apply JsStringFacts.is_empty_true in E.
  pose proof E as Hsp. apply JsStringFacts.trim_empty in Hsp.
  rewrite (JsStringFacts.split_no_sep _ _ (JsStringFacts.all_space_no_comma _ Hsp)).
  simpl. now rewrite E.
Qed.

Lemma trimmed_nonempty_segments_spec s :
  Forall (fun x => trimmed x /\ x <> EmptyString) (trimmed_nonempty_segments s).
Proof.
  unfold trimmed_nonempty_segments.
  apply List.Forall_forall. intros x Hx.
  apply List.filter_In in Hx as [Hin Hne].
  apply List.in_map_iff in Hin as [seg [<- _]].
  split.
  - apply JsStringFacts.trim_idem.
  - apply JsStringFacts.is_empty_false. now apply negb_true_iff in Hne.
Qed.

Lemma parseArrayField_array items :
  parseArrayField (Some (VArr items)) =
  List.filter (fun item => negb (JsString.is_empty (JsString.trim item))) items.
Proof.
  unfold parseArrayField, truthy.
  apply List.filter_ext. intros item.
  destruct item; reflexivity.
Qed.

Lemma parseArrayField_blank s :
  JsString.all_space s = true -> parseArrayField (Some (VStr s)) = [].
Proof.
  intros H. apply JsStringFacts.trim_empty in H.
  unfold parseArrayField, truthy. now rewrite H.
Qed.

(** ** Dates: the date string determines the day *)

Module JsDateFacts.
Import JsDate.

Lemma length_append (a b : string) :
  String.length (a +:+ b) = (String.length a + String.length b)%nat.
Proof. induction a as [|c a IH]; simpl; [reflexivity | now rewrite IH]. Qed.

Lemma append_inj (a a' b b' : string) :
  String.length a = String.length a' ->
  a +:+ b = a' +:+ b' -> a = a' /\ b = b'.
Proof.
  revert a'. induction a as [|c a IH]; intros [|c' a'] Hlen H;
    simpl in *; try discriminate.
  - now split.
  - injection H as -> H. injection Hlen as Hlen.
    destruct (IH a' Hlen H) as [-> ->]. now split.
Qed.

Lemma String_inj c c' (a a' : string) :
  String c a = String c' a' -> c = c' /\ a = a'.
Proof. intros H. injection H as -> ->. now split. Qed.

Lemma mem_append c (a b : string) :
  JsString.mem c (a +:+ b) = JsString.mem c a || JsString.mem c b.
Proof.
  induction a as [|x a IH]; simpl; [reflexivity|].
  now rewrite IH, orb_assoc.
Qed.

Lemma digit_inj a b : 0 <= a < 10 -> 0 <= b < 10 -> digit a = digit b -> a = b.
Proof.
  intros Ha Hb H.
  assert (E : nat_of_ascii (digit a) = nat_of_ascii (digit b)) by now rewrite H.
  unfold digit in E. rewrite !nat_ascii_embedding in E by lia. lia.
Qed.

Lemma digit_not c n :
  0 <= n < 10 -> (nat_of_ascii c < 48 \/ 57 < nat_of_ascii c)%nat ->
  Ascii.eqb (digit n) c = false.
Proof.
  intros Hn Hc. apply Ascii.eqb_neq. intros <-.
  unfold digit in Hc. rewrite nat_ascii_embedding in Hc by lia. lia.
Qed.

Lemma length_digits k n : String.length (digits k n) = k.
Proof.
  revert n. induction k as [|k IH]; intros n; simpl; [reflexivity|].
  rewrite length_append, IH. simpl. lia.
Qed.

Lemma digits_inj k a b :
  0 <= a < 10 ^ Z.of_nat k -> 0 <= b < 10 ^ Z.of_nat k ->
  digits k a = digits k b -> a = b.
Proof.
  revert a b. induction k as [|k IH]; intros a b Ha Hb H.
  - simpl in Ha, Hb. lia.
  - rewrite Nat2Z.inj_succ, Z.pow_succ_r in Ha, Hb by lia.
    cbn [digits] in H.
    apply append_inj in H as [H1 H2]; [|now rewrite !length_digits].
    apply String_inj in H2 as [H2 _].
    apply digit_inj in H2; [|apply Z.mod_pos_bound; lia ..].
    apply IH in H1; [| split; [apply Z.div_pos; lia | apply Z.div_lt_upper_bound; lia] ..].
    rewrite (Z.div_mod a 10), (Z.div_mod b 10) by lia. now rewrite H1, H2.
Qed.

Lemma mem_digits c k n :
  (nat_of_ascii c < 48 \/ 57 < nat_of_ascii c)%nat ->
  JsString.mem c (digits k n) = false.
Proof.
  intros Hc. revert n.
  induction k as [|k IH]; intros n; cbn [digits]; [reflexivity|].
  rewrite mem_append, IH. cbn [JsString.mem orb].
  rewrite digit_not; [reflexivity | apply Z.mod_pos_bound; lia | exact Hc].
Qed.

(** *** The calendar *)

Lemma yoe_bound doe : 0 <= doe < 146097 -> 0 <= yoe_of_doe doe < 400.
Proof. unfold yoe_of_doe. intros. Z.div_mod_to_equations. lia. Qed.

Lemma doy_bound doe : 0 <= doe < 146097 -> 0 <= doy_of_doe doe <= 365.
Proof. unfold doy_of_doe, yoe_of_doe. intros. Z.div_mod_to_equations. lia. Qed.

Lemma mp_bound doy : 0 <= doy <= 365 -> 0 <= mp_of_doy doy <= 11.
Proof. unfold mp_of_doy. intros. Z.div_mod_to_equations. lia. Qed.

Lemma dom_bound doy : 0 <= doy <= 365 -> 1 <= dom_of_doy doy <= 31.
Proof. unfold dom_of_doy, mp_of_doy. intros. Z.div_mod_to_equations. lia. Qed.

Lemma month_bound mp : 0 <= mp <= 11 -> 1 <= month_of_mp mp <= 12.
Proof. unfold month_of_mp. intros. destruct (mp <? 10) eqn:E; lia. Qed.

Lemma month_of_mp_inj a b :
  0 <= a <= 11 -> 0 <= b <= 11 -> month_of_mp a = month_of_mp b -> a = b.
Proof.
  unfold month_of_mp. intros Ha Hb.
  destruct (a <? 10) eqn:Ea, (b <? 10) eqn:Eb; lia.
Qed.

Lemma doe_of_parts doe :
  doe = doy_of_doe doe + (365 * yoe_of_doe doe + yoe_of_doe doe / 4
                          - yoe_of_doe doe / 100).
Proof. unfold doy_of_doe. lia. Qed.

Lemma doy_of_parts doy :
  doy = dom_of_doy doy + (153 * mp_of_doy doy + 2) / 5 - 1.
Proof. unfold dom_of_doy. lia. Qed.

Lemma civil_from_days_inj a b :
  civil_from_days a = civil_from_days b -> a = b.
Proof.
  unfold civil_from_days.
  set (za := a + 719468). set (zb := b + 719468).
  assert (Ha : 0 <= za mod 146097 < 146097) by (apply Z.mod_pos_bound; lia).
  assert (Hb : 0 <= zb mod 146097 < 146097) by (apply Z.mod_pos_bound; lia).
  set (doea := za mod 146097) in *. set (doeb := zb mod 146097) in *.
  pose proof (yoe_bound _ Ha) as Hya. pose proof (yoe_bound _ Hb) as Hyb.
  pose proof (doy_bound _ Ha) as Hda. pose proof (doy_bound _ Hb) as Hdb.
  pose proof (mp_bound _ Hda) as Hma. pose proof (mp_bound _ Hdb) as Hmb.
  intros H. injection H as Hy Hm Hd.
  apply month_of_mp_inj in Hm; [|assumption ..].
  assert (Hdoy : doy_of_doe doea = doy_of_doe doeb).
  { rewrite (doy_of_parts (doy_of_doe doea)), (doy_of_parts (doy_of_doe doeb)).
    now rewrite Hd, Hm. }
  rewrite Hm in Hy.
  assert (Hyy : yoe_of_doe doea + za / 146097 * 400
                = yoe_of_doe doeb + zb / 146097 * 400)
    by (destruct (month_of_mp (mp_of_doy (doy_of_doe doeb)) <=? 2); lia).
  assert (Hyoe : yoe_of_doe doea = yoe_of_doe doeb) by lia.
  assert (Hera : za / 146097 = zb / 146097) by lia.
  assert (Hdoe : doea = doeb).
  { rewrite (doe_of_parts doea), (doe_of_parts doeb). now rewrite Hdoy, Hyoe. }
  assert (za = zb).
  { rewrite (Z.div_mod za 146097), (Z.div_mod zb 146097) by lia.
    fold doea doeb. now rewrite Hera, Hdoe. }
  lia.
Qed.

Lemma civil_from_days_bounds day y m d :
  civil_from_days day = (y, m, d) ->
  -100000001 <= day <= 100000001 ->
  -999999 <= y <= 999999 /\ 1 <= m <= 12 /\ 1 <= d <= 31.
Proof.
  unfold civil_from_days.
  set (z := day + 719468).
  assert (Hdoe : 0 <= z mod 146097 < 146097) by (apply Z.mod_pos_bound; lia).
  set (doe := z mod 146097) in *.
  pose proof (yoe_bound _ Hdoe) as Hy. pose proof (doy_bound _ Hdoe) as Hd.
  pose proof (mp_bound _ Hd) as Hm. pose proof (dom_bound _ Hd) as Hdm.
  pose proof (month_bound _ Hm) as Hmm.
  intros H Hday. injection H as <- <- <-.
  assert (-684 <= z / 146097 <= 690).
  { subst z. split.
    - apply Z.div_le_lower_bound; lia.
    - apply Z.div_le_upper_bound; lia. }
  destruct (month_of_mp (mp_of_doy (doy_of_doe doe)) <=? 2); lia.
Qed.

End JsDateFacts.

Module DateStringFacts.
Import JsDate JsDateFacts.

Lemma T_not_digit : (nat_of_ascii "T" < 48 \/ 57 < nat_of_ascii "T")%nat.
Proof. right. apply Nat.ltb_lt. reflexivity. Qed.


Lemma length_year_string y :
  String.length (year_string y)
  = if (0 <=? y) && (y <=? 9999) then 4%nat else 7%nat.
Proof.
  unfold year_string. destruct ((0 <=? y) && (y <=? 9999)).
  - apply length_digits.
  - destruct (y <? 0); now rewrite length_append, length_digits.
Qed.

Lemma year_string_inj a b :
  -999999 <= a <= 999999 -> -999999 <= b <= 999999 ->
  year_string a = year_string b -> a = b.
Proof.
  intros Ha Hb H.
  assert (Hlen : String.length (year_string a) = String.length (year_string b))
    by now rewrite H.
  rewrite !length_year_string in Hlen. unfold year_string in H.
  destruct ((0 <=? a) && (a <=? 9999)) eqn:Ea,
           ((0 <=? b) && (b <=? 9999)) eqn:Eb; try discriminate.
  - apply andb_prop in Ea as [? ?], Eb as [? ?].
    apply (digits_inj 4); [simpl; lia .. | exact H].
  - destruct (a <? 0) eqn:Sa, (b <? 0) eqn:Sb; cbn [String.append] in H;
      apply String_inj in H as [Hs H]; try discriminate;
      apply (digits_inj 6) in H; simpl; lia.
Qed.

Lemma mem_T_year_string y : JsString.mem "T" (year_string y) = false.
Proof.
  unfold year_string. destruct ((0 <=? y) && (y <=? 9999)).
  - apply mem_digits, T_not_digit.
  - destruct (y <? 0); rewrite mem_append, mem_digits by apply T_not_digit;
      reflexivity.
Qed.

Lemma mem_T_date_string day : JsString.mem "T" (date_string day) = false.
Proof.
  unfold date_string. destruct (civil_from_days day) as [[y m] d].
  rewrite !mem_append, mem_T_year_string, !mem_digits by apply T_not_digit.
  reflexivity.
Qed.

Lemma date_string_inj a b :
  -100000001 <= a <= 100000001 -> -100000001 <= b <= 100000001 ->
  date_string a = date_string b -> a = b.
Proof.
  intros Ha Hb H. apply civil_from_days_inj.
  unfold date_string in H.
  destruct (civil_from_days a) as [[ya ma] da] eqn:Ca.
  destruct (civil_from_days b) as [[yb mb] db] eqn:Cb.
  destruct (civil_from_days_bounds _ _ _ _ Ca Ha) as (Hya & Hma & Hda).
  destruct (civil_from_days_bounds _ _ _ _ Cb Hb) as (Hyb & Hmb & Hdb).
  assert (Hlen : String.length (year_string ya) = String.length (year_string yb)).
  { assert (E : String.length
                  (year_string ya +:+ "-" +:+ digits 2 ma +:+ "-" +:+ digits 2 da)
                = String.length
                  (year_string yb +:+ "-" +:+ digits 2 mb +:+ "-" +:+ digits 2 db))
      by now rewrite H.
    rewrite !length_append, !length_digits in E. simpl in E. lia. }
  apply append_inj in H as [Hy H]; [|exact Hlen].
  apply year_string_inj in Hy; [|assumption ..].
  cbn [String.append] in H. apply String_inj in H as [_ H].
  apply append_inj in H as [Hm H]; [|now rewrite !length_digits].
  cbn [String.append] in H. apply String_inj in H as [_ Hd].
  apply (digits_inj 2) in Hm; [|simpl; lia ..].
  apply (digits_inj 2) in Hd; [|simpl; lia ..].
  now subst.
Qed.

Lemma getDateString_date_string t : getDateString t = date_string (Day t).
Proof.
  unfold getDateString, toISOString.
  change (date_string (Day t) +:+ "T" +:+ time_string (TimeWithinDay t) +:+ "Z")
    with (date_string (Day t)
          +:+ String "T" (time_string (TimeWithinDay t) +:+ "Z")).
  now rewrite JsStringFacts.split_app_sep by apply mem_T_date_string.
Qed.

Lemma Day_bounds t : valid_time t -> -100000001 <= Day t <= 100000001.
Proof.
  unfold valid_time, Day, maxTime, msPerDay. intros H.
  Z.div_mod_to_equations. lia.
Qed.

(** Two representable instants with the same date string lie in the same
    day. *)
Lemma getDateString_inj t1 t2 :
  valid_time t1 -> valid_time t2 ->
  getDateString t1 = getDateString t2 -> Day t1 = Day t2.
Proof.
  intros H1 H2. rewrite !getDateString_date_string.
  apply date_string_inj; now apply Day_bounds.
Qed.

Lemma Day_yesterday t : Day (t - 86400000) = Day t - 1.
Proof. unfold Day, msPerDay. Z.div_mod_to_equations. lia. Qed.

End DateStringFacts.

(** Known dates, among them the two ends of the range of [Date]. *)
Example toISOString_epoch :
  JsDate.toISOString 0 = "1970-01-01T00:00:00.000Z".
Proof. vm_compute. reflexivity. Qed.

Example toISOString_before_epoch :
  JsDate.toISOString (-1) = "1969-12-31T23:59:59.999Z".
Proof. vm_compute. reflexivity. Qed.

Example toISOString_leap_day :
  JsDate.toISOString 951782400000 = "2000-02-29T00:00:00.000Z"
  /\ JsDate.toISOString 951868800000 = "2000-03-01T00:00:00.000Z"
  /\ JsDate.toISOString 4107542400000 = "2100-03-01T00:00:00.000Z".
Proof. repeat split; vm_compute; reflexivity. Qed.

Example toISOString_range :
  JsDate.toISOString JsDate.maxTime = "+275760-09-13T00:00:00.000Z"
  /\ JsDate.toISOString (- JsDate.maxTime) = "-271821-04-20T00:00:00.000Z".
Proof. split; vm_compute; reflexivity. Qed.

Example getDateString_afternoon :
  getDateString Scenario.afternoon = "2025-11-02"
  /\ getDateString (Scenario.afternoon - 86400000) = "2025-11-01".
Proof. split; vm_compute; reflexivity. Qed.

(** The identifier drawn from the random numbers 0, 1, 2, ... *)
Example generateId_counting :
  fst (StorageManager.generateId Scenario.local_only)
  = Ok "01234567-89ab-4cde-b012-3456789abcde".
Proof. vm_compute. reflexivity. Qed.

(** ** Running the operations *)

Module Run.
Import StorageManager ApiManager.

Lemma credential_absent_iff c :
  credential_absent c <->
  truthy (Some (VStr (default EmptyString c))) = false.
Proof.
  unfold credential_absent. destruct c as [[|a s]|]; simpl; split;
    intros H; try discriminate; auto.
  destruct H; discriminate.
Qed.

Lemma credential_present_iff c :
  ~ credential_absent c <->
  truthy (Some (VStr (default EmptyString c))) = true.
Proof.
  rewrite credential_absent_iff.
  destruct (truthy _); split; congruence.
Qed.

Lemma getLocalWords_run w : getLocalWords w = (Ok (snapshot (storage w)), w).
Proof.
  cbv [getLocalWords snapshot bind getStorage ret].
  now destruct (vocab_local_words (storage w)).
Qed.

Lemma saveLocalWords_run ws w :
  saveLocalWords ws w
  = (Ok tt, with_storage (with_local_words ws (storage w)) w).
Proof. reflexivity. Qed.

Lemma attempt_run url options w :
  attempt url options w
  = (attempt_result (network w (fetches w)),
     after_fetch url (sent_options options (storage w)) w).
Proof.
  cbv [attempt bind getHeaders getApiCredentials getStorage ret fetch
       attempt_result sent_options try_catch response_json_of throw apiKey].
  destruct (network w (fetches w)) as [e|r]; [reflexivity|].
  destruct (ok r); cbn [negb]; [now destruct (json r)|].
  destruct (json r) as [j|]; reflexivity.
Qed.

Lemma request_unfold url options retries w :
  request url options retries w
  = let w1 := after_fetch url (sent_options options (storage w)) w in
    match attempt_result (network w (fetches w)) with
    | Ok j => (Ok j, w1)
    | Throw e =>
        match retries with
        | S retries' =>
            if negb (String.eqb (name e) "AbortError")
            then request url options retries' (after_sleep 1000 w1)
            else (Throw e, w1)
        | O => (Throw e, w1)
        end
    end.
Proof.
  destruct retries; cbn [request]; unfold try_catch; rewrite attempt_run;
    destruct (attempt_result _) as [j|e]; try reflexivity.
  cbv [bind sleep throw]. now destruct (negb _).
Qed.

(** The retry loop: the attempts made, the state they leave and the result
    returned. *)
Lemma request_spec url options retries : forall w,
  exists k,
    (1 <= k <= S retries)%nat
    /\ snd (request url options retries w)
       = after_attempts url (sent_options options (storage w)) k w
    /\ fst (request url options retries w)
       = attempt_result (network w (fetches w + (k - 1))%nat)
    /\ (forall i, (i < k - 1)%nat ->
          exists e, attempt_result (network w (fetches w + i)%nat) = Throw e
                    /\ name e <> "AbortError")
    /\ ((k < S retries)%nat ->
          (exists j, attempt_result (network w (fetches w + (k - 1))%nat) = Ok j)
          \/ attempt_cancelled (network w (fetches w + (k - 1))%nat)).
Proof.
  induction retries as [|n IH]; intros w; rewrite request_unfold; cbv zeta.
  - exists 1%nat. cbn [Nat.sub]. rewrite Nat.add_0_r.
    assert (Hw : after_fetch url (sent_options options (storage w)) w
                 = after_attempts url (sent_options options (storage w)) 1 w).
    { unfold after_fetch, after_attempts. cbn [attempts_trace List.repeat List.concat].
      f_equal; lia. }
    repeat split; try lia.
    + now destruct (attempt_result _).
    + now destruct (attempt_result _).
  - assert (Hw : after_fetch url (sent_options options (storage w)) w
                 = after_attempts url (sent_options options (storage w)) 1 w).
    { unfold after_fetch, after_attempts. cbn [attempts_trace List.repeat List.concat].
      f_equal; lia. }
    destruct (attempt_result (network w (fetches w))) as [j|e] eqn:E.
    + exists 1%nat. cbn [Nat.sub]. rewrite Nat.add_0_r, E.
      repeat split; try lia; eauto.
    + destruct (String.eqb (name e) "AbortError") eqn:Ea; cbn [negb].
      * exists 1%nat. cbn [Nat.sub]. rewrite Nat.add_0_r, E.
        repeat split; try lia; eauto.
        intros _. right. exists e. split; [exact E|].
        now apply String.eqb_eq.
      * set (w1 := after_sleep 1000
                     (after_fetch url (sent_options options (storage w)) w)).
        destruct (IH w1) as (k & Hk & Hs & Hr & Hpre & Hstop).
        exists (S k). split; [lia|].
        assert (Hf : forall i, (fetches w1 + i = fetches w + S i)%nat)
          by (intros i; subst w1; cbn; lia).
        split; [|split; [|split]].
        -- rewrite Hs. unfold after_attempts. subst w1.
           cbn [storage clock network fetches random draws trace
                after_sleep after_fetch].
           destruct k as [|k']; [lia|].
           cbn [attempts_trace List.repeat List.concat].
           f_equal; [lia | lia |].
           rewrite <- !app_assoc. reflexivity.
        -- rewrite Hr. change (network w1) with (network w).
           rewrite Hf. do 2 f_equal. lia.
        -- intros i Hi. destruct i as [|i].
           ++ rewrite Nat.add_0_r. exists e. split; [exact E|].
              now apply String.eqb_neq.
           ++ destruct (Hpre i) as (e' & He' & Hn'); [lia|].
              exists e'. split; [|exact Hn'].
              rewrite <- He'. change (network w1) with (network w).
              now rewrite Hf.
        -- intros Hlt.
           replace (fetches w + (S k - 1))%nat with (fetches w1 + (k - 1))%nat
             by (rewrite Hf; lia).
           change (network w) with (network w1).
           apply Hstop. lia.
Qed.

Lemma request_storage url options retries w :
  storage (snd (request url options retries w)) = storage w.
Proof.
  destruct (request_spec url options retries w) as (k & _ & Hs & _).
  now rewrite Hs.
Qed.

Lemma request_trace url options retries w :
  exists k, (1 <= k <= S retries)%nat /\
    trace (snd (request url options retries w))
    = (trace w
       ++ attempts_trace (EvFetch url (sent_options options (storage w))) k)%list.
Proof.
  destruct (request_spec url options retries w) as (k & Hk & Hs & _).
  exists k. split; [exact Hk|]. now rewrite Hs.
Qed.

Lemma fetchAllWords_run w :
  fetchAllWords w
  = if truthy (Some (VStr (default EmptyString (vocab_bin_id (storage w)))))
    then
      match request (latest_url (storage w)) no_options 2 w with
      | (Ok j, w1) =>
          (Ok (record_words j),
           with_storage (with_local_words (record_words j) (storage w1)) w1)
      | (Throw _, w1) => (Ok (snapshot (storage w1)), w1)
      end
    else (Ok (snapshot (storage w)), w).
Proof.
  cbv [fetchAllWords try_catch bind getApiCredentials getStorage ret binId].
  destruct (truthy _); cbn [negb].
  - fold (latest_url (storage w)).
    destruct (request _ _ _ w) as [[j|e] w1].
    + reflexivity.
    + apply getLocalWords_run.
  - now rewrite getLocalWords_run.
Qed.

Lemma saveAllWords_run ws w :
  saveAllWords ws w
  = if truthy (Some (VStr (default EmptyString (vocab_bin_id (storage w)))))
    then
      match request (bin_url (storage w)) (put_options ws (clock w)) 2 w with
      | (Ok _, w1) =>
          (Ok true, with_storage (with_local_words ws (storage w1)) w1)
      | (Throw _, w1) =>
          (Ok false, with_storage (with_local_words ws (storage w1)) w1)
      end
    else (Ok true, with_storage (with_local_words ws (storage w)) w).
Proof.
  cbv [saveAllWords try_catch bind getApiCredentials getStorage ret binId
       Date_now saveLocalWords setStorage].
  destruct (truthy _); cbn [negb]; [|reflexivity].
  fold (bin_url (storage w)). fold (put_options ws (clock w)).
  now destruct (request _ _ _ w) as [[j|e] w1].
Qed.

(** [fetchAllWords] never throws, and what it returns is what the Local
    Cache Snapshot holds afterwards; it only touches the snapshot, the
    clock and the network. *)
Lemma fetchAllWords_total w :
  exists ws w1,
    fetchAllWords w = (Ok ws, w1)
    /\ snapshot (storage w1) = ws
    /\ vocab_bin_id (storage w1) = vocab_bin_id (storage w)
    /\ vocab_api_key (storage w1) = vocab_api_key (storage w)
    /\ vocab_streak_data (storage w1) = vocab_streak_data (storage w)
    /\ random w1 = random w /\ draws w1 = draws w.
Proof.
  rewrite fetchAllWords_run. destruct (truthy _).
  - destruct (request_spec (latest_url (storage w)) no_options 2 w)
      as (k & _ & Hs & _).
    destruct (request _ _ _ w) as [[j|e] w1]; cbn [snd] in Hs; subst w1;
      eexists _, _; (split; [reflexivity|]); cbn; auto 10.
  - eexists _, _. split; [reflexivity|]. auto 10.
Qed.

(** [saveAllWords] never throws, and always leaves the collection in the
    Local Cache Snapshot. *)
Lemma saveAllWords_total ws w :
  exists b w2,
    saveAllWords ws w = (Ok b, w2)
    /\ storage w2 = with_local_words ws (storage w).
Proof.
  rewrite saveAllWords_run. destruct (truthy _).
  - pose proof (request_storage (bin_url (storage w))
                  (put_options ws (clock w)) 2 w) as Hs.
    destruct (request _ _ _ w) as [[j|e] w1]; cbn [snd] in Hs;
      eexists _, _; (split; [reflexivity|]); cbn; now rewrite Hs.
  - eexists _, _. split; reflexivity.
Qed.

End Run.

(** ** The streak *)

Module StreakFacts.
Import StorageManager.

Lemma getDateString_of_time_valid t (w : World) :
  JsDate.valid_time t ->
  getDateString_of_time t w = (Ok (getDateString t), w).
Proof.
  intros [H1 H2]. unfold getDateString_of_time.
  apply Z.leb_le in H1, H2. now rewrite H1, H2.
Qed.

Lemma getDateString_of_time_invalid t (w : World) :
  ~ JsDate.valid_time t ->
  getDateString_of_time t w
  = (Throw (Error "RangeError" "Invalid time value"), w).
Proof.
  intros H. unfold getDateString_of_time.
  destruct (- JsDate.maxTime <=? t) eqn:E1; [|reflexivity].
  destruct (t <=? JsDate.maxTime) eqn:E2; [|reflexivity].
  apply Z.leb_le in E1, E2. exfalso. apply H. now split.
Qed.

Lemma updateStreak_run w :
  JsDate.valid_time (clock w) -> JsDate.valid_time (clock w - 86400000) ->
  updateStreak w
  = let sd := stored_streak (storage w) in
    let today := getDateString (clock w) in
    let yesterday := getDateString (clock w - 86400000) in
    match lastActiveDate sd with
    | Some d =>
        if String.eqb d today then (Ok (currentStreak sd), w)
        else if String.eqb d yesterday
             then (Ok (currentStreak sd + 1),
                   with_streak (currentStreak sd + 1) today w)
             else (Ok 1, with_streak 1 today w)
    | None => (Ok 1, with_streak 1 today w)
    end.
Proof.
  intros Hnow Hyes.
  cbv [updateStreak bind Date_now getStreakData getStorage ret stored_streak
       setStreakData setStorage with_streak].
  rewrite (getDateString_of_time_valid _ w Hnow).
  destruct (vocab_streak_data (storage w)) as [| |[count [d|]]];
    cbn [lastActiveDate currentStreak json_date strict_eq truthy negb];
    rewrite ?(getDateString_of_time_valid _ w Hyes);
    try reflexivity.
  destruct (String.eqb d (getDateString (clock w))); [reflexivity|].
  rewrite (getDateString_of_time_valid _ w Hyes).
  destruct (String.eqb d (getDateString (clock w - 86400000))); [reflexivity|].
  now destruct (negb (JsString.is_empty d)).
Qed.

(** A call on the day the device was last active needs no yesterday. *)
Lemma updateStreak_same_day w :
  JsDate.valid_time (clock w) ->
  lastActiveDate (stored_streak (storage w))
  = Some (getDateString (clock w)) ->
  updateStreak w = (Ok (currentStreak (stored_streak (storage w))), w).
Proof.
  intros Hnow Hlast.
  cbv [updateStreak bind Date_now getStreakData getStorage ret stored_streak]
    in *.
  rewrite (getDateString_of_time_valid _ w Hnow).
  destruct (vocab_streak_data (storage w)) as [| |[count [d|]]];
    cbn [lastActiveDate currentStreak json_date strict_eq] in *;
    try discriminate Hlast.
  injection Hlast as ->. now rewrite String.eqb_refl.
Qed.

(** On the first day that [Date] can hold there is no yesterday: unless
    the device was last active on that day, the call throws and stores
    nothing. *)
Lemma updateStreak_no_yesterday w :
  JsDate.valid_time (clock w) -> ~ JsDate.valid_time (clock w - 86400000) ->
  lastActiveDate (stored_streak (storage w))
  <> Some (getDateString (clock w)) ->
  updateStreak w = (Throw (Error "RangeError" "Invalid time value"), w).
Proof.
  intros Hnow Hyes Hlast.
  cbv [updateStreak bind Date_now getStreakData getStorage ret stored_streak]
    in *.
  rewrite (getDateString_of_time_valid _ w Hnow).
  destruct (vocab_streak_data (storage w)) as [| |[count [d|]]];
    cbn [lastActiveDate currentStreak json_date strict_eq] in *;
    rewrite ?(getDateString_of_time_invalid _ w Hyes); try reflexivity.
  destruct (String.eqb_spec d (getDateString (clock w))) as [->|_];
    [congruence|].
  now rewrite (getDateString_of_time_invalid _ w Hyes).
Qed.

Lemma yesterday_not_today t :
  JsDate.valid_time t -> JsDate.valid_time (t - 86400000) ->
  getDateString (t - 86400000) <> getDateString t.
Proof.
  intros H1 H2 E.
  apply DateStringFacts.getDateString_inj in E; [|assumption ..].
  rewrite DateStringFacts.Day_yesterday in E. lia.
Qed.

Lemma older_not_recent t now :
  JsDate.valid_time now -> JsDate.valid_time (now - 86400000) ->
  JsDate.valid_time t -> JsDate.Day t < JsDate.Day now - 1 ->
  getDateString t <> getDateString now
  /\ getDateString t <> getDateString (now - 86400000).
Proof.
  intros H1 H2 Ht Hlt. split; intros E;
    apply DateStringFacts.getDateString_inj in E; try assumption;
    rewrite ?DateStringFacts.Day_yesterday in E; lia.
Qed.

End StreakFacts.

(** ** Lists of words *)

Module WordListFacts.
Import ApiManager.

Lemma filter_length_all {A} (p : A -> bool) (l : list A) :
  length (List.filter p l) = length l <-> forallb p l = true.
Proof.
  induction l as [|x l IH]; cbn [List.filter forallb length]; [tauto|].
  pose proof (List.filter_length_le p l) as Hle.
  destruct (p x); cbn [length andb].
  - rewrite <- IH. lia.
  - split; [lia | discriminate].
Qed.

Lemma filter_all {A} (p : A -> bool) (l : list A) :
  forallb p l = true -> List.filter p l = l.
Proof.
  induction l as [|x l IH]; cbn [List.filter forallb]; [reflexivity|].
  intros H. apply andb_prop in H as [-> H]. now rewrite IH.
Qed.

Lemma forallb_negb_existsb {A} (p : A -> bool) (l : list A) :
  forallb (fun x => negb (p x)) l = negb (existsb p l).
Proof.
  induction l as [|x l IH]; cbn [forallb existsb]; [reflexivity|].
  rewrite IH. now destruct (p x).
Qed.

Lemma find_existsb {A} (p : A -> bool) (l : list A) :
  existsb p l = true -> exists x, List.find p l = Some x /\ p x = true.
Proof.
  induction l as [|x l IH]; cbn [existsb List.find]; [discriminate|].
  destruct (p x) eqn:E; [eauto | exact IH].
Qed.

Lemma find_unique {A} (p : A -> bool) (l1 l2 : list A) (x : A) :
  Forall (fun y => p y = false) (l1 ++ l2) -> p x = true ->
  List.find p (l1 ++ x :: l2) = Some x
  /\ List.filter (fun y => negb (p y)) (l1 ++ x :: l2) = (l1 ++ l2)%list.
Proof.
  intros Hall Hx. apply Forall_app in Hall as [H1 H2].
  induction l1 as [|y l1 IH]; cbn [app List.find List.filter].
  - rewrite Hx. cbn [negb]. split; [reflexivity|].
    apply filter_all. apply forallb_forall. intros y Hy.
    rewrite List.Forall_forall in H2. now rewrite H2.
  - inversion H1 as [|? ? Hy H1']; subst. rewrite Hy. cbn [negb].
    destruct (IH H1') as [-> ->]. now split.
Qed.

Lemma findIndex_ge {A} (p : A -> bool) (l : list A) : -1 <= findIndex p l.
Proof.
  induction l as [|x l IH]; cbn [findIndex]; [lia|].
  destruct (p x); [lia|]. destruct (findIndex p l =? -1); lia.
Qed.

Lemma findIndex_none {A} (p : A -> bool) (l : list A) :
  findIndex p l = -1 <-> existsb p l = false.
Proof.
  induction l as [|x l IH]; cbn [findIndex existsb]; [tauto|].
  destruct (p x); cbn [orb]; [split; [lia | discriminate]|].
  rewrite <- IH. pose proof (findIndex_ge p l).
  destruct (findIndex p l =? -1) eqn:E.
  - apply Z.eqb_eq in E. tauto.
  - apply Z.eqb_neq in E. split; lia.
Qed.

(** [findIndex] gives the position of the first element that satisfies the
    predicate. *)
Lemma findIndex_first {A} (p : A -> bool) (l : list A) (i : nat) (x : A) :
  l !! i = Some x -> p x = true ->
  Forall (fun y => p y = false) (take i l) ->
  findIndex p l = Z.of_nat i.
Proof.
  revert i. induction l as [|y l IH]; intros i Hi Hx Hpre; [discriminate|].
  destruct i as [|i]; cbn [findIndex].
  - injection Hi as ->. now rewrite Hx.
  - cbn [take] in Hpre. inversion Hpre as [|? ? Hy Hpre']; subst.
    rewrite Hy. cbn in Hi. rewrite (IH i Hi Hx Hpre').
    destruct (Z.of_nat i =? -1) eqn:E; [apply Z.eqb_eq in E|]; lia.
Qed.

Lemma findIndex_found {A} (p : A -> bool) (l : list A) :
  existsb p l = true ->
  exists i x, findIndex p l = Z.of_nat i /\ l !! i = Some x /\ p x = true
              /\ Forall (fun y => p y = false) (take i l).
Proof.
  induction l as [|y l IH]; cbn [existsb]; [discriminate|].
  destruct (p y) eqn:Ey; cbn [orb].
  - intros _. exists 0%nat, y. cbn [findIndex]. rewrite Ey.
    repeat split; auto.
  - intros H. destruct (IH H) as (i & x & Hi & Hl & Hx & Hpre).
    exists (S i), x. cbn [findIndex]. rewrite Ey, Hi.
    destruct (Z.of_nat i =? -1) eqn:E; [apply Z.eqb_eq in E; lia|].
    repeat split; auto; [lia|]. cbn [take]. now constructor.
Qed.

(** *** Renumbering *)

Lemma has_date_renumbered date n (x : jsobject) :
  has_date date (<["wordNumber" := VNum n]> x) = has_date date x.
Proof. unfold has_date. now rewrite lookup_insert_ne. Qed.

Lemma length_renumber n date ws : length (renumber n date ws) = length ws.
Proof.
  revert n. induction ws as [|x ws IH]; intros n; cbn [renumber];
    [reflexivity|].
  fold (has_date date x). destruct (has_date date x); cbn [length];
    now rewrite IH.
Qed.

(** Position by position: a word of the date gets the number of the words
    of the date up to it, any other word stays as it is. *)
Lemma renumber_lookup n date ws i :
  renumber n date ws !! i
  = (fun x =>
       if has_date date x
       then <["wordNumber" :=
                VNum (n + Z.of_nat (length (List.filter (has_date date)
                                              (take i ws))))]> x
       else x) <$> ws !! i.
Proof.
  revert n i. induction ws as [|x ws IH]; intros n i; cbn [renumber].
  - now destruct i.
  - fold (has_date date x). destruct i as [|i].
    + cbn [take List.filter length]. rewrite Z.add_0_r.
      destruct (has_date date x) eqn:E;
        cbn [lookup list_lookup fmap option_fmap option_map];
        now rewrite E.
    + cbn [take List.filter].
      destruct (has_date date x); cbn [lookup list_lookup length];
        rewrite IH; [|reflexivity].
      destruct (ws !! i) as [y|]; cbn [fmap option_fmap option_map]; [|reflexivity].
      destruct (has_date date y); [|reflexivity].
      do 3 f_equal. lia.
Qed.

Lemma date_numbers_renumber n date ws :
  date_numbers date (renumber n date ws)
  = List.map (fun i => Some (VNum (n + Z.of_nat i)))
      (List.seq 0 (length (List.filter (has_date date) ws))).
Proof.
  unfold date_numbers. revert n.
  induction ws as [|x ws IH]; intros n; cbn [renumber List.filter];
    [reflexivity|].
  fold (has_date date x). destruct (has_date date x) eqn:E;
    cbn [List.filter]; rewrite ?has_date_renumbered, E.
  - cbn [List.map length List.seq]. rewrite lookup_insert_eq, Z.add_0_r.
    f_equal. rewrite IH, <- List.seq_shift, List.map_map.
    apply List.map_ext. intros i. do 2 f_equal. lia.
  - apply IH.
Qed.

Lemma date_numbers_renumber_1 date ws :
  date_numbers date (renumber 1 date ws)
  = one_to (length (List.filter (has_date date) ws)).
Proof.
  rewrite date_numbers_renumber. unfold one_to.
  rewrite <- List.seq_shift, List.map_map.
  apply List.map_ext. intros i. do 2 f_equal. lia.
Qed.

Lemma length_one_to k : length (one_to k) = k.
Proof. unfold one_to. now rewrite List.length_map, List.length_seq. Qed.

Lemma renumber_contiguous date ws :
  contiguous_numbering date (renumber 1 date ws).
Proof.
  unfold contiguous_numbering. rewrite date_numbers_renumber_1.
  now rewrite length_one_to.
Qed.

End WordListFacts.

(** ** Objects *)

Module ObjectFacts.

Lemma lookup_set_prop_eq k v (o : jsobject) : set_prop k v o !! k = v.
Proof.
  destruct v; cbn [set_prop];
    [apply lookup_insert_eq | apply lookup_delete_eq].
Qed.

Lemma lookup_set_prop_ne k k' v (o : jsobject) :
  k <> k' -> set_prop k v o !! k' = o !! k'.
Proof.
  intros H. destruct v; cbn [set_prop];
    [now apply lookup_insert_ne | now apply lookup_delete_ne].
Qed.

Lemma lookup_patch (updates old : jsobject) k :
  (updates ∪ old) !! k
  = match updates !! k with Some v => Some v | None => old !! k end.
Proof.
  destruct (updates !! k) as [v|] eqn:E.
  - now apply lookup_union_Some_l.
  - now apply lookup_union_r.
Qed.

Lemma js_or_default a v : exists x, js_or a (Some v) = Some x.
Proof.
  unfold js_or. destruct (truthy a) eqn:E; [|eauto].
  destruct a; [eauto | discriminate].
Qed.

End ObjectFacts.

(** ** The word operations, step by step *)

Module OperationFacts.
Import StorageManager ApiManager ObjectFacts WordListFacts Run.

Ltac split_all := repeat match goal with |- _ /\ _ => split end.

(** Reads a property through the assignments of the other properties. *)
Ltac lookup_prop :=
  repeat (etransitivity;
          [apply lookup_set_prop_ne;
           first [assumption | apply not_eq_sym; assumption
                 | apply String.eqb_neq; reflexivity]|]);
  try apply lookup_set_prop_eq.

(** [generateId] only draws random numbers. *)
Lemma replace_xy_total template : forall w,
  exists id w',
    replace_xy template w = (Ok id, w')
    /\ storage w' = storage w /\ clock w' = clock w
    /\ network w' = network w /\ fetches w' = fetches w
    /\ trace w' = trace w.
Proof.
  induction template as [|c rest IH]; intros w; cbn [replace_xy].
  - exists EmptyString, w. cbv [ret]. auto 10.
  - destruct (Ascii.eqb c "x" || Ascii.eqb c "y").
    + cbv [bind Math_random_16 ret].
      match goal with
      | |- context [replace_xy rest ?w0] =>
          destruct (IH w0) as (id & w' & -> & Hs & Hc & Hn & Hf & Ht)
      end.
      eexists _, _. split; [reflexivity|]. cbn in *. auto 10.
    + cbv [bind ret].
      destruct (IH w) as (id & w' & -> & H).
      eexists _, _. split; [reflexivity|]. exact H.
Qed.

Lemma generateId_total w :
  exists id w',
    generateId w = (Ok id, w')
    /\ storage w' = storage w /\ clock w' = clock w
    /\ network w' = network w /\ fetches w' = fetches w
    /\ trace w' = trace w.
Proof. apply replace_xy_total. Qed.

Lemma deleteWord_not_found wordId w ws w1 :
  fetchAllWords w = (Ok ws, w1) ->
  existsb (has_id wordId) ws = false ->
  deleteWord wordId w = (Throw (Error "Error" "Word not found"), w1).
Proof.
  intros Hf Hnone. cbv [deleteWord bind throw]. rewrite Hf.
  fold (has_id wordId).
  assert (Hall : forallb (fun x => negb (has_id wordId x)) ws = true)
    by now rewrite forallb_negb_existsb, Hnone.
  change (fun w0 : jsobject => negb (strict_eq (w0 !! "id") (Some wordId)))
    with (fun x => negb (has_id wordId x)).
  rewrite (filter_all _ _ Hall), Nat.eqb_refl. reflexivity.
Qed.

Lemma deleteWord_found wordId w ws w1 deleted :
  fetchAllWords w = (Ok ws, w1) ->
  List.find (has_id wordId) ws = Some deleted ->
  deleteWord wordId w
  = (Ok true,
     snd (saveAllWords
            (renumber 1 (deleted !! "date")
               (List.filter (fun x => negb (has_id wordId x)) ws)) w1)).
Proof.
  intros Hf Hfind. cbv [deleteWord bind throw ret]. rewrite Hf.
  change (fun w0 : jsobject => negb (strict_eq (w0 !! "id") (Some wordId)))
    with (fun x => negb (has_id wordId x)).
  change (fun w0 : jsobject => strict_eq (w0 !! "id") (Some wordId))
    with (has_id wordId).
  rewrite Hfind.
  destruct (length (List.filter _ ws) =? length ws)%nat eqn:E.
  - apply Nat.eqb_eq, filter_length_all in E.
    rewrite forallb_negb_existsb in E. apply negb_true_iff in E.
    apply List.find_some in Hfind as [Hin Hid].
    assert (existsb (has_id wordId) ws = true)
      by (apply existsb_exists; eauto).
    congruence.
  - match goal with
    | |- context [saveAllWords ?l w1] =>
        destruct (saveAllWords_total l w1) as (b & w2 & -> & _)
    end.
    reflexivity.
Qed.

Lemma addWord_spec wordData w ws w1 :
  fetchAllWords w = (Ok ws, w1) ->
  exists id w1' newWord b w2,
    generateId w1 = (Ok id, w1')
    /\ saveAllWords (ws ++ [newWord]) w1' = (Ok b, w2)
    /\ addWord wordData w = (Ok newWord, w2)
    /\ storage w2 = with_local_words (ws ++ [newWord]) (storage w1)
    /\ newWord !! "id" = Some (VStr id)
    /\ newWord !! "date"
       = js_or (wordData !! "date") (Some (VStr (getDateString (clock w1))))
    /\ newWord !! "wordNumber"
       = Some (VNum (getNextWordNumber ws (wordData !! "date")))
    /\ newWord !! "english" = wordData !! "english"
    /\ newWord !! "banglaMeanings"
       = Some (VArr (parseArrayField (wordData !! "banglaMeanings")))
    /\ newWord !! "synonyms"
       = Some (VArr (parseArrayField (wordData !! "synonyms")))
    /\ newWord !! "antonyms"
       = Some (VArr (parseArrayField (wordData !! "antonyms")))
    /\ newWord !! "isLearned" = Some (VBool false)
    /\ newWord !! "createdAt" = Some (VStr (JsDate.toISOString (clock w1))).
Proof.
  intros Hf.
  destruct (generateId_total w1) as (id & w1' & Hg & Hs & Hc & _).
  cbv [addWord bind ret Date_now]. rewrite Hf, Hg, Hc.
  match goal with
  | |- context [saveAllWords (ws ++ [?o]) w1'] => set (newWord := o)
  end.
  destruct (saveAllWords_total (ws ++ [newWord]) w1') as (b & w2 & Hsave & Hst).
  exists id, w1', newWord, b, w2. rewrite Hsave, Hst, Hs.
  do 4 (split; [reflexivity|]).
  subst newWord. cbv [object_literal fold_left fst snd].
  split_all; lookup_prop.
Qed.

Lemma updateWord_not_found wordId updates w ws w1 :
  fetchAllWords w = (Ok ws, w1) ->
  existsb (has_id wordId) ws = false ->
  updateWord wordId updates w
  = (Throw (Error "Error" "Word not found"), w1).
Proof.
  intros Hf Hnone. cbv [updateWord bind throw]. rewrite Hf.
  change (fun w0 : jsobject => strict_eq (w0 !! "id") (Some wordId))
    with (has_id wordId).
  apply findIndex_none in Hnone. now rewrite Hnone.
Qed.

Lemma updateWord_spec wordId updates w ws w1 i old :
  fetchAllWords w = (Ok ws, w1) ->
  ws !! i = Some old -> has_id wordId old = true ->
  Forall (fun y => has_id wordId y = false) (take i ws) ->
  exists updated b w2,
    updateWord wordId updates w = (Ok updated, w2)
    /\ saveAllWords (<[i := updated]> ws) w1 = (Ok b, w2)
    /\ snapshot (storage w2) = <[i := updated]> ws
    /\ updated !! "updatedAt" = Some (VStr (JsDate.toISOString (clock w1)))
    /\ updated !! "banglaMeanings"
       = updated_list_field "banglaMeanings" old updates
    /\ updated !! "synonyms" = updated_list_field "synonyms" old updates
    /\ updated !! "antonyms" = updated_list_field "antonyms" old updates
    /\ (forall k,
          k <> "updatedAt" -> k <> "banglaMeanings" -> k <> "synonyms" ->
          k <> "antonyms" ->
          updated !! k
          = match updates !! k with Some v => Some v | None => old !! k end).
Proof.
  intros Hf Hi Hid Hpre. cbv [updateWord bind throw ret Date_now].
  rewrite Hf.
  change (fun w0 : jsobject => strict_eq (w0 !! "id") (Some wordId))
    with (has_id wordId).
  rewrite (findIndex_first _ _ _ _ Hi Hid Hpre), Nat2Z.id, Hi.
  destruct (Z.of_nat i =? -1) eqn:E; [apply Z.eqb_eq in E; lia|].
  cbn [default].
  match goal with
  | |- context [saveAllWords (<[i := ?o]> ws) w1] => set (updated := o)
  end.
  destruct (saveAllWords_total (<[i := updated]> ws) w1)
    as (b & w2 & Hsave & Hst).
  exists updated, b, w2. rewrite Hsave.
  split; [reflexivity|]. split; [reflexivity|].
  split; [now rewrite Hst|].
  subst updated.
  split_all; intros; lookup_prop.
  apply lookup_patch.
Qed.

End OperationFacts.

(** ** Routing: the cache and the remote document *)

Module RoutingFacts.
Import StorageManager ApiManager Run WordListFacts OperationFacts.

Lemma fetchAllWords_local w :
  credential_absent (vocab_bin_id (storage w)) ->
  fetchAllWords w = (Ok (snapshot (storage w)), w).
Proof.
  intros H. apply credential_absent_iff in H.
  now rewrite fetchAllWords_run, H.
Qed.

Lemma saveAllWords_local ws w :
  credential_absent (vocab_bin_id (storage w)) ->
  saveAllWords ws w
  = (Ok true, with_storage (with_local_words ws (storage w)) w).
Proof.
  intros H. apply credential_absent_iff in H.
  now rewrite saveAllWords_run, H.
Qed.

Lemma attempts_trace_read_only url options k :
  read_only (EvFetch url options) = true ->
  forallb read_only (attempts_trace (EvFetch url options) k) = true.
Proof.
  intros H. destruct k as [|k]; [reflexivity|].
  cbn [attempts_trace forallb]. rewrite H. cbn [andb].
  induction k as [|k IH]; [reflexivity|].
  cbn [List.repeat List.concat app forallb]. rewrite H. exact IH.
Qed.

(** Reading the collection sends no write request. *)
Lemma fetchAllWords_read_only w :
  exists evs,
    trace (snd (fetchAllWords w)) = (trace w ++ evs)%list
    /\ forallb read_only evs = true.
Proof.
  rewrite fetchAllWords_run. destruct (truthy _).
  - destruct (request_trace (latest_url (storage w)) no_options 2 w)
      as (k & _ & Ht).
    exists (attempts_trace
              (EvFetch (latest_url (storage w))
                 (sent_options no_options (storage w))) k).
    split; [|now apply attempts_trace_read_only].
    now destruct (request _ _ _ w) as [[j|e] w1].
  - exists []. split; [now rewrite app_nil_r | reflexivity].
Qed.

(** Without a bin id no operation sends a request. *)
Lemma addWord_local wordData w :
  credential_absent (vocab_bin_id (storage w)) ->
  trace (snd (addWord wordData w)) = trace w.
Proof.
  intros H.
  destruct (addWord_spec wordData w _ _ (fetchAllWords_local w H))
    as (id & w1' & newWord & b & w2 & Hg & Hsave & -> & _).
  destruct (generateId_total w) as (id' & w1'' & Hg' & Hs & _ & _ & _ & Ht).
  rewrite Hg in Hg'. injection Hg' as <- <-.
  rewrite saveAllWords_local in Hsave by now rewrite Hs.
  injection Hsave as _ <-. exact Ht.
Qed.

Lemma updateWord_local wordId updates w :
  credential_absent (vocab_bin_id (storage w)) ->
  trace (snd (updateWord wordId updates w)) = trace w.
Proof.
  intros H. pose proof (fetchAllWords_local w H) as Hf.
  destruct (existsb (has_id wordId) (snapshot (storage w))) eqn:E.
  - destruct (findIndex_found _ _ E) as (i & old & _ & Hi & Hid & Hpre).
    destruct (updateWord_spec wordId updates w _ _ i old Hf Hi Hid Hpre)
      as (updated & b & w2 & -> & Hsave & _).
    rewrite saveAllWords_local in Hsave by exact H.
    now injection Hsave as _ <-.
  - now rewrite (updateWord_not_found wordId updates w _ _ Hf E).
Qed.

Lemma deleteWord_local wordId w :
  credential_absent (vocab_bin_id (storage w)) ->
  trace (snd (deleteWord wordId w)) = trace w.
Proof.
  intros H. pose proof (fetchAllWords_local w H) as Hf.
  destruct (existsb (has_id wordId) (snapshot (storage w))) eqn:E.
  - destruct (find_existsb _ _ E) as (deleted & Hfind & _).
    rewrite (deleteWord_found wordId w _ _ deleted Hf Hfind).
    now rewrite saveAllWords_local by exact H.
  - now rewrite (deleteWord_not_found wordId w _ _ Hf E).
Qed.

(** *** Three attempts *)

Lemma request_third_attempt url options w e0 e1 :
  attempt_result (network w (fetches w)) = Throw e0 ->
  name e0 <> "AbortError" ->
  attempt_result (network w (fetches w + 1)%nat) = Throw e1 ->
  name e1 <> "AbortError" ->
  request url options 2 w
  = (attempt_result (network w (fetches w + 2)%nat),
     after_attempts url (sent_options options (storage w)) 3 w).
Proof.
  intros H0 N0 H1 N1.
  apply String.eqb_neq in N0, N1.
  replace (fetches w + 1)%nat with (S (fetches w)) in H1 by lia.
  replace (fetches w + 2)%nat with (S (S (fetches w))) by lia.
  rewrite request_unfold. cbv zeta. rewrite H0, N0. cbn [negb].
  rewrite request_unfold. cbv zeta.
  cbn [fetches network storage after_sleep after_fetch].
  rewrite H1, N1. cbn [negb].
  rewrite request_unfold. cbv zeta.
  cbn [fetches network storage after_sleep after_fetch].
  assert (Hw : forall x : World,
             x = after_attempts url (sent_options options (storage w)) 3 w ->
             forall r : result response_json,
               match r with Ok j => (Ok j, x) | Throw e => (Throw e, x) end
               = (r, after_attempts url (sent_options options (storage w)) 3 w)).
  { intros x -> r. now destruct r. }
  apply Hw. unfold after_attempts, after_fetch, after_sleep.
  cbn [storage clock network fetches random draws trace attempts_trace
       List.repeat List.concat app].
  f_equal; [lia | lia |]. now rewrite <- !app_assoc.
Qed.

Lemma request_all_fail url options w :
  attempt_fails (network w (fetches w)) ->
  attempt_fails (network w (fetches w + 1)%nat) ->
  attempt_fails (network w (fetches w + 2)%nat) ->
  exists e, fst (request url options 2 w) = Throw e.
Proof.
  intros [e0 H0] [e1 H1] [e2 H2].
  destruct (request_spec url options 2 w) as (k & Hk & _ & Hr & _).
  rewrite Hr.
  assert (Hcases : (k = 1 \/ k = 2 \/ k = 3)%nat) by lia.
  destruct Hcases as [Hk1|[Hk1|Hk1]]; subst k;
    cbn [Nat.sub]; rewrite ?Nat.add_0_r; eauto.
Qed.

End RoutingFacts.

(** * The claims *)

Import StorageManager ApiManager.

(** ** C8: the list fields *)

(** C8, as stated, fails for a list-shaped input: from the list [" a "]
    [parseArrayField] returns the entry as it is, which is not a trimmed
    string. *)
Lemma parseArrayField_keeps_untrimmed_entry :
  ~ Forall (fun x => trimmed x /\ x <> EmptyString)
      (parseArrayField (Some (VArr [" a "]))).
Proof.
  intros H. apply Forall_inv in H as [Ht _]. discriminate Ht.
Qed.

(** C8, as amended.  [parseArrayField] maps a comma-separated string to the
    ordered list of its trimmed non-empty segments (["a, b ,c"] gives
    [["a"; "b"; "c"]]), an empty or whitespace-only string to the empty list,
    and a list-shaped input to the list of its entries that are neither empty
    nor whitespace-only, in order, each entry kept as it is (not trimmed). *)
Theorem parseArrayField_normalizes :
  (forall s,
      parseArrayField (Some (VStr s)) = trimmed_nonempty_segments s
      /\ Forall (fun x => trimmed x /\ x <> EmptyString)
           (parseArrayField (Some (VStr s))))
  /\ parseArrayField (Some (VStr "a, b ,c")) = ["a"; "b"; "c"]
  /\ (forall s, JsString.all_space s = true ->
                parseArrayField (Some (VStr s)) = [])
  /\ (forall items,
        parseArrayField (Some (VArr items))
        = List.filter
            (fun item => negb (JsString.is_empty (JsString.trim item))) items).
Proof.
  split; [|split; [|split]].
  - intros s. split; [apply parseArrayField_string|].
    rewrite parseArrayField_string. apply trimmed_nonempty_segments_spec.
  - reflexivity.
  - apply parseArrayField_blank.
  - apply parseArrayField_array.
Qed.

(** ** C9: the streak *)

(** C9.  With the clock at a representable instant whose previous day is
    representable too, and a stored count that is a safe integer (on which
    the sum of the code is the sum of the integers), one call of
    [updateStreak] on the stored state [{count, lastActiveDate}]: returns
    [count] and changes nothing when [lastActiveDate] is today; returns
    [count + 1] when it is yesterday; returns [1] when it is [null] or a day
    before yesterday; and in the last two cases stores the new count with
    today's date.  So from [{3, yesterday}] the call gives 4 and stores
    [{4, today}], a second call, then or at any later time of the day, gives
    4 again and changes nothing, and from a date ten days ago the call
    gives 1. *)
Theorem updateStreak_spec (w : World) :
  JsDate.valid_time (clock w) ->
  JsDate.valid_time (clock w - 86400000) ->
  safe_integer (currentStreak (stored_streak (storage w))) ->
  let sd := stored_streak (storage w) in
  let today := getDateString (clock w) in
  let yesterday := getDateString (clock w - 86400000) in
  (lastActiveDate sd = Some today ->
     updateStreak w = (Ok (currentStreak sd), w))
  /\ (lastActiveDate sd = Some yesterday ->
        updateStreak w
        = (Ok (currentStreak sd + 1),
           with_streak (currentStreak sd + 1) today w))
  /\ (lastActiveDate sd = None
      \/ (exists t, JsDate.valid_time t
                    /\ JsDate.Day t < JsDate.Day (clock w) - 1
                    /\ lastActiveDate sd = Some (getDateString t)) ->
        updateStreak w = (Ok 1, with_streak 1 today w))
  /\ (currentStreak sd = 3 -> lastActiveDate sd = Some yesterday ->
        updateStreak w = (Ok 4, with_streak 4 today w)
        /\ stored_streak (storage (with_streak 4 today w))
           = {| currentStreak := 4; lastActiveDate := Some today |}
        /\ updateStreak (with_streak 4 today w)
           = (Ok 4, with_streak 4 today w))
  /\ (forall w' : World,
        JsDate.valid_time (clock w') ->
        stored_streak (storage w')
        = {| currentStreak := 4; lastActiveDate := Some today |} ->
        getDateString (clock w') = today ->
        updateStreak w' = (Ok 4, w'))
  /\ (forall t, JsDate.valid_time t ->
                JsDate.Day t = JsDate.Day (clock w) - 10 ->
                lastActiveDate sd = Some (getDateString t) ->
        updateStreak w = (Ok 1, with_streak 1 today w)).
Proof.
  intros Hnow Hyes _ sd today yesterday.
  pose proof (StreakFacts.yesterday_not_today _ Hnow Hyes) as Hne.
  pose proof (StreakFacts.updateStreak_run w Hnow Hyes) as Hrun.
  cbv zeta in Hrun. fold sd today yesterday in Hrun.
  assert (Hy : lastActiveDate sd = Some yesterday ->
               updateStreak w
               = (Ok (currentStreak sd + 1),
                  with_streak (currentStreak sd + 1) today w)).
  { intros H. rewrite Hrun, H.
    destruct (String.eqb_spec yesterday today) as [E|_]; [contradiction|].
    now rewrite String.eqb_refl. }
  assert (Hold : forall t, JsDate.valid_time t ->
                   JsDate.Day t < JsDate.Day (clock w) - 1 ->
                   lastActiveDate sd = Some (getDateString t) ->
                   updateStreak w = (Ok 1, with_streak 1 today w)).
  { intros t Ht Hlt H.
    destruct (StreakFacts.older_not_recent t (clock w) Hnow Hyes Ht Hlt)
      as [N1 N2].
    rewrite Hrun, H.
    destruct (String.eqb_spec (getDateString t) today); [contradiction|].
    destruct (String.eqb_spec (getDateString t) yesterday); [contradiction|].
    reflexivity. }
  assert (Hsame : forall w' : World,
             JsDate.valid_time (clock w') ->
             stored_streak (storage w')
             = {| currentStreak := 4; lastActiveDate := Some today |} ->
             getDateString (clock w') = today ->
             updateStreak w' = (Ok 4, w')).
  { intros w' Hv Hst Hday.
    rewrite (StreakFacts.updateStreak_same_day w' Hv);
      rewrite Hst; cbn [lastActiveDate currentStreak];
      [reflexivity | now rewrite Hday]. }
  split; [|split; [|split; [|split; [|split]]]].
  - intros H. rewrite Hrun, H. now rewrite String.eqb_refl.
  - exact Hy.
  - intros [H|(t & Ht & Hlt & H)].
    + now rewrite Hrun, H.
    + now apply (Hold t).
  - intros H3 H. split; [|split].
    + rewrite (Hy H), H3. reflexivity.
    + reflexivity.
    + apply Hsame; [exact Hnow | reflexivity | reflexivity].
  - exact Hsame.
  - intros t Ht Hd H. apply (Hold t Ht); [lia | exact H].
Qed.

(** C9 on a device last active on 2025-11-01 with a streak of 3, opened on
    2025-11-02: the streak becomes 4. *)
Lemma updateStreak_spec_witness :
  updateStreak Scenario.returning_user
  = (Ok 4, with_streak 4 "2025-11-02" Scenario.returning_user).
Proof.
  assert (Hnow : JsDate.valid_time (clock Scenario.returning_user))
    by (split; apply Z.leb_le; reflexivity).
  assert (Hyes : JsDate.valid_time (clock Scenario.returning_user - 86400000))
    by (split; apply Z.leb_le; reflexivity).
  assert (Hsafe : safe_integer
                    (currentStreak
                       (stored_streak (storage Scenario.returning_user))))
    by (split; apply Z.ltb_lt; reflexivity).
  exact (proj1 (proj1 (proj2 (proj2 (proj2
           (updateStreak_spec Scenario.returning_user Hnow Hyes Hsafe))))
           eq_refl eq_refl)).
Defined.

(** ** C6: without credentials *)

(** C6, as stated, fails when only the access key is absent: with a bin id
    and no key, [fetchAllWords] sends a request and returns the remote
    document, not the snapshot. *)
Lemma missing_key_still_goes_remote :
  credential_absent (vocab_api_key (storage Scenario.keyless))
  /\ snapshot (storage Scenario.keyless) = []
  /\ fst (fetchAllWords Scenario.keyless) = Ok [Scenario.cat]
  /\ fst (fetchAllWords Scenario.keyless)
     <> Ok (snapshot (storage Scenario.keyless))
  /\ trace (snd (fetchAllWords Scenario.keyless)) <> trace Scenario.keyless.
Proof.
  assert (Hfetch : fst (fetchAllWords Scenario.keyless) = Ok [Scenario.cat])
    by reflexivity.
  split; [now left|]. split; [reflexivity|]. split; [exact Hfetch|].
  split.
  - rewrite Hfetch. discriminate.
  - intros H. apply (f_equal (@length event)) in H. discriminate H.
Qed.

(** C6, as amended.  Whenever the document identifier is absent (whatever
    the access key), every operation is routed to the Local Cache Snapshot
    only: [fetchAllWords] returns exactly the snapshot and changes nothing,
    [saveAllWords c] writes [c] to the snapshot and reports success, and
    neither they nor [addWord], [updateWord] and [deleteWord] send a
    request. *)
Theorem no_bin_id_routes_to_cache (w : World) :
  credential_absent (vocab_bin_id (storage w)) ->
  fetchAllWords w = (Ok (snapshot (storage w)), w)
  /\ (forall c,
        saveAllWords c w
        = (Ok true, with_storage (with_local_words c (storage w)) w)
        /\ snapshot (storage (snd (saveAllWords c w))) = c
        /\ trace (snd (saveAllWords c w)) = trace w)
  /\ (forall wordData, trace (snd (addWord wordData w)) = trace w)
  /\ (forall wordId updates,
        trace (snd (updateWord wordId updates w)) = trace w)
  /\ (forall wordId, trace (snd (deleteWord wordId w)) = trace w).
Proof.
  intros H. split; [|split; [|split; [|split]]].
  - now apply RoutingFacts.fetchAllWords_local.
  - intros c. rewrite (RoutingFacts.saveAllWords_local c w H).
    repeat split.
  - intros d. now apply RoutingFacts.addWord_local.
  - intros i p. now apply RoutingFacts.updateWord_local.
  - intros i. now apply RoutingFacts.deleteWord_local.
Qed.

(** C6 on a device without credentials: reading returns the four cached
    words and leaves the device as it is. *)
Lemma no_bin_id_routes_to_cache_witness :
  fetchAllWords Scenario.local_only
  = (Ok [Scenario.cat; Scenario.dog; Scenario.owl; Scenario.emu],
     Scenario.local_only).
Proof.
  exact (proj1 (no_bin_id_routes_to_cache Scenario.local_only
                  (or_introl eq_refl))).
Defined.

(** ** C7: the retry policy *)

(** A cancelled request is tried once. *)
Example request_cancelled :
  trace (snd (request "u" no_options 2
                (Scenario.device None None NoItem NoItem
                   (fun _ => Scenario.cancelled))))
  = [EvFetch "u" (sent_options no_options
                    (storage (Scenario.device None None NoItem NoItem
                                (fun _ => Scenario.cancelled))))].
Proof. reflexivity. Qed.

(** With the network down, reading takes three attempts, two seconds, and
    returns the cached word. *)
Example fetchAllWords_unreachable :
  fst (fetchAllWords Scenario.unreachable) = Ok [Scenario.dog]
  /\ fetches (snd (fetchAllWords Scenario.unreachable)) = 3%nat
  /\ clock (snd (fetchAllWords Scenario.unreachable))
     = Scenario.afternoon + 2000.
Proof. repeat split. Qed.

(** C7.  A call of [request] makes [k] attempts, [1 <= k <= 3], with a wait
    of 1000 ms before each attempt but the first (the trace and the clock of
    [after_attempts]); every attempt but the last failed with an error other
    than a cancellation, the result is that of the last attempt, and the
    call stops before the third attempt only on a success or a
    cancellation; a cancelled first attempt is not retried.  So, with a bin
    id configured, [fetchAllWords] returns the remote words when two
    attempts fail and the third succeeds (so also whenever it has made
    three attempts and the third succeeded), and the Local Cache Snapshot
    when three attempts fail. *)
Theorem request_retry_policy (url : string) (options : fetch_options)
  (w : World) :
  (exists k,
      (1 <= k <= 3)%nat
      /\ snd (request url options 2 w)
         = after_attempts url (sent_options options (storage w)) k w
      /\ trace (snd (request url options 2 w))
         = (trace w
            ++ attempts_trace
                 (EvFetch url (sent_options options (storage w))) k)%list
      /\ fst (request url options 2 w)
         = attempt_result (network w (fetches w + (k - 1))%nat)
      /\ (forall i, (i < k - 1)%nat ->
            exists e, attempt_result (network w (fetches w + i)%nat) = Throw e
                      /\ name e <> "AbortError")
      /\ ((k < 3)%nat ->
            (exists j,
                attempt_result (network w (fetches w + (k - 1))%nat) = Ok j)
            \/ attempt_cancelled (network w (fetches w + (k - 1))%nat)))
  /\ (attempt_cancelled (network w (fetches w)) ->
        request url options 2 w
        = (attempt_result (network w (fetches w)),
           after_attempts url (sent_options options (storage w)) 1 w))
  /\ (~ credential_absent (vocab_bin_id (storage w)) ->
      forall e0 e1 j,
        attempt_result (network w (fetches w)) = Throw e0 ->
        name e0 <> "AbortError" ->
        attempt_result (network w (fetches w + 1)%nat) = Throw e1 ->
        name e1 <> "AbortError" ->
        attempt_result (network w (fetches w + 2)%nat) = Ok j ->
        fetchAllWords w
        = (Ok (record_words j),
           with_storage (with_local_words (record_words j) (storage w))
             (after_attempts (latest_url (storage w))
                (sent_options no_options (storage w)) 3 w)))
  /\ (forall j,
        fetches (snd (fetchAllWords w)) = (fetches w + 3)%nat ->
        attempt_result (network w (fetches w + 2)%nat) = Ok j ->
        fst (fetchAllWords w) = Ok (record_words j)
        /\ snapshot (storage (snd (fetchAllWords w))) = record_words j)
  /\ (~ credential_absent (vocab_bin_id (storage w)) ->
      attempt_fails (network w (fetches w)) ->
      attempt_fails (network w (fetches w + 1)%nat) ->
      attempt_fails (network w (fetches w + 2)%nat) ->
      fst (fetchAllWords w) = Ok (snapshot (storage w))
      /\ storage (snd (fetchAllWords w)) = storage w).
Proof.
  split; [|split; [|split; [|split]]].
  - destruct (Run.request_spec url options 2 w) as (k & Hk & Hs & Hrest).
    exists k. split; [exact Hk|]. split; [exact Hs|].
    split; [now rewrite Hs | exact Hrest].
  - intros (e & He & Hn).
    rewrite Run.request_unfold. cbv zeta. rewrite He, Hn.
    cbn [String.eqb Ascii.eqb Bool.eqb negb andb].
    f_equal. unfold after_fetch, after_attempts.
    cbn [attempts_trace List.repeat List.concat]. f_equal; lia.
  - intros Hbin e0 e1 j H0 N0 H1 N1 H2.
    apply Run.credential_present_iff in Hbin.
    rewrite Run.fetchAllWords_run, Hbin.
    rewrite (RoutingFacts.request_third_attempt _ _ _ e0 e1 H0 N0 H1 N1), H2.
    reflexivity.
  - intros j Hthree Hj. revert Hthree.
    rewrite Run.fetchAllWords_run. destruct (truthy _).
    + destruct (Run.request_spec (latest_url (storage w)) no_options 2 w)
        as (k & Hk & Hs & Hr & _).
      destruct (request _ _ _ w) as [[j'|e] w1]; cbn [fst snd] in *;
        subst w1; cbn [fetches after_attempts with_storage]; intros Hthree;
        assert (k = 3%nat) by lia; subst k;
        cbn [Nat.sub] in Hr; rewrite Hj in Hr; [|discriminate].
      injection Hr as ->. now split.
    + cbn [snd]. intros Hthree. lia.
  - intros Hbin F0 F1 F2.
    apply Run.credential_present_iff in Hbin.
    rewrite Run.fetchAllWords_run, Hbin.
    destruct (RoutingFacts.request_all_fail (latest_url (storage w))
                no_options w F0 F1 F2) as [e He].
    pose proof (Run.request_storage (latest_url (storage w)) no_options 2 w)
      as Hs.
    destruct (request _ _ _ w) as [[j|e'] w1]; cbn [fst snd] in *;
      [discriminate|].
    now rewrite Hs.
Qed.

(** C7 on a configured device whose network fails twice and then serves a
    document: [fetchAllWords] returns the served words. *)
Lemma request_retry_policy_witness :
  fst (fetchAllWords Scenario.flaky) = Ok [Scenario.cat; Scenario.owl].
Proof.
  assert (Hbin : ~ credential_absent (vocab_bin_id (storage Scenario.flaky)))
    by (intros [H|H]; discriminate H).
  assert (Hname : "Error" <> "AbortError") by discriminate.
  rewrite (proj1 (proj2 (proj2
             (request_retry_policy EmptyString no_options Scenario.flaky)))
             Hbin (Error "Error" "HTTP error 503")
             (Error "Error" "HTTP error 503") _
             eq_refl Hname eq_refl Hname eq_refl).
  reflexivity.
Defined.

(** ** C5: deleting an unknown id *)

(** C5, as stated, fails when the cache is behind the remote document:
    [deleteWord] on an unknown id fails with not-found, but the read it
    starts with has refreshed the Local Cache Snapshot, from one word to
    two. *)
Lemma unknown_id_delete_refreshes_snapshot :
  fst (deleteWord (VStr "id-none") Scenario.stale_cache)
  = Throw (Error "Error" "Word not found")
  /\ snapshot (storage Scenario.stale_cache) = [Scenario.dog]
  /\ snapshot (storage (snd (deleteWord (VStr "id-none") Scenario.stale_cache)))
     = [Scenario.cat; Scenario.owl]
  /\ snapshot (storage (snd (deleteWord (VStr "id-none") Scenario.stale_cache)))
     <> snapshot (storage Scenario.stale_cache).
Proof.
  assert (H : snapshot (storage (snd (deleteWord (VStr "id-none")
                                        Scenario.stale_cache)))
              = [Scenario.cat; Scenario.owl]) by reflexivity.
  split; [reflexivity|]. split; [reflexivity|].
  split; [exact H|]. rewrite H. intros E.
  apply (f_equal (@length jsobject)) in E. discriminate E.
Qed.

(** C5, as amended.  For every id that no word of the fetched collection
    has, [deleteWord] fails with not-found and performs no save: the world
    is left as the read left it, in which the only requests sent are reads,
    the Local Cache Snapshot is the fetched collection (so it is the
    previous snapshot unless the remote read succeeded with another
    content), of unchanged length, and without a bin id nothing has changed
    at all. *)
Theorem deleteWord_unknown_id (w : World) (wordId : value)
  (ws : list jsobject) (w1 : World) :
  fetchAllWords w = (Ok ws, w1) ->
  existsb (has_id wordId) ws = false ->
  deleteWord wordId w = (Throw (Error "Error" "Word not found"), w1)
  /\ snapshot (storage w1) = ws
  /\ length (snapshot (storage w1)) = length ws
  /\ (exists evs, trace w1 = (trace w ++ evs)%list
                  /\ forallb read_only evs = true)
  /\ (credential_absent (vocab_bin_id (storage w)) -> w1 = w).
Proof.
  intros Hf Hnone.
  destruct (Run.fetchAllWords_total w) as (ws' & w1' & Hf' & Hsnap & _).
  rewrite Hf in Hf'. injection Hf' as <- <-.
  split; [exact (OperationFacts.deleteWord_not_found _ _ _ _ Hf Hnone)|].
  split; [exact Hsnap|]. split; [now rewrite Hsnap|]. split.
  - destruct (RoutingFacts.fetchAllWords_read_only w) as (evs & Ht & Hro).
    rewrite Hf in Ht. now exists evs.
  - intros H. rewrite (RoutingFacts.fetchAllWords_local w H) in Hf.
    now injection Hf as _ <-.
Qed.

Lemma local_only_fetch :
  fetchAllWords Scenario.local_only
  = (Ok [Scenario.cat; Scenario.dog; Scenario.owl; Scenario.emu],
     Scenario.local_only).
Proof. reflexivity. Qed.

(** C5 on a device without credentials: the failed delete leaves the
    device as it was. *)
Lemma deleteWord_unknown_id_witness :
  deleteWord (VStr "id-none") Scenario.local_only
  = (Throw (Error "Error" "Word not found"), Scenario.local_only).
Proof.
  refine (proj1 (deleteWord_unknown_id Scenario.local_only (VStr "id-none")
                   _ _ local_only_fetch eq_refl)).
Defined.

(** ** C1: deleting a word *)

(** C1.  When the fetched collection has a word with the given id,
    [deleteWord] succeeds and saves the collection without the words of that
    id (exactly that one word when no other word has the id), renumbered:
    the saved collection has the remaining words at their positions, a word
    whose date is the deleted word's gets as [wordNumber] its rank among the
    remaining words of that date, any other word is left as it is; the
    [wordNumber]s of that date are then 1..k in collection order, and the
    numbering invariant holds for that date. *)
Theorem deleteWord_renumbers (w : World) (wordId : value)
  (ws : list jsobject) (w1 : World) :
  fetchAllWords w = (Ok ws, w1) ->
  existsb (has_id wordId) ws = true ->
  exists deleted,
    List.find (has_id wordId) ws = Some deleted
    /\ let remaining := List.filter (fun x => negb (has_id wordId x)) ws in
       let date := deleted !! "date" in
       let saved := renumber 1 date remaining in
       deleteWord wordId w = (Ok true, snd (saveAllWords saved w1))
       /\ snapshot (storage (snd (deleteWord wordId w))) = saved
       /\ (forall l1 x l2,
             ws = (l1 ++ x :: l2)%list -> has_id wordId x = true ->
             Forall (fun y => has_id wordId y = false) (l1 ++ l2) ->
             deleted = x /\ remaining = (l1 ++ l2)%list)
       /\ length saved = length remaining
       /\ (forall i x,
             remaining !! i = Some x ->
             saved !! i
             = Some (if has_date date x
                     then <["wordNumber" :=
                              VNum (1 + Z.of_nat
                                          (length (List.filter (has_date date)
                                                     (take i remaining))))]> x
                     else x))
       /\ date_numbers date saved
          = one_to (length (List.filter (has_date date) remaining))
       /\ contiguous_numbering date saved.
Proof.
  intros Hf Hex.
  destruct (WordListFacts.find_existsb _ _ Hex) as (deleted & Hfind & Hid).
  exists deleted. split; [exact Hfind|]. cbv zeta.
  pose proof (OperationFacts.deleteWord_found wordId w ws w1 deleted Hf Hfind)
    as Hrun.
  split; [exact Hrun|]. split; [|split; [|split; [|split; [|split]]]].
  - rewrite Hrun. cbn [snd].
    match goal with
    | |- context [saveAllWords ?l w1] =>
        destruct (Run.saveAllWords_total l w1) as (b & w2 & -> & Hst)
    end.
    cbn [snd]. now rewrite Hst.
  - intros l1 x l2 -> Hx Hall.
    destruct (WordListFacts.find_unique (has_id wordId) l1 l2 x Hall Hx)
      as [Hfind' Hfilter].
    rewrite Hfind' in Hfind. injection Hfind as <-. now split.
  - apply WordListFacts.length_renumber.
  - intros i x Hi. rewrite WordListFacts.renumber_lookup, Hi. reflexivity.
  - apply WordListFacts.date_numbers_renumber_1.
  - apply WordListFacts.renumber_contiguous.
Qed.

(** C1 on a device with the words cat (1), owl (2) and emu (3) of
    2025-11-02 and the word dog of 2025-11-01: deleting owl leaves cat,
    dog and emu, emu now with number 2. *)
Lemma deleteWord_renumbers_witness :
  snapshot (storage (snd (deleteWord (VStr "id-owl") Scenario.local_only)))
  = [<["wordNumber" := VNum 1]> Scenario.cat; Scenario.dog;
     <["wordNumber" := VNum 2]> Scenario.emu].
Proof.
  destruct (deleteWord_renumbers Scenario.local_only (VStr "id-owl") _ _
              local_only_fetch eq_refl) as (deleted & Hfind & _ & Hsnap & _).
  rewrite Hsnap. injection Hfind as <-. reflexivity.
Defined.

(** ** C2: adding a word *)

(** C2, as stated, fails when the remote save fails and the remote read
    works: the document has one word of 2025-11-02, [addWord] returns the
    new word with number 2 and caches it, but its three attempts to save
    fail, and the total count read afterwards from the remote document is
    still 1. *)
Lemma failed_save_leaves_total_count :
  fst (getTotalWordCount Scenario.save_fails) = Ok 1
  /\ match fst (addWord Scenario.dated_input Scenario.save_fails) with
     | Ok newWord => newWord !! "wordNumber" = Some (VNum 2)
     | Throw _ => False
     end
  /\ length (snapshot (storage (snd (addWord Scenario.dated_input
                                       Scenario.save_fails)))) = 2%nat
  /\ fst (getTotalWordCount
            (snd (addWord Scenario.dated_input Scenario.save_fails))) = Ok 1.
Proof.
  split; [reflexivity|]. split; [vm_compute; reflexivity|].
  split; vm_compute; reflexivity.
Qed.

(** C2, as amended.  When [n] words of the fetched collection have the date
    [d] of the input, [addWord] returns a word whose [wordNumber] is [n + 1]
    and whose [id] is the generated one, whatever the outcome [b] of the
    save; the collection handed to [saveAllWords], which the Local Cache
    Snapshot then holds, is the fetched one with the new word appended, one
    word longer; and the total count, which was the length of the fetched
    collection, is one more afterwards whenever the next read returns the
    saved collection: from the snapshot (no bin id, or three failed
    attempts), or from a remote document that holds what was saved. *)
Theorem addWord_numbers_next (w : World) (wordData : jsobject) (d : value)
  (n : nat) (ws : list jsobject) (w1 : World) :
  fetchAllWords w = (Ok ws, w1) ->
  wordData !! "date" = Some d ->
  length (List.filter (has_date (Some d)) ws) = n ->
  exists id w1' newWord b w2,
    generateId w1 = (Ok id, w1')
    /\ addWord wordData w = (Ok newWord, w2)
    /\ saveAllWords (ws ++ [newWord]) w1' = (Ok b, w2)
    /\ newWord !! "wordNumber" = Some (VNum (Z.of_nat n + 1))
    /\ newWord !! "id" = Some (VStr id)
    /\ snapshot (storage w2) = (ws ++ [newWord])%list
    /\ length (ws ++ [newWord]) = S (length ws)
    /\ getTotalWordCount w = (Ok (Z.of_nat (length ws)), w1)
    /\ (credential_absent (vocab_bin_id (storage w)) ->
          getTotalWordCount w2 = (Ok (Z.of_nat (length ws) + 1), w2))
    /\ (attempt_fails (network w2 (fetches w2)) ->
        attempt_fails (network w2 (fetches w2 + 1)%nat) ->
        attempt_fails (network w2 (fetches w2 + 2)%nat) ->
          fst (getTotalWordCount w2) = Ok (Z.of_nat (length ws) + 1))
    /\ (forall j,
          attempt_result (network w2 (fetches w2)) = Ok j ->
          record_words j = (ws ++ [newWord])%list ->
          fst (getTotalWordCount w2) = Ok (Z.of_nat (length ws) + 1)).
Proof.
  intros Hf Hd Hn.
  destruct (OperationFacts.addWord_spec wordData w ws w1 Hf)
    as (id & w1' & newWord & b & w2 & Hg & Hsave & Hadd & Hst & Hid & _
        & Hnum & _).
  destruct (Run.fetchAllWords_total w)
    as (ws' & w1'' & Hf' & _ & Hbin & _).
  rewrite Hf in Hf'. injection Hf' as <- <-.
  assert (Hsnap : snapshot (storage w2) = (ws ++ [newWord])%list)
    by now rewrite Hst.
  assert (Hlen : Z.of_nat (length (ws ++ [newWord])) = Z.of_nat (length ws) + 1)
    by (rewrite length_app; cbn [length]; lia).
  assert (Hbin2 : vocab_bin_id (storage w2) = vocab_bin_id (storage w))
    by now rewrite Hst.
  exists id, w1', newWord, b, w2.
  split; [exact Hg|]. split; [exact Hadd|]. split; [exact Hsave|].
  split.
  { rewrite Hnum. unfold getNextWordNumber. rewrite Hd.
    change (fun w0 : jsobject => strict_eq (w0 !! "date") (Some d))
      with (has_date (Some d)).
    now rewrite Hn. }
  split; [exact Hid|]. split; [exact Hsnap|].
  split; [rewrite length_app; cbn [length]; lia|].
  split; [cbv [getTotalWordCount bind ret]; now rewrite Hf|].
  split; [|split].
  - intros H. cbv [getTotalWordCount bind ret].
    rewrite RoutingFacts.fetchAllWords_local by now rewrite Hbin2.
    now rewrite Hsnap, Hlen.
  - intros F0 F1 F2. cbv [getTotalWordCount bind ret].
    rewrite Run.fetchAllWords_run.
    destruct (truthy _); [|cbn [fst]; now rewrite Hsnap, Hlen].
    destruct (RoutingFacts.request_all_fail (latest_url (storage w2))
                no_options w2 F0 F1 F2) as [e He].
    pose proof (Run.request_storage (latest_url (storage w2)) no_options 2 w2)
      as Hs.
    destruct (request _ _ _ w2) as [[j|e'] w3]; cbn [fst snd] in *;
      [discriminate|].
    now rewrite Hs, Hsnap, Hlen.
  - intros j Hj Hwords. cbv [getTotalWordCount bind ret].
    rewrite Run.fetchAllWords_run.
    destruct (truthy _); [|cbn [fst]; now rewrite Hsnap, Hlen].
    rewrite Run.request_unfold. cbv zeta. rewrite Hj. cbn [fst].
    now rewrite Hwords, Hlen.
Qed.

(** C2 on a device whose cache has three words of 2025-11-02: the word
    added for that date gets number 4 and the cache then has five words. *)
Lemma addWord_numbers_next_witness :
  exists newWord w2,
    addWord Scenario.dated_input Scenario.local_only = (Ok newWord, w2)
    /\ newWord !! "wordNumber" = Some (VNum 4)
    /\ length (snapshot (storage w2)) = 5%nat.
Proof.
  destruct (addWord_numbers_next Scenario.local_only Scenario.dated_input
              (VStr "2025-11-02") 3 _ _ local_only_fetch eq_refl eq_refl)
    as (id & w1' & newWord & b & w2 & _ & Hadd & _ & Hnum & _ & Hsnap & _).
  exists newWord, w2. split; [exact Hadd|]. split; [exact Hnum|].
  now rewrite Hsnap.
Defined.

(** ** C3: updating a word *)

(** C3, as stated, fails for a patch whose list field is a list: the
    synonyms [[" a "; "b,c"; "  "]] of the patch lose their blank entry and
    are stored as [[" a "; "b,c"]], with an entry that is not trimmed and
    an entry that was not split at its comma. *)
Lemma list_patch_is_not_split_or_trimmed :
  exists updated,
    fst (updateWord (VStr "id-dog") Scenario.list_patch Scenario.local_only)
    = Ok updated
    /\ updated !! "synonyms" = Some (VArr [" a "; "b,c"])
    /\ ~ Forall (fun x => trimmed x /\ JsString.mem "," x = false)
          [" a "; "b,c"]
    /\ ~ trimmed " a "
    /\ JsString.mem "," "b,c" = true.
Proof.
  eexists. split; [reflexivity|]. split; [reflexivity|]. split; [|split].
  - intros H. apply Forall_inv in H as [Ht _]. discriminate Ht.
  - intros Ht. discriminate Ht.
  - reflexivity.
Qed.

(** C3, as amended.  When the word [old] is the first of the fetched
    collection with the given id, [updateWord] returns and saves in its
    place the word merged with the patch: a field absent from the patch
    keeps its value (all but [updatedAt]), a field of the patch other than
    the three list fields and [updatedAt] takes the patch's value, and
    [updatedAt] is the time of the update.  Each of [banglaMeanings],
    [synonyms], [antonyms] present in the patch is replaced according to
    the shape of its value: a string by the list of its trimmed non-empty
    comma-separated segments (["x,y"] gives [["x"; "y"]]); a list by the
    list of its entries that are neither empty nor whitespace-only, in
    order, each kept as it is, neither split nor trimmed; any other value
    by the empty list.  When no word has the id, [updateWord] fails with
    not-found. *)
Theorem updateWord_merges (w : World) (wordId : value) (updates : jsobject)
  (ws : list jsobject) (w1 : World) :
  fetchAllWords w = (Ok ws, w1) ->
  (forall i old,
      ws !! i = Some old -> has_id wordId old = true ->
      Forall (fun y => has_id wordId y = false) (take i ws) ->
      exists updated,
        fst (updateWord wordId updates w) = Ok updated
        /\ snd (updateWord wordId updates w)
           = snd (saveAllWords (<[i := updated]> ws) w1)
        /\ snapshot (storage (snd (updateWord wordId updates w)))
           = <[i := updated]> ws
        /\ (forall k, k <> "updatedAt" -> updates !! k = None ->
                      updated !! k = old !! k)
        /\ (forall k v,
              k <> "updatedAt" -> k <> "banglaMeanings" ->
              k <> "synonyms" -> k <> "antonyms" ->
              updates !! k = Some v -> updated !! k = Some v)
        /\ (forall k s,
              k = "banglaMeanings" \/ k = "synonyms" \/ k = "antonyms" ->
              updates !! k = Some (VStr s) ->
              updated !! k = Some (VArr (trimmed_nonempty_segments s))
              /\ Forall (fun x => trimmed x /\ x <> EmptyString)
                   (trimmed_nonempty_segments s))
        /\ (forall k items,
              k = "banglaMeanings" \/ k = "synonyms" \/ k = "antonyms" ->
              updates !! k = Some (VArr items) ->
              updated !! k
              = Some (VArr (List.filter
                              (fun item =>
                                 negb (JsString.is_empty (JsString.trim item)))
                              items)))
        /\ (forall k v,
              k = "banglaMeanings" \/ k = "synonyms" \/ k = "antonyms" ->
              updates !! k = Some v ->
              (forall s, v <> VStr s) -> (forall items, v <> VArr items) ->
              updated !! k = Some (VArr []))
        /\ (updates !! "synonyms" = Some (VStr "x,y") ->
              updated !! "synonyms" = Some (VArr ["x"; "y"]))
        /\ (updates !! "synonyms" = Some (VArr [" a "; "b,c"; "  "]) ->
              updated !! "synonyms" = Some (VArr [" a "; "b,c"]))
        /\ updated !! "updatedAt"
           = Some (VStr (JsDate.toISOString (clock w1))))
  /\ (existsb (has_id wordId) ws = false ->
        updateWord wordId updates w
        = (Throw (Error "Error" "Word not found"), w1)).
Proof.
  intros Hf. split.
  - intros i old Hi Hid Hpre.
    destruct (OperationFacts.updateWord_spec wordId updates w ws w1 i old
                Hf Hi Hid Hpre)
      as (updated & b & w2 & Hrun & Hsave & Hsnap & Hat & Hb & Hs & Ha & Hk).
    assert (Hlist : forall k v,
               k = "banglaMeanings" \/ k = "synonyms" \/ k = "antonyms" ->
               updates !! k = Some v ->
               updated !! k = Some (VArr (parseArrayField (Some v)))).
    { intros k v [-> | [-> | ->]] Hv;
        [rewrite Hb | rewrite Hs | rewrite Ha];
        unfold updated_list_field; now rewrite Hv. }
    assert (Hitems : forall k items,
               k = "banglaMeanings" \/ k = "synonyms" \/ k = "antonyms" ->
               updates !! k = Some (VArr items) ->
               updated !! k
               = Some (VArr (List.filter
                               (fun item =>
                                  negb (JsString.is_empty
                                          (JsString.trim item)))
                               items))).
    { intros k items Hin Hv. rewrite (Hlist k _ Hin Hv).
      now rewrite parseArrayField_array. }
    exists updated. rewrite Hrun, Hsave. cbn [fst snd].
    split; [reflexivity|]. split; [reflexivity|]. split; [exact Hsnap|].
    split; [|split; [|split; [|split; [|split; [|split; [|split]]]]]].
    + intros k Hne Hnone.
      destruct (String.eqb_spec k "banglaMeanings") as [->|N1];
        [rewrite Hb; unfold updated_list_field; now rewrite Hnone|].
      destruct (String.eqb_spec k "synonyms") as [->|N2];
        [rewrite Hs; unfold updated_list_field; now rewrite Hnone|].
      destruct (String.eqb_spec k "antonyms") as [->|N3];
        [rewrite Ha; unfold updated_list_field; now rewrite Hnone|].
      rewrite (Hk k Hne N1 N2 N3). now rewrite Hnone.
    + intros k v N0 N1 N2 N3 Hv. rewrite (Hk k N0 N1 N2 N3). now rewrite Hv.
    + intros k s Hin Hv. rewrite (Hlist k _ Hin Hv).
      rewrite parseArrayField_string.
      split; [reflexivity | apply trimmed_nonempty_segments_spec].
    + exact Hitems.
    + intros k v Hin Hv Hnos Hnol. rewrite (Hlist k _ Hin Hv).
      destruct v as [| x | x | x | x]; try reflexivity.
      * now destruct (Hnos x).
      * now destruct (Hnol x).
    + intros Hv. rewrite (Hlist "synonyms" _ (or_intror (or_introl eq_refl)) Hv).
      reflexivity.
    + intros Hv.
      rewrite (Hitems "synonyms" _ (or_intror (or_introl eq_refl)) Hv).
      reflexivity.
    + exact Hat.
  - intros Hnone.
    exact (OperationFacts.updateWord_not_found _ _ _ _ _ Hf Hnone).
Qed.

(** C3 on the cached word dog.  Patched with a new translation and the
    synonyms ["x,y"], the translation and the synonyms are replaced and
    the word number is kept; patched with the list of synonyms
    [[" a "; "b,c"; "  "]], the synonyms are the entries [" a "] and
    ["b,c"] as they are. *)
Lemma updateWord_merges_witness :
  (exists updated,
      fst (updateWord (VStr "id-dog") Scenario.edit_patch Scenario.local_only)
      = Ok updated
      /\ updated !! "english" = Some (VStr "hound")
      /\ updated !! "synonyms" = Some (VArr ["x"; "y"])
      /\ updated !! "wordNumber" = Some (VNum 1))
  /\ (exists updated,
        fst (updateWord (VStr "id-dog") Scenario.list_patch
               Scenario.local_only)
        = Ok updated
        /\ updated !! "synonyms" = Some (VArr [" a "; "b,c"])
        /\ updated !! "english" = Some (VStr "dog")).
Proof.
  split.
  - destruct (proj1 (updateWord_merges Scenario.local_only (VStr "id-dog")
                       Scenario.edit_patch _ _ local_only_fetch)
                1%nat Scenario.dog eq_refl eq_refl)
      as (updated & Hrun & _ & _ & Hkeep & Hset & _ & _ & _ & Hsyn & _).
    { repeat constructor. }
    exists updated. split; [exact Hrun|]. split; [|split].
    + apply Hset; try discriminate. reflexivity.
    + apply Hsyn. reflexivity.
    + rewrite Hkeep; [reflexivity | discriminate | reflexivity].
  - destruct (proj1 (updateWord_merges Scenario.local_only (VStr "id-dog")
                       Scenario.list_patch _ _ local_only_fetch)
                1%nat Scenario.dog eq_refl eq_refl)
      as (updated & Hrun & _ & _ & Hkeep & _ & _ & _ & _ & _ & Hlist & _).
    { repeat constructor. }
    exists updated. split; [exact Hrun|]. split.
    + apply Hlist. reflexivity.
    + rewrite Hkeep; [reflexivity | discriminate | reflexivity].
Defined.

(** ** C4: what an update may replace *)

(** C4, as stated, fails: a patch that names an [id], a [date] and a
    [createdAt] replaces all three in the stored word. *)
Lemma patch_replaces_id_date_createdAt :
  exists updated,
    fst (updateWord (VStr "id-dog") Scenario.rewriting_patch
           Scenario.local_only) = Ok updated
    /\ updated !! "id" = Some (VStr "id-new")
    /\ updated !! "date" = Some (VStr "1999-01-01")
    /\ updated !! "createdAt" = Some (VStr "1999-01-01T00:00:00.000Z")
    /\ updated !! "id" <> Scenario.dog !! "id"
    /\ updated !! "date" <> Scenario.dog !! "date"
    /\ updated !! "createdAt" <> Scenario.dog !! "createdAt".
Proof.
  eexists. split; [reflexivity|].
  repeat match goal with |- _ /\ _ => split end;
    try reflexivity; intros H; discriminate H.
Qed.

(** C4, as amended.  [updateWord] copies every field of the patch: the
    [id], [date] and [createdAt] of the target word are left unchanged by
    every patch that has none of these fields (as the patch of the edit
    form), and a patch that has one of them replaces it. *)
Theorem updateWord_keeps_unpatched_identity (w : World) (wordId : value)
  (updates : jsobject) (ws : list jsobject) (w1 : World) (i : nat)
  (old : jsobject) :
  fetchAllWords w = (Ok ws, w1) ->
  ws !! i = Some old -> has_id wordId old = true ->
  Forall (fun y => has_id wordId y = false) (take i ws) ->
  exists updated,
    fst (updateWord wordId updates w) = Ok updated
    /\ (forall k, k = "id" \/ k = "date" \/ k = "createdAt" ->
                  updated !! k
                  = match updates !! k with
                    | Some v => Some v
                    | None => old !! k
                    end)
    /\ (updates !! "id" = None -> updates !! "date" = None ->
        updates !! "createdAt" = None ->
          updated !! "id" = old !! "id"
          /\ updated !! "date" = old !! "date"
          /\ updated !! "createdAt" = old !! "createdAt").
Proof.
  intros Hf Hi Hid Hpre.
  destruct (OperationFacts.updateWord_spec wordId updates w ws w1 i old
              Hf Hi Hid Hpre)
    as (updated & b & w2 & Hrun & _ & _ & _ & _ & _ & _ & Hk).
  assert (Hkey : forall k, k = "id" \/ k = "date" \/ k = "createdAt" ->
                   updated !! k
                   = match updates !! k with
                     | Some v => Some v
                     | None => old !! k
                     end)
    by (intros k [-> | [-> | ->]]; apply Hk; discriminate).
  exists updated. rewrite Hrun. split; [reflexivity|]. split; [exact Hkey|].
  intros H1 H2 H3.
  rewrite (Hkey "id"), (Hkey "date"), (Hkey "createdAt"), H1, H2, H3; auto.
Qed.

(** C4 on the cached word dog and the patch of the edit form: the id, the
    date and the creation time stay. *)
Lemma updateWord_keeps_unpatched_identity_witness :
  exists updated,
    fst (updateWord (VStr "id-dog") Scenario.edit_patch Scenario.local_only)
    = Ok updated
    /\ updated !! "id" = Some (VStr "id-dog")
    /\ updated !! "date" = Some (VStr "2025-11-01")
    /\ updated !! "createdAt" = Some (VStr "2025-10-30T08:00:00.000Z").
Proof.
  destruct (updateWord_keeps_unpatched_identity Scenario.local_only
              (VStr "id-dog") Scenario.edit_patch _ _ 1%nat Scenario.dog
              local_only_fetch eq_refl eq_refl)
    as (updated & Hrun & _ & Hkeep).
  { repeat constructor. }
  destruct (Hkeep eq_refl eq_refl eq_refl) as (H1 & H2 & H3).
  exists updated. rewrite H1, H2, H3. split; [exact Hrun|].
  repeat split.
Defined.

(** ** C10: adding a word without a date *)

(** C10.  For an input without [date], the word that [addWord] creates is
    dated today, but its [wordNumber] is one more than the number of fetched
    words that have no [date] either, not of the words of today; and there
    is a collection with a word of today, numbered contiguously, on which
    the collection saved by such an [addWord] breaks the numbering invariant
    for today. *)
Theorem addWord_without_date (w : World) (wordData : jsobject)
  (ws : list jsobject) (w1 : World) :
  fetchAllWords w = (Ok ws, w1) ->
  wordData !! "date" = None ->
  (exists newWord w2,
      addWord wordData w = (Ok newWord, w2)
      /\ newWord !! "date" = Some (VStr (getDateString (clock w1)))
      /\ newWord !! "wordNumber"
         = Some (VNum (1 + Z.of_nat (length (List.filter (has_date None) ws))))
      /\ snapshot (storage w2) = (ws ++ [newWord])%list)
  /\ (exists (w' : World) (input : jsobject),
        input !! "date" = None
        /\ let today := Some (VStr (getDateString (clock w'))) in
           existsb (has_date today) (snapshot (storage w')) = true
           /\ contiguous_numbering today (snapshot (storage w'))
           /\ ~ contiguous_numbering today
                  (snapshot (storage (snd (addWord input w'))))).
Proof.
  intros Hf Hd. split.
  - destruct (OperationFacts.addWord_spec wordData w ws w1 Hf)
      as (id & w1' & newWord & b & w2 & _ & _ & Hadd & Hst & _ & Hdate
          & Hnum & _).
    exists newWord, w2. split; [exact Hadd|]. split; [|split].
    + rewrite Hdate, Hd. reflexivity.
    + rewrite Hnum, Hd. unfold getNextWordNumber.
      change (fun w0 : jsobject => strict_eq (w0 !! "date") None)
        with (has_date None).
      f_equal. f_equal. lia.
    + now rewrite Hst.
  - exists Scenario.local_only, Scenario.undated_input.
    split; [reflexivity|]. cbv zeta. split; [reflexivity|].
    unfold contiguous_numbering. split.
    + set (l := date_numbers _ _).
      assert (E : l = [Some (VNum 1); Some (VNum 2); Some (VNum 3)])
        by reflexivity.
      rewrite E. apply Permutation_refl.
    + set (l := date_numbers _ _).
      assert (E : l = [Some (VNum 1); Some (VNum 2); Some (VNum 3);
                       Some (VNum 1)]) by reflexivity.
      rewrite E. intros P. apply Permutation_sym in P.
      apply (Permutation_in (Some (VNum 4))) in P;
        [|right; right; right; left; reflexivity].
      destruct P as [H|[H|[H|[H|[]]]]]; discriminate H.
Qed.

(** C10 on a device whose cache has three words of 2025-11-02, today: the
    word added without a date is dated 2025-11-02 and numbered 1. *)
Lemma addWord_without_date_witness :
  exists newWord w2,
    addWord Scenario.undated_input Scenario.local_only = (Ok newWord, w2)
    /\ newWord !! "date" = Some (VStr "2025-11-02")
    /\ newWord !! "wordNumber" = Some (VNum 1).
Proof.
  destruct (proj1 (addWord_without_date Scenario.local_only
                     Scenario.undated_input _ _ local_only_fetch eq_refl))
    as (newWord & w2 & Hadd & Hdate & Hnum & _).
  exists newWord, w2. split; [exact Hadd|]. split; [exact Hdate|exact Hnum].
Defined.

(** * Further properties of the code *)

(** ** The operations of [ApiManager] that the claims leave out *)

Module ConnectionFacts.
Import StorageManager ApiManager Run.

Lemma testConnection_run w :
  testConnection w
  = if truthy (Some (VStr (default EmptyString (vocab_bin_id (storage w)))))
    then
      match request (latest_url (storage w)) no_options 2 w with
      | (Ok _, w1) => (Ok true, w1)
      | (Throw _, w1) => (Ok false, w1)
      end
    else (Ok false, w).
Proof.
  cbv [testConnection try_catch bind getApiCredentials getStorage ret binId
       throw].
  destruct (truthy _); cbn [negb]; [|reflexivity].
  fold (latest_url (storage w)).
  now destruct (request _ _ _ w) as [[j|e] w1].
Qed.

Lemma createBin_run binName w :
  createBin binName w
  = match request create_url (create_options binName (clock w)) 2 w with
    | (Ok j, w1) =>
        match metadata j with
        | Some id => (Ok id, w1)
        | None =>
            (Throw (Error "TypeError" "Cannot read properties of undefined"),
             w1)
        end
    | (Throw e, w1) => (Throw e, w1)
    end.
Proof.
  cbv [createBin bind Date_now ret throw].
  fold create_url. fold (create_options binName (clock w)).
  destruct (request _ _ _ w) as [[j|e] w1]; [|reflexivity].
  now destruct (metadata j).
Qed.

Lemma fetchWordsByDate_run date w :
  fetchWordsByDate date w
  = (match fst (fetchAllWords w) with
     | Ok ws => Ok (List.filter (has_date date) ws)
     | Throw e => Throw e
     end, snd (fetchAllWords w)).
Proof.
  cbv [fetchWordsByDate bind ret].
  now destruct (fetchAllWords w) as [[ws|e] w1].
Qed.

Lemma attempt_result_not_ok r :
  ok r = false ->
  attempt_result (Responded r) = Throw (Error "Error" (http_error_message r)).
Proof.
  intros H. unfold attempt_result, http_error_message. now rewrite H.
Qed.

Lemma attempts_trace_events request k :
  Forall (fun e => e = EvSleep 1000 \/ e = request) (attempts_trace request k).
Proof.
  destruct k as [|k]; cbn [attempts_trace]; constructor; [now right|].
  induction k as [|k IH]; cbn [List.repeat List.concat app]; auto.
Qed.

Lemma length_attempts_trace request k :
  k <> 0%nat -> length (attempts_trace request k) = (2 * k - 1)%nat.
Proof.
  destruct k as [|k]; [congruence|]. intros _. cbn [attempts_trace length].
  induction k as [|k IH]; [reflexivity|].
  cbn [List.repeat List.concat app length]. rewrite IH. lia.
Qed.

End ConnectionFacts.

(** ** The numbering of the words of a date *)

Module NumberingFacts.
Import StorageManager ApiManager WordListFacts.

Lemma strict_eq_eq a b : strict_eq a b = true -> a = b.
Proof.
  destruct a as [[| x | x | x | x]|], b as [[| y | y | y | y]|];
    cbn [strict_eq]; try discriminate; try reflexivity; intros H.
  - apply Bool.eqb_prop in H. now subst.
  - apply Z.eqb_eq in H. now subst.
  - apply String.eqb_eq in H. now subst.
Qed.

Lemma date_numbers_app date l1 l2 :
  date_numbers date (l1 ++ l2)
  = (date_numbers date l1 ++ date_numbers date l2)%list.
Proof.
  unfold date_numbers. now rewrite List.filter_app, List.map_app.
Qed.

Lemma length_date_numbers date ws :
  length (date_numbers date ws) = length (List.filter (has_date date) ws).
Proof. unfold date_numbers. apply List.length_map. Qed.

Lemma one_to_S k :
  one_to (S k) = (one_to k ++ [Some (VNum (Z.of_nat k + 1))])%list.
Proof.
  unfold one_to. rewrite List.seq_S, List.map_app. cbn [List.map].
  do 4 f_equal. lia.
Qed.

(** Appending a word that carries the next number of its date keeps the
    numbering of every date. *)
Lemma contiguous_numbering_append date ws (x : jsobject) :
  (has_date date x = true ->
   x !! "wordNumber"
   = Some (VNum (Z.of_nat (length (List.filter (has_date date) ws)) + 1))) ->
  contiguous_numbering date ws ->
  contiguous_numbering date (ws ++ [x]).
Proof.
  unfold contiguous_numbering. intros Hx H.
  rewrite date_numbers_app.
  unfold date_numbers at 2 4. cbn [List.filter].
  destruct (has_date date x) eqn:E; cbn [List.map].
  - rewrite List.length_app. cbn [length]. rewrite Nat.add_1_r, one_to_S.
    apply Permutation_app; [exact H|].
    rewrite (Hx eq_refl), length_date_numbers. reflexivity.
  - now rewrite app_nil_r.
Qed.

(** Renumbering the words of one date leaves the numbers of another date
    as they are. *)
Lemma date_numbers_renumber_other n date other ws :
  strict_eq other date = false ->
  date_numbers date (renumber n other ws) = date_numbers date ws.
Proof.
  intros Hne. unfold date_numbers. revert n.
  induction ws as [|x ws IH]; intros n; cbn [renumber]; [reflexivity|].
  fold (has_date other x). destruct (has_date other x) eqn:E;
    cbn [List.filter]; rewrite ?has_date_renumbered.
  - destruct (has_date date x) eqn:E'.
    + unfold has_date in E, E'.
      apply strict_eq_eq in E. rewrite <- E in Hne. congruence.
    + apply IH.
  - destruct (has_date date x); cbn [List.map]; now rewrite IH.
Qed.

Lemma date_numbers_remove date l1 (x : jsobject) l2 :
  has_date date x = false ->
  date_numbers date (l1 ++ x :: l2) = date_numbers date (l1 ++ l2).
Proof.
  intros H. rewrite !date_numbers_app. f_equal.
  unfold date_numbers. cbn [List.filter]. now rewrite H.
Qed.

(** Replacing a word by one of the same date and number leaves the numbers
    of every date as they are. *)
Lemma date_numbers_insert date ws i (old x : jsobject) :
  ws !! i = Some old ->
  x !! "date" = old !! "date" ->
  x !! "wordNumber" = old !! "wordNumber" ->
  date_numbers date (<[i := x]> ws) = date_numbers date ws.
Proof.
  intros Hi Hd Hn. revert i Hi.
  induction ws as [|y ws IH]; intros i Hi; [discriminate|].
  destruct i as [|i].
  - injection Hi as ->. unfold date_numbers. cbn [insert list_insert List.filter].
    unfold has_date. rewrite Hd.
    destruct (strict_eq (old !! "date") date); cbn [List.map];
      now rewrite ?Hn.
  - change (<[S i := x]> (y :: ws)) with (y :: <[i := x]> ws).
    change (y :: <[i := x]> ws) with ([y] ++ <[i := x]> ws)%list.
    change (y :: ws) with ([y] ++ ws)%list.
    rewrite !date_numbers_app. f_equal. now apply IH.
Qed.

(** Renumbering words that are numbered in order changes nothing. *)
Lemma renumber_id date ws : forall n,
  date_numbers date ws
  = List.map (fun i => Some (VNum (n + Z.of_nat i)))
      (List.seq 0 (length (List.filter (has_date date) ws))) ->
  renumber n date ws = ws.
Proof.
  induction ws as [|x ws IH]; intros n H; cbn [renumber]; [reflexivity|].
  fold (has_date date x). unfold date_numbers in H. cbn [List.filter] in H.
  destruct (has_date date x) eqn:E.
  - cbn [List.map length List.seq] in H. injection H as Hx H.
    rewrite Z.add_0_r in Hx.
    rewrite insert_id by exact Hx. f_equal. apply IH.
    unfold date_numbers. rewrite H, <- List.seq_shift, List.map_map.
    apply List.map_ext. intros i. do 2 f_equal. lia.
  - f_equal. now apply IH.
Qed.

Lemma renumber_1_id date ws :
  date_numbers date ws = one_to (length (date_numbers date ws)) ->
  renumber 1 date ws = ws.
Proof.
  intros H. apply renumber_id. rewrite H at 1.
  rewrite length_date_numbers. unfold one_to.
  rewrite <- List.seq_shift, List.map_map.
  apply List.map_ext. intros i. do 2 f_equal. lia.
Qed.

End NumberingFacts.

(** ** Identifiers and date strings *)

Module IdentifierFacts.
Import StorageManager.

Lemma hex_digit_hex v :
  0 <= v < 16 -> JsString.mem (hex_digit v) "0123456789abcdef" = true.
Proof.
  intros H. rewrite <- (Z2Nat.id v) by lia.
  assert (Hn : (Z.to_nat v < 16)%nat) by lia.
  revert Hn. generalize (Z.to_nat v). intros n Hn.
  do 16 (destruct n as [|n]; [reflexivity|]). lia.
Qed.

Lemma hex_digit_variant r :
  JsString.mem (hex_digit (Z.lor (Z.land r 3) 8)) "89ab" = true.
Proof.
  assert (H : Z.land r 3 = r mod 4) by (apply (Z.land_ones r 2); lia).
  rewrite H.
  assert (Hm : 0 <= r mod 4 < 4) by (apply Z.mod_pos_bound; lia).
  rewrite <- (Z2Nat.id (r mod 4)) by lia.
  assert (Hn : (Z.to_nat (r mod 4) < 4)%nat) by lia.
  revert Hn. generalize (Z.to_nat (r mod 4)). intros n Hn.
  do 4 (destruct n as [|n]; [reflexivity|]). lia.
Qed.

Lemma replace_xy_shape template : forall w,
  exists id w',
    replace_xy template w = (Ok id, w')
    /\ Forall2 id_char (list_ascii_of_string template)
         (list_ascii_of_string id)
    /\ draws w'
       = (draws w
          + length (List.filter
                      (fun c => Ascii.eqb c "x" || Ascii.eqb c "y")
                      (list_ascii_of_string template)))%nat.
Proof.
  induction template as [|c rest IH]; intros w;
    cbn [replace_xy list_ascii_of_string List.filter].
  - exists EmptyString, w. cbv [ret]. split; [reflexivity|].
    split; [constructor | cbn; lia].
  - destruct (Ascii.eqb c "x" || Ascii.eqb c "y") eqn:E.
    + cbv [bind Math_random_16 ret].
      match goal with
      | |- context [replace_xy rest ?w0] =>
          destruct (IH w0) as (id & w' & -> & Hshape & Hd)
      end.
      eexists _, _. split; [reflexivity|].
      cbn [list_ascii_of_string length draws] in *. split; [|lia].
      constructor; [|exact Hshape].
      unfold id_char. destruct (Ascii.eqb c "x") eqn:Ex.
      * apply hex_digit_hex. apply Z.mod_pos_bound. lia.
      * cbn [orb] in E. rewrite E. apply hex_digit_variant.
    + cbv [bind ret].
      destruct (IH w) as (id & w' & -> & Hshape & Hd).
      eexists _, _. split; [reflexivity|].
      cbn [list_ascii_of_string]. split; [|exact Hd].
      constructor; [|exact Hshape].
      unfold id_char. apply orb_false_elim in E as [-> ->]. reflexivity.
Qed.

Lemma generateId_run_shape w :
  exists id w',
    generateId w = (Ok id, w')
    /\ Forall2 id_char
         (list_ascii_of_string "xxxxxxxx-xxxx-4xxx-yxxx-xxxxxxxxxxxx")
         (list_ascii_of_string id)
    /\ draws w' = (draws w + 31)%nat.
Proof.
  destruct (replace_xy_shape "xxxxxxxx-xxxx-4xxx-yxxx-xxxxxxxxxxxx" w)
    as (id & w' & Hg & Hshape & Hd).
  exists id, w'. split; [exact Hg|]. split; [exact Hshape | exact Hd].
Qed.

Lemma get_lookup (s : string) (i : nat) :
  String.get i s = list_ascii_of_string s !! i.
Proof.
  revert i. induction s as [|c s IH]; intros [|i];
    cbn [String.get list_ascii_of_string]; try reflexivity.
  apply IH.
Qed.

Lemma length_list_ascii (s : string) :
  length (list_ascii_of_string s) = String.length s.
Proof. induction s as [|c s IH]; cbn; [reflexivity | now rewrite IH]. Qed.

(** The character at a position of a string shaped by a template. *)
Lemma shaped_get (template id : string) (i : nat) (t : ascii) :
  Forall2 id_char (list_ascii_of_string template) (list_ascii_of_string id) ->
  String.get i template = Some t ->
  exists c, String.get i id = Some c /\ id_char t c.
Proof.
  intros H Ht. rewrite get_lookup in Ht.
  destruct (Forall2_lookup_l _ _ _ _ _ H Ht) as (c & Hc & Hr).
  exists c. now rewrite get_lookup.
Qed.

End IdentifierFacts.

Module DateLengthFacts.
Import JsDate JsDateFacts DateStringFacts.

Lemma Day_four_digit_year t :
  four_digit_year t -> -719528 <= Day t <= 2932896.
Proof.
  unfold four_digit_year, Day, msPerDay. intros H.
  Z.div_mod_to_equations. lia.
Qed.

Lemma civil_from_days_year day y m d :
  civil_from_days day = (y, m, d) ->
  -719528 <= day <= 2932896 -> 0 <= y <= 9999.
Proof.
  unfold civil_from_days, doy_of_doe, yoe_of_doe, mp_of_doy, month_of_mp.
  intros H Hday. injection H as <- _ _.
  set (z := day + 719468) in *.
  assert (Hz : -60 <= z <= 3652364) by (subst z; lia).
  clearbody z. clear Hday.
  destruct (_ <=? 2) eqn:Em.
  - destruct (_ <? 10) eqn:Emp in Em;
      [apply Z.leb_le in Em; apply Z.ltb_lt in Emp
      | apply Z.leb_le in Em; apply Z.ltb_ge in Emp];
      Z.div_mod_to_equations; lia.
  - apply Z.leb_gt in Em.
    destruct (_ <? 10) eqn:Emp in Em;
      [apply Z.ltb_lt in Emp | apply Z.ltb_ge in Emp];
      Z.div_mod_to_equations; lia.
Qed.

Lemma length_date_string day :
  -719528 <= day <= 2932896 -> String.length (date_string day) = 10%nat.
Proof.
  intros Hday. unfold date_string.
  destruct (civil_from_days day) as [[y m] d] eqn:E.
  pose proof (civil_from_days_year _ _ _ _ E Hday) as Hy.
  rewrite !length_append, length_year_string, !length_digits.
  destruct (0 <=? y) eqn:E0; [|apply Z.leb_gt in E0; lia].
  destruct (y <=? 9999) eqn:E1; [|apply Z.leb_gt in E1; lia].
  reflexivity.
Qed.

End DateLengthFacts.

(** ** The password hash *)

Module Base64Facts.
Import Base64.

Lemma code_bound c : 0 <= code c < 256.
Proof. unfold code. pose proof (nat_ascii_bounded c). lia. Qed.

Lemma code_inj a b : code a = code b -> a = b.
Proof.
  unfold code. intros H. apply Nat2Z.inj in H.
  rewrite <- (ascii_nat_embedding a), <- (ascii_nat_embedding b).
  now rewrite H.
Qed.

(** The code unit of the character of a six-bit number. *)
Lemma sextet_char_code n :
  0 <= n < 64 ->
  Z.of_nat (nat_of_ascii (sextet_char n))
  = if n <? 26 then 65 + n
    else if n <? 52 then 71 + n
    else if n <? 62 then n - 4
    else if n =? 62 then 43 else 47.
Proof.
  intros H. unfold sextet_char.
  destruct (n <? 26) eqn:E1; [apply Z.ltb_lt in E1|apply Z.ltb_ge in E1].
  { rewrite nat_ascii_embedding by lia. lia. }
  destruct (n <? 52) eqn:E2; [apply Z.ltb_lt in E2|apply Z.ltb_ge in E2].
  { rewrite nat_ascii_embedding by lia. lia. }
  destruct (n <? 62) eqn:E3; [apply Z.ltb_lt in E3|apply Z.ltb_ge in E3].
  { rewrite nat_ascii_embedding by lia. lia. }
  destruct (n =? 62); reflexivity.
Qed.

Lemma sextet_char_inj a b :
  0 <= a < 64 -> 0 <= b < 64 -> sextet_char a = sextet_char b -> a = b.
Proof.
  intros Ha Hb H.
  assert (E : Z.of_nat (nat_of_ascii (sextet_char a))
              = Z.of_nat (nat_of_ascii (sextet_char b))) by now rewrite H.
  rewrite !sextet_char_code in E by assumption.
  destruct (a <? 26) eqn:A1, (b <? 26) eqn:B1,
           (a <? 52) eqn:A2, (b <? 52) eqn:B2,
           (a <? 62) eqn:A3, (b <? 62) eqn:B3,
           (a =? 62) eqn:A4, (b =? 62) eqn:B4; lia.
Qed.

(** No character of the alphabet is the padding character. *)
Lemma sextet_char_not_pad n : 0 <= n < 64 -> sextet_char n <> "="%char.
Proof.
  intros Hn H.
  assert (E : Z.of_nat (nat_of_ascii (sextet_char n))
              = Z.of_nat (nat_of_ascii "="%char)) by now rewrite H.
  rewrite sextet_char_code in E by assumption.
  change (Z.of_nat (nat_of_ascii "=")) with 61 in E.
  destruct (n <? 26) eqn:A1, (n <? 52) eqn:A2, (n <? 62) eqn:A3,
           (n =? 62) eqn:A4; lia.
Qed.

Lemma btoa_empty s : btoa s = EmptyString <-> s = EmptyString.
Proof.
  split; [|now intros ->].
  destruct s as [|a [|b [|c rest]]]; cbn [btoa]; [reflexivity | ..];
    intros H; discriminate H.
Qed.

Ltac sextet_bounds :=
  repeat match goal with
         | c : ascii |- _ =>
             lazymatch goal with
             | _ : 0 <= code c < 256 |- _ => fail
             | _ => pose proof (code_bound c)
             end
         end.

Ltac sextet_range :=
  sextet_bounds; Z.div_mod_to_equations; lia.

(** Two strings with the same hash are the same string. *)
Lemma btoa_inj_upto n : forall s t,
  (String.length s <= n)%nat -> btoa s = btoa t -> s = t.
Proof.
  induction n as [n IH] using lt_wf_ind. intros s t Hlen H.
  destruct s as [|a [|b [|c rest]]], t as [|a' [|b' [|c' rest']]];
    cbn [btoa] in H; try discriminate H; try reflexivity.
  - (* one and one *)
    injection H as H1 H2.
    apply sextet_char_inj in H1; [|sextet_range ..].
    apply sextet_char_inj in H2; [|sextet_range ..].
    f_equal. apply code_inj. sextet_range.
  - (* one and two *)
    injection H as _ _ H3. symmetry in H3.
    apply sextet_char_not_pad in H3; [contradiction | sextet_range].
  - (* one and more *)
    injection H as _ _ H3. symmetry in H3.
    apply sextet_char_not_pad in H3; [contradiction | sextet_range].
  - (* two and one *)
    injection H as _ _ H3.
    apply sextet_char_not_pad in H3; [contradiction | sextet_range].
  - (* two and two *)
    injection H as H1 H2 H3.
    apply sextet_char_inj in H1; [|sextet_range ..].
    apply sextet_char_inj in H2; [|sextet_range ..].
    apply sextet_char_inj in H3; [|sextet_range ..].
    assert (code a = code a') by sextet_range.
    assert (code b = code b') by sextet_range.
    f_equal; [|f_equal]; now apply code_inj.
  - (* two and more *)
    injection H as _ _ _ H4. symmetry in H4.
    apply sextet_char_not_pad in H4; [contradiction | sextet_range].
  - (* more and one *)
    injection H as _ _ H3.
    apply sextet_char_not_pad in H3; [contradiction | sextet_range].
  - (* more and two *)
    injection H as _ _ _ H4.
    apply sextet_char_not_pad in H4; [contradiction | sextet_range].
  - (* more and more *)
    injection H as H1 H2 H3 H4 Hrest.
    apply sextet_char_inj in H1; [|sextet_range ..].
    apply sextet_char_inj in H2; [|sextet_range ..].
    apply sextet_char_inj in H3; [|sextet_range ..].
    apply sextet_char_inj in H4; [|sextet_range ..].
    assert (code a = code a') by sextet_range.
    assert (code b = code b') by sextet_range.
    assert (code c = code c') by sextet_range.
    cbn [String.length] in Hlen.
    assert (rest = rest')
      by (apply (IH (String.length rest)); [lia | lia | exact Hrest]).
    subst rest'. f_equal; [|f_equal; [|f_equal]]; now apply code_inj.
Qed.

Lemma btoa_inj s t : btoa s = btoa t -> s = t.
Proof. apply (btoa_inj_upto (String.length s)). lia. Qed.

End Base64Facts.

(** ** Sets of learned words *)

Module JsSetFacts.
Import JsSet.

Lemma has_In x set : has x set = true <-> In x set.
Proof.
  unfold has. rewrite existsb_exists. split.
  - intros (y & Hy & E). apply String.eqb_eq in E. now subst.
  - intros H. exists x. split; [exact H | apply String.eqb_refl].
Qed.

Lemma has_add x y set :
  has y (add x set) = String.eqb y x || has y set.
Proof.
  unfold add. destruct (has x set) eqn:E.
  - destruct (String.eqb_spec y x) as [->|_]; [now rewrite E | reflexivity].
  - unfold has. rewrite existsb_app. cbn [existsb].
    rewrite orb_false_r. apply orb_comm.
Qed.

Lemma has_remove x y set :
  has y (remove x set) = negb (String.eqb y x) && has y set.
Proof.
  unfold has, remove. induction set as [|z set IH];
    cbn [List.filter existsb]; [now rewrite andb_false_r|].
  destruct (String.eqb_spec z x) as [->|Hzx]; cbn [negb existsb].
  - rewrite IH. destruct (String.eqb_spec y x); reflexivity.
  - rewrite IH. destruct (String.eqb_spec y z) as [->|_]; cbn [orb].
    + destruct (String.eqb_spec z x); [contradiction | reflexivity].
    + reflexivity.
Qed.

Lemma NoDup_add x set : NoDup set -> NoDup (add x set).
Proof.
  intros H. unfold add. destruct (has x set) eqn:E; [exact H|].
  apply NoDup_app. split; [exact H|]. split.
  - intros y Hy Hin. apply list_elem_of_singleton in Hin. subst y.
    apply list_elem_of_In, has_In in Hy. congruence.
  - apply NoDup_singleton.
Qed.

Lemma NoDup_remove x set : NoDup set -> NoDup (remove x set).
Proof.
  intros H. apply NoDup_ListNoDup. apply List.NoDup_filter.
  now apply NoDup_ListNoDup.
Qed.

Lemma fold_add_NoDup array : forall set,
  NoDup set -> NoDup (fold_left (fun s x => add x s) array set).
Proof.
  induction array as [|x array IH]; intros set H; cbn [fold_left];
    [exact H|].
  apply IH. now apply NoDup_add.
Qed.

Lemma NoDup_of_array array : NoDup (of_array array).
Proof. apply fold_add_NoDup. constructor. Qed.

Lemma fold_add_has y array : forall set,
  has y (fold_left (fun s x => add x s) array set)
  = has y set || existsb (String.eqb y) array.
Proof.
  induction array as [|x array IH]; intros set; cbn [fold_left existsb].
  - now rewrite orb_false_r.
  - rewrite IH, has_add.
    destruct (String.eqb y x), (has y set); reflexivity.
Qed.

(** An array without repetitions is the set of its elements, in order. *)
Lemma fold_add_fresh array : forall set,
  NoDup (set ++ array) ->
  fold_left (fun s x => add x s) array set = (set ++ array)%list.
Proof.
  induction array as [|x array IH]; intros set H; cbn [fold_left].
  - now rewrite app_nil_r.
  - assert (Hx : has x set = false).
    { destruct (has x set) eqn:E; [|reflexivity].
      apply has_In, list_elem_of_In in E.
      apply NoDup_app in H as (_ & H & _).
      exfalso. apply (H x E). left. }
    unfold add at 2. rewrite Hx.
    rewrite IH by now rewrite <- app_assoc.
    now rewrite <- app_assoc.
Qed.

Lemma of_array_NoDup array : NoDup array -> of_array array = array.
Proof. intros H. unfold of_array. now rewrite fold_add_fresh. Qed.

End JsSetFacts.

(** ** The list fields through the edit form *)

Module EditFormFacts.
Import JsString JsStringFacts.

Lemma trimEnd_id s : clean_back s = true -> trimEnd s = s.
Proof.
  induction s as [|c s IH]; cbn [trimEnd clean_back]; [reflexivity|].
  destruct s as [|c' s'].
  - cbn [trimEnd is_empty]. intros H. apply negb_true_iff in H.
    now rewrite H.
  - intros H. rewrite (IH H). cbn [is_empty]. now rewrite andb_false_r.
Qed.

Lemma trimmed_clean s :
  trimmed s <-> clean_front s = true /\ clean_back s = true.
Proof.
  unfold trimmed. split.
  - intros H. rewrite <- H. apply trim_clean.
  - intros [Hf Hb]. unfold trim. rewrite (trimStart_id s Hf).
    now apply trimEnd_id.
Qed.

Lemma clean_front_app a b :
  a <> EmptyString -> clean_front (a +:+ b) = clean_front a.
Proof. destruct a; [congruence | reflexivity]. Qed.

Lemma clean_back_app a b :
  b <> EmptyString -> clean_back (a +:+ b) = clean_back b.
Proof.
  intros Hb. induction a as [|c a IH]; [reflexivity|].
  change (String c a +:+ b) with (String c (a +:+ b)).
  cbn [clean_back]. destruct (a +:+ b) eqn:E; [|exact IH].
  destruct a as [|k a']; [exfalso; exact (Hb E) | discriminate E].
Qed.

Lemma join_clean x rest :
  Forall plain_entry (x :: rest) ->
  clean_front (AdminApp.join ", " (x :: rest)) = true
  /\ clean_back (AdminApp.join ", " (x :: rest)) = true
  /\ AdminApp.join ", " (x :: rest) <> EmptyString.
Proof.
  revert x. induction rest as [|y rest IH]; intros x H;
    inversion H as [|? ? (Ht & Hne & _) Hrest]; subst.
  - cbn [AdminApp.join]. apply trimmed_clean in Ht as [Hf Hb]. auto.
  - destruct (IH y Hrest) as (_ & Hb & Hn).
    change (AdminApp.join ", " (x :: y :: rest))
      with (x +:+ String "," (String " " (AdminApp.join ", " (y :: rest)))).
    apply trimmed_clean in Ht as [Hf _].
    split; [now rewrite clean_front_app|]. split.
    + rewrite clean_back_app by discriminate.
      cbn [clean_back]. destruct (AdminApp.join ", " (y :: rest)) eqn:E;
        [congruence | exact Hb].
    + destruct x; [congruence | discriminate].
Qed.

Lemma split_join_entries pre x rest :
  mem "," pre = false ->
  Forall plain_entry (x :: rest) ->
  split "," (pre +:+ AdminApp.join ", " (x :: rest))
  = (pre +:+ x) :: List.map (String " ") rest.
Proof.
  revert pre x. induction rest as [|y rest IH]; intros pre x Hpre H;
    inversion H as [|? ? (_ & _ & Hc) Hrest]; subst.
  - cbn [AdminApp.join List.map]. apply split_no_sep.
    now rewrite JsDateFacts.mem_append, Hpre, Hc.
  - change (AdminApp.join ", " (x :: y :: rest))
      with (x +:+ String "," (String " " (AdminApp.join ", " (y :: rest)))).
    assert (Happ : forall a b c : string, a +:+ (b +:+ c) = (a +:+ b) +:+ c).
    { intros a b c. induction a as [|k a IHa]; [reflexivity|].
      change (String k (a +:+ (b +:+ c)) = String k ((a +:+ b) +:+ c)).
      now rewrite IHa. }
    rewrite Happ.
    rewrite split_app_sep by now rewrite JsDateFacts.mem_append, Hpre, Hc.
    cbn [List.map]. f_equal.
    change (String " " (AdminApp.join ", " (y :: rest)))
      with (String " " EmptyString +:+ AdminApp.join ", " (y :: rest)).
    now rewrite (IH (String " " EmptyString) y eq_refl Hrest).
Qed.

Lemma trim_spaced x : trim (String " " x) = trim x.
Proof. reflexivity. Qed.

Lemma entries_kept l :
  Forall plain_entry l ->
  List.filter (fun seg => negb (is_empty seg)) (List.map trim l) = l.
Proof.
  induction 1 as [|x l (Ht & Hne & _) _ IH]; [reflexivity|].
  cbn [List.map List.filter]. rewrite Ht.
  destruct x; [congruence|]. cbn [is_empty negb]. now rewrite IH.
Qed.

Lemma segments_of_join l :
  Forall plain_entry l ->
  trimmed_nonempty_segments (AdminApp.join ", " l) = l.
Proof.
  intros H. unfold trimmed_nonempty_segments.
  destruct l as [|x rest]; [reflexivity|].
  change (AdminApp.join ", " (x :: rest))
    with (EmptyString +:+ AdminApp.join ", " (x :: rest)).
  rewrite (split_join_entries EmptyString x rest eq_refl H).
  change (EmptyString +:+ x) with x.
  etransitivity; [|exact (entries_kept (x :: rest) H)].
  cbn [List.map]. do 2 f_equal.
  rewrite List.map_map. apply List.map_ext. intros y. apply trim_spaced.
Qed.

End EditFormFacts.

(** ** The word that [addWord] builds *)

Module AddWordFacts.
Import StorageManager ApiManager ObjectFacts OperationFacts Run.

Lemma addWord_new_word wordData w :
  exists newWord w2,
    addWord wordData w = (Ok newWord, w2)
    /\ newWord !! "ipa"
       = js_or (wordData !! "ipa") (Some (VStr EmptyString))
    /\ newWord !! "context"
       = js_or (wordData !! "context") (Some (VStr EmptyString))
    /\ newWord !! "meaning"
       = js_or (wordData !! "meaning") (Some (VStr EmptyString))
    /\ newWord !! "english" = wordData !! "english"
    /\ newWord !! "isLearned" = Some (VBool false)
    /\ (exists id, newWord !! "id" = Some (VStr id))
    /\ (exists n, newWord !! "wordNumber" = Some (VNum n))
    /\ (exists t, newWord !! "createdAt" = Some (VStr t))
    /\ (exists l, newWord !! "banglaMeanings" = Some (VArr l))
    /\ (exists l, newWord !! "synonyms" = Some (VArr l))
    /\ (exists l, newWord !! "antonyms" = Some (VArr l))
    /\ (forall k,
          k <> "id" -> k <> "date" -> k <> "wordNumber" -> k <> "english" ->
          k <> "ipa" -> k <> "context" -> k <> "meaning" ->
          k <> "banglaMeanings" -> k <> "synonyms" -> k <> "antonyms" ->
          k <> "isLearned" -> k <> "createdAt" ->
          newWord !! k = None).
Proof.
  destruct (fetchAllWords_total w) as (ws & w1 & Hf & _).
  destruct (generateId_total w1) as (id & w1' & Hg & Hs & Hc & _).
  cbv [addWord bind ret Date_now]. rewrite Hf, Hg, Hc.
  match goal with
  | |- context [saveAllWords (ws ++ [?o]) w1'] => set (newWord := o)
  end.
  destruct (saveAllWords_total (ws ++ [newWord]) w1') as (b & w2 & Hsave & _).
  exists newWord, w2. rewrite Hsave. split; [reflexivity|].
  subst newWord. cbv [object_literal fold_left fst snd].
  split_all; try (eexists; lookup_prop); try lookup_prop.
  intros. lookup_prop. apply lookup_empty.
Qed.

End AddWordFacts.

(** * Properties of the remaining code *)

(** ** Reading and saving the collection *)

(** X1.  [fetchAllWords] never throws, whatever the network answers: it
    returns a collection, and that collection is what the Local Cache
    Snapshot holds afterwards; the credentials and the streak are left as
    they were, and every request it sent is a read. *)
Theorem fetchAllWords_never_throws (w : World) :
  exists ws w1,
    fetchAllWords w = (Ok ws, w1)
    /\ snapshot (storage w1) = ws
    /\ vocab_bin_id (storage w1) = vocab_bin_id (storage w)
    /\ vocab_api_key (storage w1) = vocab_api_key (storage w)
    /\ vocab_streak_data (storage w1) = vocab_streak_data (storage w)
    /\ exists evs, trace w1 = (trace w ++ evs)%list
                   /\ forallb read_only evs = true.
Proof.
  destruct (Run.fetchAllWords_total w)
    as (ws & w1 & Hf & Hsnap & Hb & Hk & Hs & _).
  exists ws, w1. repeat (split; [assumption|]).
  destruct (RoutingFacts.fetchAllWords_read_only w) as (evs & Ht & Hro).
  rewrite Hf in Ht. now exists evs.
Qed.

(** X2.  [saveAllWords] never throws and, whether the remote save succeeds
    or not, leaves the collection in the Local Cache Snapshot and nothing
    else of the storage changed.  It reports [true] exactly when there is no
    bin id or the retried PUT request succeeded; without a bin id it sends
    nothing, with one it sends between one and three times the same PUT
    request to the address of the bin. *)
Theorem saveAllWords_always_caches (ws : list jsobject) (w : World) :
  exists b w2 k,
    saveAllWords ws w = (Ok b, w2)
    /\ storage w2 = with_local_words ws (storage w)
    /\ snapshot (storage w2) = ws
    /\ (b = true <->
        credential_absent (vocab_bin_id (storage w))
        \/ exists j,
             fst (request (bin_url (storage w)) (put_options ws (clock w)) 2 w)
             = Ok j)
    /\ (k <= 3)%nat
    /\ (k = 0%nat <-> credential_absent (vocab_bin_id (storage w)))
    /\ trace w2
       = (trace w
          ++ attempts_trace
               (EvFetch (bin_url (storage w))
                  (sent_options (put_options ws (clock w)) (storage w))) k)%list.
Proof.
  rewrite Run.saveAllWords_run.
  destruct (truthy _) eqn:E.
  - apply Run.credential_present_iff in E.
    destruct (Run.request_spec (bin_url (storage w))
                (put_options ws (clock w)) 2 w) as (k & Hk & Hs & _).
    destruct (request _ _ _ w) as [[j|e] w1]; cbn [snd fst] in *; subst w1;
      eexists _, _, k; (split; [reflexivity|]);
      (split; [reflexivity|]); (split; [reflexivity|]);
      (split; [|split; [lia|split; [split; [lia | tauto]|reflexivity]]]).
    + split; eauto.
    + split; [discriminate|]. intros [H|[j H]]; [tauto | discriminate].
  - apply Run.credential_absent_iff in E.
    eexists _, _, 0%nat. split; [reflexivity|].
    repeat split; auto. cbn. now rewrite app_nil_r.
Qed.

(** X3.  Saving and reading back: after [saveAllWords c], a read that is
    served from the cache (there is no bin id, or the three attempts of the
    remote read fail) returns [c]. *)
Theorem save_then_fetch_round_trip (c : list jsobject) (w : World) :
  let w2 := snd (saveAllWords c w) in
  credential_absent (vocab_bin_id (storage w))
  \/ (attempt_fails (network w2 (fetches w2))
      /\ attempt_fails (network w2 (fetches w2 + 1)%nat)
      /\ attempt_fails (network w2 (fetches w2 + 2)%nat)) ->
  fst (fetchAllWords w2) = Ok c.
Proof.
  intros w2 H.
  destruct (Run.saveAllWords_total c w) as (b & w2' & Hs & Hst).
  assert (Hw : storage w2 = with_local_words c (storage w))
    by (subst w2; now rewrite Hs).
  rewrite Run.fetchAllWords_run.
  destruct (truthy _) eqn:E.
  - destruct H as [H|(H0 & H1 & H2)].
    + apply Run.credential_absent_iff in H. rewrite Hw in E.
      cbn [vocab_bin_id with_local_words] in E. congruence.
    + destruct (RoutingFacts.request_all_fail (latest_url (storage w2))
                  no_options w2 H0 H1 H2) as (e & He).
      pose proof (Run.request_storage (latest_url (storage w2)) no_options 2
                    w2) as Hrs.
      destruct (request _ _ _ w2) as [[j|e'] w3]; cbn [fst snd] in *;
        [discriminate|].
      now rewrite Hrs, Hw.
  - cbn [fst]. now rewrite Hw.
Qed.

(** X3 on a device without credentials: the saved word is read back. *)
Lemma save_then_fetch_round_trip_witness :
  fst (fetchAllWords (snd (saveAllWords [Scenario.owl] Scenario.local_only)))
  = Ok [Scenario.owl].
Proof.
  apply (save_then_fetch_round_trip [Scenario.owl] Scenario.local_only).
  left. left. reflexivity.
Defined.

(** X4.  [testConnection] never throws and never writes to the storage.
    Without a bin id it answers [false] and sends nothing; with one it
    answers whether the retried read of the bin succeeded. *)
Theorem testConnection_spec (w : World) :
  exists b w1,
    testConnection w = (Ok b, w1)
    /\ storage w1 = storage w
    /\ (b = true <->
        ~ credential_absent (vocab_bin_id (storage w))
        /\ exists j,
             fst (request (latest_url (storage w)) no_options 2 w) = Ok j)
    /\ (credential_absent (vocab_bin_id (storage w)) -> w1 = w)
    /\ (~ credential_absent (vocab_bin_id (storage w)) ->
        w1 = snd (request (latest_url (storage w)) no_options 2 w)).
Proof.
  rewrite ConnectionFacts.testConnection_run.
  destruct (truthy _) eqn:E.
  - apply Run.credential_present_iff in E.
    pose proof (Run.request_storage (latest_url (storage w)) no_options 2 w)
      as Hs.
    destruct (request _ _ _ w) as [[j|e] w1]; cbn [fst snd] in *;
      eexists _, _; (split; [reflexivity|]); (split; [exact Hs|]);
      (split; [|split; [tauto | reflexivity]]).
    + split; eauto.
    + split; [discriminate|]. intros [_ [j H]]. discriminate.
  - apply Run.credential_absent_iff in E.
    eexists _, _. split; [reflexivity|]. split; [reflexivity|].
    split; [|split; [reflexivity | tauto]].
    split; [discriminate | tauto].
Qed.

(** X5.  The counting operations never throw either, so a caller's handler
    around them is never entered.  On the collection [ws] that the read
    returns, [fetchWordsByDate] gives the words of the date in order,
    [getWordCountForDate] their number, which is at most the total count of
    [getTotalWordCount], and [isDailyLimitReached] tells whether that number
    has reached the limit; all of them leave the world as the read left
    it. *)
Theorem counting_operations_never_throw (w : World) (date : option value)
  (limit : Z) :
  exists ws w1,
    fetchAllWords w = (Ok ws, w1)
    /\ fetchWordsByDate date w = (Ok (List.filter (has_date date) ws), w1)
    /\ getWordCountForDate date w
       = (Ok (Z.of_nat (length (List.filter (has_date date) ws))), w1)
    /\ getTotalWordCount w = (Ok (Z.of_nat (length ws)), w1)
    /\ Z.of_nat (length (List.filter (has_date date) ws))
       <= Z.of_nat (length ws)
    /\ isDailyLimitReached date limit w
       = (Ok (limit <=? Z.of_nat (length (List.filter (has_date date) ws))),
          w1)
    /\ (fst (isDailyLimitReached date limit w) = Ok false <->
        Z.of_nat (length (List.filter (has_date date) ws)) < limit).
Proof.
  destruct (Run.fetchAllWords_total w) as (ws & w1 & Hf & _).
  exists ws, w1.
  assert (Hd : fetchWordsByDate date w
               = (Ok (List.filter (has_date date) ws), w1))
    by now rewrite ConnectionFacts.fetchWordsByDate_run, Hf.
  assert (Hc : getWordCountForDate date w
               = (Ok (Z.of_nat (length (List.filter (has_date date) ws))), w1))
    by (cbv [getWordCountForDate bind ret]; now rewrite Hd).
  assert (Hl : isDailyLimitReached date limit w
               = (Ok (limit <=? Z.of_nat (length (List.filter (has_date date)
                                                     ws))), w1))
    by (cbv [isDailyLimitReached bind ret]; now rewrite Hc).
  split; [exact Hf|]. split; [exact Hd|]. split; [exact Hc|].
  split; [cbv [getTotalWordCount bind ret]; now rewrite Hf|].
  split; [pose proof (List.filter_length_le (has_date date) ws); lia|].
  split; [exact Hl|].
  rewrite Hl. cbn [fst]. split.
  - intros H. injection H as H. now apply Z.leb_gt.
  - intros H. apply Z.leb_gt in H. now rewrite H.
Qed.

(** ** Creating a bin *)

(** X6.  [createBin] sends, between one and three times, one POST request
    to the address of the bins, with the header [X-Bin-Name] set to the
    given name next to the content type and the access key, and as body a
    document without words whose two timestamps are the current instant.
    It returns the [metadata.id] of the answer to the last attempt, throws
    the error of the last attempt when that failed, and throws a
    [TypeError] when the answer has no [metadata]; in no case does it write
    to the storage, so the new bin id is not stored. *)
Theorem createBin_spec (binName : string) (w : World) :
  let options := sent_options (create_options binName (clock w)) (storage w) in
  exists k,
    (1 <= k <= 3)%nat
    /\ snd (createBin binName w) = after_attempts create_url options k w
    /\ trace (snd (createBin binName w))
       = (trace w ++ attempts_trace (EvFetch create_url options) k)%list
    /\ storage (snd (createBin binName w)) = storage w
    /\ create_url = "https://api.jsonbin.io/v3/b"
    /\ method options = Some "POST"
    /\ headers options !! "X-Bin-Name" = Some binName
    /\ headers options !! "Content-Type" = Some "application/json"
    /\ headers options !! "X-Master-Key"
       = Some (default EmptyString (vocab_api_key (storage w)))
    /\ body options
       = Some {| words := Some [];
                 meta := Some {| totalWords := 0;
                                 createdAt :=
                                   Some (JsDate.toISOString (clock w));
                                 lastUpdated :=
                                   JsDate.toISOString (clock w) |} |}
    /\ fst (createBin binName w)
       = match attempt_result (network w (fetches w + (k - 1))%nat) with
         | Ok j =>
             match metadata j with
             | Some id => Ok id
             | None =>
                 Throw (Error "TypeError"
                          "Cannot read properties of undefined")
             end
         | Throw e => Throw e
         end.
Proof.
  intros options.
  destruct (Run.request_spec create_url (create_options binName (clock w)) 2 w)
    as (k & Hk & Hs & Hr & _).
  fold options in Hs.
  assert (Hw : snd (createBin binName w) = after_attempts create_url options k w).
  { rewrite ConnectionFacts.createBin_run.
    destruct (request _ _ _ w) as [[j|e] w1]; cbn [snd] in *;
      [now destruct (metadata j) | assumption]. }
  exists k. split; [exact Hk|]. split; [exact Hw|].
  split; [now rewrite Hw|]. split; [now rewrite Hw|].
  split; [reflexivity|]. split; [reflexivity|].
  split; [reflexivity|]. split; [reflexivity|]. split; [reflexivity|].
  split; [reflexivity|].
  rewrite ConnectionFacts.createBin_run, <- Hr.
  destruct (request _ _ _ w) as [[j|e] w1]; cbn [fst];
    [now destruct (metadata j) | reflexivity].
Qed.

(** ** Requests *)

(** X7.  A response that is not ok counts as a failure of the attempt and is
    retried like a network error: when the three responses are not ok,
    [request] makes its three attempts and throws an [Error] whose message
    is the [message] of the body of the last response when it has one that
    is not empty, and [HTTP error] with the status otherwise. *)
Theorem http_error_retried (url : string) (options : fetch_options)
  (w : World) (r0 r1 r2 : response) :
  network w (fetches w) = Responded r0 -> ok r0 = false ->
  network w (fetches w + 1)%nat = Responded r1 -> ok r1 = false ->
  network w (fetches w + 2)%nat = Responded r2 -> ok r2 = false ->
  request url options 2 w
  = (Throw (Error "Error" (http_error_message r2)),
     after_attempts url (sent_options options (storage w)) 3 w)
  /\ (json r2 = None ->
      http_error_message r2
      = "HTTP error " +:+ string_of_number (status r2))
  /\ (forall j msg,
        json r2 = Some j -> json_message j = Some msg ->
        msg <> EmptyString -> http_error_message r2 = msg).
Proof.
  intros N0 K0 N1 K1 N2 K2. split; [|split].
  - rewrite (RoutingFacts.request_third_attempt url options w
               (Error "Error" (http_error_message r0))
               (Error "Error" (http_error_message r1))).
    + now rewrite N2, ConnectionFacts.attempt_result_not_ok.
    + now rewrite N0, ConnectionFacts.attempt_result_not_ok.
    + cbn [name]. apply String.eqb_neq. reflexivity.
    + now rewrite N1, ConnectionFacts.attempt_result_not_ok.
    + cbn [name]. apply String.eqb_neq. reflexivity.
  - intros H. unfold http_error_message. now rewrite H.
  - intros j msg Hj Hm Hne. unfold http_error_message. rewrite Hj, Hm.
    destruct msg; [congruence | reflexivity].
Qed.

(** X7 on a configured device whose service answers 503 without a body:
    three attempts, then the error [HTTP error 503]. *)
Lemma http_error_retried_witness :
  let w := Scenario.device (Some "KEY") (Some "BIN") NoItem NoItem
             (fun _ => Scenario.unavailable) in
  fst (request "https://api.jsonbin.io/v3/b/BIN/latest" no_options 2 w)
  = Throw (Error "Error" "HTTP error 503").
Proof.
  intros w.
  exact (f_equal fst
           (proj1 (http_error_retried
                     "https://api.jsonbin.io/v3/b/BIN/latest" no_options w
                     {| ok := false; status := 503; json := None |}
                     {| ok := false; status := 503; json := None |}
                     {| ok := false; status := 503; json := None |}
                     eq_refl eq_refl eq_refl eq_refl eq_refl eq_refl))).
Defined.

(** X8.  Every request that [request] sends goes to the given address with
    the method and the body of the caller and with the caller's headers;
    the content type and the access key are added where the caller names
    none, the access key being the stored one, or the empty string when
    none is stored.  Between two requests there is nothing but a wait of
    1000 ms. *)
Theorem request_sends_credentials (url : string) (options : fetch_options)
  (retries : nat) (w : World) :
  exists evs,
    trace (snd (request url options retries w)) = (trace w ++ evs)%list
    /\ (1 <= length evs <= 2 * retries + 1)%nat
    /\ Forall
         (fun e =>
            e = EvSleep 1000
            \/ exists sent,
                 e = EvFetch url sent
                 /\ method sent = method options
                 /\ body sent = body options
                 /\ (forall h v, headers options !! h = Some v ->
                                 headers sent !! h = Some v)
                 /\ (headers options !! "Content-Type" = None ->
                     headers sent !! "Content-Type" = Some "application/json")
                 /\ (headers options !! "X-Master-Key" = None ->
                     headers sent !! "X-Master-Key"
                     = Some (default EmptyString
                               (vocab_api_key (storage w)))))
         evs.
Proof.
  destruct (Run.request_trace url options retries w) as (k & Hk & Ht).
  eexists. split; [exact Ht|]. split.
  - rewrite ConnectionFacts.length_attempts_trace by lia. lia.
  - eapply Forall_impl; [apply ConnectionFacts.attempts_trace_events|].
    intros e [He|He]; [now left|]. right.
    exists (sent_options options (storage w)).
    split; [exact He|]. split; [reflexivity|]. split; [reflexivity|].
    cbn [sent_options headers]. split; [|split].
    + intros h v H. now apply lookup_union_Some_l.
    + intros H. rewrite lookup_union_r by exact H. reflexivity.
    + intros H. rewrite lookup_union_r by exact H. reflexivity.
Qed.

(** ** The numbering invariant under the three edits *)

(** X9.  For an input whose [date] is given (a truthy value), [addWord]
    keeps the numbering invariant of every date: the new word carries that
    date and the next number of that date, and the words of the other dates
    are as they were. *)
Theorem addWord_keeps_numbering (w : World) (wordData : jsobject) (d : value)
  (ws : list jsobject) (w1 : World) :
  fetchAllWords w = (Ok ws, w1) ->
  wordData !! "date" = Some d -> truthy (Some d) = true ->
  let saved := snapshot (storage (snd (addWord wordData w))) in
  (exists newWord, saved = (ws ++ [newWord])%list
                   /\ newWord !! "date" = Some d)
  /\ (forall date, contiguous_numbering date ws ->
                   contiguous_numbering date saved)
  /\ (forall date, strict_eq (Some d) date = false ->
                   date_numbers date saved = date_numbers date ws).
Proof.
  intros Hf Hd Ht saved.
  destruct (OperationFacts.addWord_spec wordData w ws w1 Hf)
    as (id & w1' & newWord & b & w2 & _ & _ & Ha & Hst & _ & Hdate & Hnum & _).
  assert (Hsaved : saved = (ws ++ [newWord])%list)
    by (subst saved; rewrite Ha; cbn [snd]; now rewrite Hst).
  assert (Hnd : newWord !! "date" = Some d)
    by (rewrite Hdate, Hd; unfold js_or; now rewrite Ht).
  split; [now exists newWord|]. rewrite Hsaved. split.
  - intros date H. apply NumberingFacts.contiguous_numbering_append; [|exact H].
    intros Hx. unfold has_date in Hx. rewrite Hnd in Hx.
    apply NumberingFacts.strict_eq_eq in Hx. subst date.
    rewrite Hnum, Hd. unfold getNextWordNumber. reflexivity.
  - intros date Hne. rewrite NumberingFacts.date_numbers_app.
    unfold date_numbers at 2. cbn [List.filter]. unfold has_date.
    rewrite Hnd, Hne. apply app_nil_r.
Qed.

(** X9 on a device whose cache numbers the three words of 2025-11-02 from
    1 to 3: after a fourth word of that date is added they are numbered
    from 1 to 4. *)
Lemma addWord_keeps_numbering_witness :
  contiguous_numbering (Some (VStr "2025-11-02"))
    (snapshot (storage (snd (addWord Scenario.dated_input
                               Scenario.local_only)))).
Proof.
  refine (proj1 (proj2 (addWord_keeps_numbering Scenario.local_only
                          Scenario.dated_input (VStr "2025-11-02")
                          [Scenario.cat; Scenario.dog; Scenario.owl;
                           Scenario.emu]
                          Scenario.local_only _ _ _))
            (Some (VStr "2025-11-02")) _).
  - apply RoutingFacts.fetchAllWords_local. left. reflexivity.
  - reflexivity.
  - reflexivity.
  - unfold contiguous_numbering.
    change (date_numbers (Some (VStr "2025-11-02"))
              [Scenario.cat; Scenario.dog; Scenario.owl; Scenario.emu])
      with (one_to 3).
    reflexivity.
Defined.

(** X10.  When exactly one word of the fetched collection has the given id,
    [deleteWord] keeps the numbering invariant of every date: the words of
    the date of the deleted word are renumbered, and the numbers of every
    other date are untouched. *)
Theorem deleteWord_keeps_numbering (w : World) (wordId : value)
  (l1 l2 : list jsobject) (x : jsobject) (w1 : World) :
  fetchAllWords w = (Ok (l1 ++ x :: l2)%list, w1) ->
  has_id wordId x = true ->
  Forall (fun y => has_id wordId y = false) (l1 ++ l2) ->
  let saved := snapshot (storage (snd (deleteWord wordId w))) in
  saved = renumber 1 (x !! "date") (l1 ++ l2)
  /\ contiguous_numbering (x !! "date") saved
  /\ (forall date, strict_eq (x !! "date") date = false ->
                   date_numbers date saved
                   = date_numbers date (l1 ++ x :: l2))
  /\ (forall date, contiguous_numbering date (l1 ++ x :: l2) ->
                   contiguous_numbering date saved).
Proof.
  intros Hf Hx Hall saved.
  destruct (WordListFacts.find_unique (has_id wordId) l1 l2 x Hall Hx)
    as [Hfind Hrem].
  assert (Hsaved : saved = renumber 1 (x !! "date") (l1 ++ l2)).
  { subst saved.
    rewrite (OperationFacts.deleteWord_found wordId w _ w1 x Hf Hfind).
    cbn [snd]. rewrite Hrem.
    destruct (Run.saveAllWords_total
                (renumber 1 (x !! "date") (l1 ++ l2)) w1)
      as (b & w2 & -> & Hst).
    cbn [snd]. now rewrite Hst. }
  assert (Hother : forall date, strict_eq (x !! "date") date = false ->
                     date_numbers date saved
                     = date_numbers date (l1 ++ x :: l2)).
  { intros date Hne. rewrite Hsaved.
    rewrite NumberingFacts.date_numbers_renumber_other by exact Hne.
    symmetry. now apply NumberingFacts.date_numbers_remove. }
  split; [exact Hsaved|]. split; [|split; [exact Hother|]].
  - rewrite Hsaved. apply WordListFacts.renumber_contiguous.
  - intros date H. destruct (strict_eq (x !! "date") date) eqn:E.
    + apply NumberingFacts.strict_eq_eq in E. subst date.
      rewrite Hsaved. apply WordListFacts.renumber_contiguous.
    + unfold contiguous_numbering. now rewrite (Hother date E).
Qed.

(** X10 on a device with the words cat, dog, owl and emu: after owl is
    deleted the word of 2025-11-01 still carries the number 1. *)
Lemma deleteWord_keeps_numbering_witness :
  contiguous_numbering (Some (VStr "2025-11-01"))
    (snapshot (storage (snd (deleteWord (VStr "id-owl")
                               Scenario.local_only)))).
Proof.
  refine (proj2 (proj2 (proj2
            (deleteWord_keeps_numbering Scenario.local_only (VStr "id-owl")
               [Scenario.cat; Scenario.dog] [Scenario.emu] Scenario.owl
               Scenario.local_only _ _ _)))
            (Some (VStr "2025-11-01")) _).
  - apply RoutingFacts.fetchAllWords_local. left. reflexivity.
  - reflexivity.
  - repeat constructor.
  - unfold contiguous_numbering.
    change (date_numbers (Some (VStr "2025-11-01"))
              ([Scenario.cat; Scenario.dog] ++ Scenario.owl :: [Scenario.emu]))
      with (one_to 1).
    reflexivity.
Defined.

(** X11.  A patch that names neither [date] nor [wordNumber] leaves the
    numbers of every date as they are: [updateWord] then keeps the
    numbering invariant of every date. *)
Theorem updateWord_keeps_numbering (w : World) (wordId : value)
  (updates : jsobject) (ws : list jsobject) (w1 : World) (i : nat)
  (old : jsobject) :
  fetchAllWords w = (Ok ws, w1) ->
  ws !! i = Some old -> has_id wordId old = true ->
  Forall (fun y => has_id wordId y = false) (take i ws) ->
  updates !! "date" = None -> updates !! "wordNumber" = None ->
  let saved := snapshot (storage (snd (updateWord wordId updates w))) in
  length saved = length ws
  /\ (forall date, date_numbers date saved = date_numbers date ws)
  /\ (forall date, contiguous_numbering date ws ->
                   contiguous_numbering date saved).
Proof.
  intros Hf Hi Hid Hpre Hd Hn saved.
  destruct (OperationFacts.updateWord_spec wordId updates w ws w1 i old
              Hf Hi Hid Hpre)
    as (updated & b & w2 & Hu & _ & Hsnap & _ & _ & _ & _ & Hrest).
  assert (Hsaved : saved = <[i := updated]> ws)
    by (subst saved; rewrite Hu; exact Hsnap).
  assert (Hsame : forall date,
             date_numbers date saved = date_numbers date ws).
  { intros date. rewrite Hsaved.
    apply (NumberingFacts.date_numbers_insert date ws i old updated Hi).
    - rewrite Hrest, Hd by (apply String.eqb_neq; reflexivity). reflexivity.
    - rewrite Hrest, Hn by (apply String.eqb_neq; reflexivity). reflexivity. }
  split; [rewrite Hsaved; apply length_insert|]. split; [exact Hsame|].
  intros date H. unfold contiguous_numbering. now rewrite Hsame.
Qed.

(** X11 on the cached word dog, patched with a new translation and new
    synonyms: the words of 2025-11-02 keep the numbers 1, 2 and 3. *)
Lemma updateWord_keeps_numbering_witness :
  date_numbers (Some (VStr "2025-11-02"))
    (snapshot (storage (snd (updateWord (VStr "id-dog") Scenario.edit_patch
                               Scenario.local_only))))
  = one_to 3.
Proof.
  refine (eq_trans
            (proj1 (proj2
               (updateWord_keeps_numbering Scenario.local_only (VStr "id-dog")
                  Scenario.edit_patch
                  [Scenario.cat; Scenario.dog; Scenario.owl; Scenario.emu]
                  Scenario.local_only 1%nat Scenario.dog _ _ _ _ _ _))
               (Some (VStr "2025-11-02"))) _).
  - apply RoutingFacts.fetchAllWords_local. left. reflexivity.
  - reflexivity.
  - reflexivity.
  - repeat constructor.
  - reflexivity.
  - reflexivity.
  - reflexivity.
Defined.

(** ** Compositions of the operations *)

(** X12.  The check of the add form: on a device without bin id, when
    [isDailyLimitReached] answers [false] for a date and a limit, the word
    that [addWord] then adds for that date brings the count of that date to
    one more, which is still within the limit. *)
Theorem limit_check_then_add (w : World) (wordData : jsobject) (d : string)
  (limit : Z) :
  credential_absent (vocab_bin_id (storage w)) ->
  wordData !! "date" = Some (VStr d) -> d <> EmptyString ->
  fst (isDailyLimitReached (Some (VStr d)) limit w) = Ok false ->
  exists n,
    fst (getWordCountForDate (Some (VStr d)) w) = Ok n
    /\ fst (getWordCountForDate (Some (VStr d)) (snd (addWord wordData w)))
       = Ok (n + 1)
    /\ n + 1 <= limit.
Proof.
  intros Hb Hd Hne Hlim.
  pose proof (RoutingFacts.fetchAllWords_local w Hb) as Hf.
  set (ws := snapshot (storage w)) in *.
  set (date := Some (VStr d)) in *.
  assert (Hcount : forall (w' : World) (c : list jsobject),
             fetchAllWords w' = (Ok c, w') ->
             getWordCountForDate date w'
             = (Ok (Z.of_nat (length (List.filter (has_date date) c))), w')).
  { intros w' c H. cbv [getWordCountForDate bind ret].
    now rewrite ConnectionFacts.fetchWordsByDate_run, H. }
  destruct (OperationFacts.addWord_spec wordData w ws w Hf)
    as (id & w1' & newWord & b & w2 & _ & _ & Ha & Hst & _ & Hdate & _).
  assert (Hnd : has_date date newWord = true).
  { unfold has_date. rewrite Hdate, Hd. unfold js_or. cbn [truthy].
    destruct d; [congruence|]. cbn [JsString.is_empty negb strict_eq].
    apply String.eqb_refl. }
  assert (Hf2 : fetchAllWords w2 = (Ok (ws ++ [newWord])%list, w2)).
  { rewrite RoutingFacts.fetchAllWords_local by now rewrite Hst.
    now rewrite Hst. }
  exists (Z.of_nat (length (List.filter (has_date date) ws))).
  split; [now rewrite (Hcount w ws Hf)|]. split.
  - rewrite Ha. cbn [snd]. rewrite (Hcount w2 _ Hf2). cbn [fst].
    rewrite List.filter_app, List.length_app. cbn [List.filter].
    rewrite Hnd. cbn [length]. do 2 f_equal. lia.
  - cbv [isDailyLimitReached bind ret] in Hlim.
    rewrite (Hcount w ws Hf) in Hlim. cbn [fst] in Hlim.
    injection Hlim as Hlim. apply Z.leb_gt in Hlim. lia.
Qed.

(** X12 on a device whose cache has three words of 2025-11-02, with the
    limit of five words of the add form: a fourth word is added. *)
Lemma limit_check_then_add_witness :
  exists n,
    fst (getWordCountForDate (Some (VStr "2025-11-02")) Scenario.local_only)
    = Ok n
    /\ fst (getWordCountForDate (Some (VStr "2025-11-02"))
              (snd (addWord Scenario.dated_input Scenario.local_only)))
       = Ok (n + 1)
    /\ n + 1 <= 5.
Proof.
  apply (limit_check_then_add Scenario.local_only Scenario.dated_input
           "2025-11-02" 5).
  - left. reflexivity.
  - reflexivity.
  - discriminate.
  - reflexivity.
Defined.

(** X13.  Adding a word and deleting it again: on a device without bin id
    whose cached words of the date are numbered in order from 1 and do not
    have the generated id, [deleteWord] of the id of the word that
    [addWord] returned succeeds and leaves the Local Cache Snapshot as it
    was before the two operations. *)
Theorem add_then_delete_round_trip (w : World) (wordData : jsobject)
  (d : string) (id : string) (w' : World) :
  credential_absent (vocab_bin_id (storage w)) ->
  wordData !! "date" = Some (VStr d) -> d <> EmptyString ->
  generateId w = (Ok id, w') ->
  existsb (has_id (VStr id)) (snapshot (storage w)) = false ->
  date_numbers (Some (VStr d)) (snapshot (storage w))
  = one_to (length (date_numbers (Some (VStr d)) (snapshot (storage w)))) ->
  let w2 := snd (addWord wordData w) in
  (exists newWord, fst (addWord wordData w) = Ok newWord
                   /\ newWord !! "id" = Some (VStr id))
  /\ fst (deleteWord (VStr id) w2) = Ok true
  /\ snapshot (storage (snd (deleteWord (VStr id) w2)))
     = snapshot (storage w).
Proof.
  intros Hb Hd Hne Hg Hfresh Hnum w2.
  pose proof (RoutingFacts.fetchAllWords_local w Hb) as Hf.
  set (ws := snapshot (storage w)) in *.
  destruct (OperationFacts.addWord_spec wordData w ws w Hf)
    as (id' & w1' & newWord & b & w3 & Hg' & _ & Ha & Hst & Hid & Hdate & _).
  rewrite Hg in Hg'. injection Hg' as <- <-.
  assert (Hw2 : w2 = w3) by (subst w2; now rewrite Ha).
  rewrite Hw2.
  assert (Hnd : newWord !! "date" = Some (VStr d)).
  { rewrite Hdate, Hd. unfold js_or. cbn [truthy].
    destruct d; [congruence | reflexivity]. }
  assert (Hnid : has_id (VStr id) newWord = true).
  { unfold has_id. rewrite Hid. cbn [strict_eq]. apply String.eqb_refl. }
  assert (Hf3 : fetchAllWords w3 = (Ok (ws ++ [newWord])%list, w3)).
  { rewrite RoutingFacts.fetchAllWords_local by now rewrite Hst.
    now rewrite Hst. }
  assert (Hall : Forall (fun y => has_id (VStr id) y = false) (ws ++ [])).
  { rewrite app_nil_r. apply List.Forall_forall. intros y Hy.
    destruct (has_id (VStr id) y) eqn:E; [|reflexivity].
    assert (existsb (has_id (VStr id)) ws = true)
      by (apply existsb_exists; eauto).
    congruence. }
  destruct (WordListFacts.find_unique (has_id (VStr id)) ws [] newWord
              Hall Hnid) as [Hfind Hrem].
  rewrite app_nil_r in Hrem.
  split; [exists newWord; rewrite Ha; split; [reflexivity | exact Hid]|].
  rewrite (OperationFacts.deleteWord_found (VStr id) w3 _ w3 newWord
             Hf3 Hfind).
  split; [reflexivity|].
  cbn [snd]. rewrite Hrem, Hnd.
  destruct (Run.saveAllWords_total (renumber 1 (Some (VStr d)) ws) w3)
    as (b' & w4 & -> & Hst4).
  cbn [snd]. rewrite Hst4.
  change (snapshot (with_local_words (renumber 1 (Some (VStr d)) ws)
                      (storage w3)))
    with (renumber 1 (Some (VStr d)) ws).
  now apply NumberingFacts.renumber_1_id.
Qed.

(** X13 on a device whose cache holds cat, dog, owl and emu: the word added
    for 2025-11-02 gets the id drawn from the random numbers, and deleting
    that id restores the four words. *)
Lemma add_then_delete_round_trip_witness :
  snapshot
    (storage
       (snd (deleteWord (VStr "01234567-89ab-4cde-b012-3456789abcde")
               (snd (addWord Scenario.dated_input Scenario.local_only)))))
  = [Scenario.cat; Scenario.dog; Scenario.owl; Scenario.emu].
Proof.
  refine (proj2 (proj2
            (add_then_delete_round_trip Scenario.local_only
               Scenario.dated_input "2025-11-02"
               "01234567-89ab-4cde-b012-3456789abcde"
               (snd (generateId Scenario.local_only)) _ _ _ _ _ _))).
  - left. reflexivity.
  - reflexivity.
  - discriminate.
  - transitivity (fst (generateId Scenario.local_only),
                  snd (generateId Scenario.local_only));
      [apply surjective_pairing | f_equal; vm_compute; reflexivity].
  - vm_compute. reflexivity.
  - vm_compute. reflexivity.
Defined.

(** X14.  A successful remote read replaces the cache: with a bin id, when
    the first attempt is answered with a document, [fetchAllWords] returns
    the words of that document and the Local Cache Snapshot holds them
    afterwards, whatever it held before; an answer without [record], or
    whose record has no [words], stands for the empty collection, and so
    empties the cache. *)
Theorem fetchAllWords_refreshes_cache (w : World) (j : response_json) :
  ~ credential_absent (vocab_bin_id (storage w)) ->
  attempt_result (network w (fetches w)) = Ok j ->
  fst (fetchAllWords w) = Ok (record_words j)
  /\ snapshot (storage (snd (fetchAllWords w))) = record_words j
  /\ trace (snd (fetchAllWords w))
     = (trace w
        ++ [EvFetch (latest_url (storage w))
              (sent_options no_options (storage w))])%list
  /\ (record j = None
      \/ (exists doc, record j = Some doc /\ words doc = None) ->
      fst (fetchAllWords w) = Ok []
      /\ snapshot (storage (snd (fetchAllWords w))) = []).
Proof.
  intros Hb Hj. apply Run.credential_present_iff in Hb.
  rewrite Run.fetchAllWords_run, Hb, Run.request_unfold. cbv zeta.
  rewrite Hj. cbn [fst snd].
  split; [reflexivity|]. split; [reflexivity|]. split; [reflexivity|].
  intros H.
  assert (Hempty : record_words j = []).
  { unfold record_words. destruct H as [->|(doc & -> & ->)]; reflexivity. }
  now rewrite Hempty.
Qed.

(** X14 on a configured device whose cache holds the word dog and whose
    service serves the words cat and owl. *)
Lemma fetchAllWords_refreshes_cache_witness :
  snapshot (storage (snd (fetchAllWords Scenario.stale_cache)))
  = [Scenario.cat; Scenario.owl].
Proof.
  refine (proj1 (proj2
            (fetchAllWords_refreshes_cache Scenario.stale_cache
               {| json_message := None;
                  record := Some {| words := Some [Scenario.cat; Scenario.owl];
                                    meta := None |};
                  metadata := None |} _ _))).
  - intros [H|H]; discriminate H.
  - reflexivity.
Defined.

(** ** [StorageManager]: identifiers, dates, streak and credentials *)

(** X15.  Whatever the random source gives, [generateId] returns an
    identifier of the shape of a version 4 UUID: 36 characters, with a
    hyphen at the positions 8, 13, 18 and 23, the digit 4 at position 14,
    one of 8, 9, a and b at position 19 and a lower-case hexadecimal digit
    everywhere else.  It draws 31 random numbers and touches neither the
    storage nor the network. *)
Theorem generateId_shape (w : World) :
  exists id w',
    generateId w = (Ok id, w')
    /\ Forall2 id_char
         (list_ascii_of_string "xxxxxxxx-xxxx-4xxx-yxxx-xxxxxxxxxxxx")
         (list_ascii_of_string id)
    /\ String.length id = 36%nat
    /\ String.get 8 id = Some "-"%char
    /\ String.get 13 id = Some "-"%char
    /\ String.get 18 id = Some "-"%char
    /\ String.get 23 id = Some "-"%char
    /\ String.get 14 id = Some "4"%char
    /\ (exists c, String.get 19 id = Some c
                  /\ JsString.mem c "89ab" = true)
    /\ draws w' = (draws w + 31)%nat
    /\ storage w' = storage w
    /\ fetches w' = fetches w
    /\ trace w' = trace w.
Proof.
  destruct (IdentifierFacts.generateId_run_shape w)
    as (id & w' & Hg & Hshape & Hd).
  destruct (OperationFacts.generateId_total w)
    as (id' & w'' & Hg' & Hs & _ & _ & Hf & Ht).
  rewrite Hg in Hg'. injection Hg' as <- <-.
  exists id, w'. split; [exact Hg|]. split; [exact Hshape|].
  assert (Hfixed : forall i t,
             String.get i "xxxxxxxx-xxxx-4xxx-yxxx-xxxxxxxxxxxx" = Some t ->
             Ascii.eqb t "x" = false -> Ascii.eqb t "y" = false ->
             String.get i id = Some t).
  { intros i t Hi Hx Hy.
    destruct (IdentifierFacts.shaped_get _ _ i t Hshape Hi) as (c & Hc & Hr).
    unfold id_char in Hr. rewrite Hx, Hy in Hr. now subst c. }
  split.
  { rewrite <- IdentifierFacts.length_list_ascii.
    rewrite <- (Forall2_length _ _ _ Hshape). reflexivity. }
  do 5 (split; [now apply Hfixed|]).
  split; [|now repeat split].
  destruct (IdentifierFacts.shaped_get _ _ 19%nat "y"%char Hshape eq_refl)
    as (c & Hc & Hr).
  exists c. split; [exact Hc | exact Hr].
Qed.

(** X16.  For two representable instants, [getDateString] gives the same
    string exactly when they lie in the same UTC day; and for an instant of
    the years 0000 to 9999 the string has the ten characters of
    [YYYY-MM-DD]. *)
Theorem getDateString_same_day (t1 t2 : Z) :
  JsDate.valid_time t1 -> JsDate.valid_time t2 ->
  (getDateString t1 = getDateString t2 <-> JsDate.Day t1 = JsDate.Day t2)
  /\ (four_digit_year t1 -> String.length (getDateString t1) = 10%nat).
Proof.
  intros H1 H2. split; [split|].
  - now apply DateStringFacts.getDateString_inj.
  - intros H. rewrite !DateStringFacts.getDateString_date_string.
    now rewrite H.
  - intros H. rewrite DateStringFacts.getDateString_date_string.
    apply DateLengthFacts.length_date_string.
    now apply DateLengthFacts.Day_four_digit_year.
Qed.

(** X16 on the first and the last millisecond of 2025-11-02 and on the
    first millisecond of the next day. *)
Lemma getDateString_same_day_witness :
  getDateString 1762041600000 = getDateString 1762127999999
  /\ getDateString 1762127999999 <> getDateString 1762128000000
  /\ String.length (getDateString 1762041600000) = 10%nat.
Proof.
  assert (Ha : JsDate.valid_time 1762041600000)
    by (split; apply Z.leb_le; reflexivity).
  assert (Hb : JsDate.valid_time 1762127999999)
    by (split; apply Z.leb_le; reflexivity).
  assert (Hc : JsDate.valid_time 1762128000000)
    by (split; apply Z.leb_le; reflexivity).
  split; [|split].
  - apply (proj1 (getDateString_same_day _ _ Ha Hb)). reflexivity.
  - intros H. apply (proj1 (getDateString_same_day _ _ Hb Hc)) in H.
    discriminate H.
  - apply (proj2 (getDateString_same_day _ _ Ha Hb)).
    split; [apply Z.leb_le | apply Z.ltb_lt]; reflexivity.
Defined.

(** X17.  [updateStreak] is idempotent.  At a representable instant whose
    previous day is representable too, and whatever the stored streak
    state with a count that is a safe integer: after a call the stored
    state holds the returned count with today's date, and a second call at
    the same instant returns the same count and changes nothing.  The
    returned count is the stored one, one more than it, or 1; the clock,
    the credentials and the cached words are not touched.  On the first
    day that [Date] can hold, where there is no yesterday, a call on a
    device that was not last active on that day throws a [RangeError] and
    stores nothing. *)
Theorem updateStreak_idempotent (w : World) :
  JsDate.valid_time (clock w) ->
  safe_integer (currentStreak (stored_streak (storage w))) ->
  (JsDate.valid_time (clock w - 86400000) ->
   exists n w1,
     updateStreak w = (Ok n, w1)
     /\ stored_streak (storage w1)
        = {| currentStreak := n;
             lastActiveDate := Some (getDateString (clock w)) |}
     /\ updateStreak w1 = (Ok n, w1)
     /\ (n = currentStreak (stored_streak (storage w))
         \/ n = currentStreak (stored_streak (storage w)) + 1
         \/ n = 1)
     /\ clock w1 = clock w
     /\ vocab_api_key (storage w1) = vocab_api_key (storage w)
     /\ vocab_bin_id (storage w1) = vocab_bin_id (storage w)
     /\ vocab_local_words (storage w1) = vocab_local_words (storage w)
     /\ trace w1 = trace w)
  /\ (~ JsDate.valid_time (clock w - 86400000) ->
      lastActiveDate (stored_streak (storage w))
      <> Some (getDateString (clock w)) ->
      exists e, updateStreak w = (Throw e, w) /\ name e = "RangeError").
Proof.
  intros Hnow _. split.
  - intros Hyes.
    assert (Hagain : forall n (w1 : World),
               clock w1 = clock w ->
               stored_streak (storage w1)
               = {| currentStreak := n;
                    lastActiveDate := Some (getDateString (clock w1)) |} ->
               updateStreak w1 = (Ok n, w1)).
    { intros n w1 Hc H.
      rewrite StreakFacts.updateStreak_same_day;
        rewrite ?Hc, ?H; cbn [lastActiveDate currentStreak];
        [reflexivity | exact Hnow | now rewrite <- Hc]. }
    rewrite (StreakFacts.updateStreak_run w Hnow Hyes). cbv zeta.
    destruct (stored_streak (storage w)) as [count [d|]] eqn:E;
      cbn [lastActiveDate currentStreak].
    + destruct (String.eqb_spec d (getDateString (clock w))) as [->|_].
      * exists count, w. split; [reflexivity|]. split; [exact E|].
        split; [now apply Hagain|]. auto 10.
      * destruct (String.eqb d (getDateString (clock w - 86400000)));
          eexists _, _; (split; [reflexivity|]); (split; [reflexivity|]);
          (split; [now apply Hagain|]); auto 10.
    + eexists _, _. split; [reflexivity|]. split; [reflexivity|].
      split; [now apply Hagain|]. auto 10.
  - intros Hyes Hlast. eexists. split.
    + now apply StreakFacts.updateStreak_no_yesterday.
    + reflexivity.
Qed.

(** X17 on a device last active on 2025-11-01 with a streak of 3, opened
    on 2025-11-02: the first call and the second both give 4. *)
Lemma updateStreak_idempotent_witness :
  exists n w1,
    updateStreak Scenario.returning_user = (Ok n, w1)
    /\ updateStreak w1 = (Ok n, w1)
    /\ stored_streak (storage w1)
       = {| currentStreak := n; lastActiveDate := Some "2025-11-02" |}.
Proof.
  assert (Hnow : JsDate.valid_time (clock Scenario.returning_user))
    by (split; apply Z.leb_le; reflexivity).
  assert (Hyes : JsDate.valid_time (clock Scenario.returning_user - 86400000))
    by (split; apply Z.leb_le; reflexivity).
  assert (Hsafe : safe_integer
                    (currentStreak
                       (stored_streak (storage Scenario.returning_user))))
    by (split; apply Z.ltb_lt; reflexivity).
  destruct (proj1 (updateStreak_idempotent Scenario.returning_user Hnow Hsafe)
              Hyes)
    as (n & w1 & Hrun & Hst & Hagain & _).
  exists n, w1. split; [exact Hrun|]. split; [exact Hagain|].
  rewrite Hst. vm_compute. reflexivity.
Defined.

(** On the first millisecond that [Date] can hold, a returning user gets
    no streak: the call throws. *)
Example updateStreak_first_day :
  fst (updateStreak
         {| storage := storage Scenario.returning_user;
            clock := - JsDate.maxTime;
            network := fun _ => Scenario.offline;
            fetches := 0;
            random := fun i => Z.of_nat i;
            draws := 0;
            trace := [] |})
  = Throw (Error "RangeError" "Invalid time value").
Proof. vm_compute. reflexivity. Qed.

(** X18.  After [saveApiCredentials k b], [getApiCredentials] returns [k]
    and [b], and [hasApiCredentials] tells whether both are non-empty; the
    streak and the cached words are not touched.  Reading the collection
    then goes to the cache exactly when [b] is empty. *)
Theorem saveApiCredentials_round_trip (k b : string) (w : World) :
  exists w1,
    StorageManagerRest.saveApiCredentials k b w = (Ok true, w1)
    /\ getApiCredentials w1 = (Ok {| apiKey := k; binId := b |}, w1)
    /\ hasApiCredentials w1
       = (Ok (negb (JsString.is_empty k) && negb (JsString.is_empty b)), w1)
    /\ (fst (hasApiCredentials w1) = Ok true <->
        k <> EmptyString /\ b <> EmptyString)
    /\ vocab_streak_data (storage w1) = vocab_streak_data (storage w)
    /\ vocab_local_words (storage w1) = vocab_local_words (storage w)
    /\ (credential_absent (vocab_bin_id (storage w1)) <-> b = EmptyString)
    /\ (b = EmptyString ->
        fetchAllWords w1 = (Ok (snapshot (storage w)), w1)).
Proof.
  eexists. split; [reflexivity|].
  split; [reflexivity|]. split; [reflexivity|]. split.
  { destruct k as [|a k], b as [|c b]; cbn;
      (split;
       [ intros H; try discriminate H; split; discriminate
       | intros [H1 H2]; try congruence; reflexivity ]). }
  split; [reflexivity|]. split; [reflexivity|]. split.
  { cbn. unfold credential_absent. split.
    - intros [H|H]; [discriminate | now injection H].
    - intros ->. now right. }
  intros ->. rewrite RoutingFacts.fetchAllWords_local by (now right).
  reflexivity.
Qed.

(** ** [StorageManager]: the password, the session and the learned words *)

(** X19.  While no password is stored, [verifyPassword] accepts exactly the
    default password [admin123].  After [setAdminPassword p] with a
    non-empty [p] it accepts exactly [p], since two passwords with the same
    hash are the same.  After [setAdminPassword] of the empty password the
    stored hash is empty, which counts as no password: the default password
    is accepted again and the empty one is not.  [setAdminPassword] writes
    nothing but the hash. *)
Theorem verifyPassword_spec (st : BrowserStorage) (p q : string) :
  (vocab_admin_password st = None
   \/ vocab_admin_password st = Some EmptyString ->
   StorageManagerRest.verifyPassword q st = String.eqb q "admin123")
  /\ (p <> EmptyString ->
      (StorageManagerRest.verifyPassword q
         (StorageManagerRest.setAdminPassword p st) = true
       <-> q = p))
  /\ (StorageManagerRest.verifyPassword q
        (StorageManagerRest.setAdminPassword EmptyString st) = true
      <-> q = "admin123")
  /\ local_keys (StorageManagerRest.setAdminPassword p st) = local_keys st
  /\ vocab_learned_words (StorageManagerRest.setAdminPassword p st)
     = vocab_learned_words st
  /\ admin_logged_in (StorageManagerRest.setAdminPassword p st)
     = admin_logged_in st.
Proof.
  split; [|split; [|split; [|repeat split]]].
  - unfold StorageManagerRest.verifyPassword.
    intros [-> | ->]; reflexivity.
  - intros Hp. unfold StorageManagerRest.verifyPassword,
      StorageManagerRest.setAdminPassword.
    cbn [vocab_admin_password StorageManagerRest.with_admin_password
         fmap option_fmap option_map truthy default].
    destruct (JsString.is_empty (Base64.btoa p)) eqn:E.
    + apply JsStringFacts.is_empty_true in E.
      apply (proj1 (Base64Facts.btoa_empty p)) in E. contradiction.
    + cbn [negb]. rewrite String.eqb_eq. split.
      * intros H. symmetry. now apply Base64Facts.btoa_inj.
      * now intros ->.
  - unfold StorageManagerRest.verifyPassword,
      StorageManagerRest.setAdminPassword.
    cbn [vocab_admin_password StorageManagerRest.with_admin_password
         fmap option_fmap option_map truthy default Base64.btoa
         JsString.is_empty negb].
    apply String.eqb_eq.
Qed.

(** X20.  The learned words form a set.  After [markWordAsLearned x] a word
    is learned exactly when it is [x] or was learned before; after
    [unmarkWordAsLearned x] exactly when it is not [x] and was learned
    before.  The set that is read has no word twice, whatever array is
    stored, and an unreadable item reads as the empty set; marking a word a
    second time changes nothing, and what a mark stores is read back as it
    is. *)
Theorem learned_words_set (st : BrowserStorage) (x y : string) :
  StorageManagerRest.isWordLearned y (StorageManagerRest.markWordAsLearned x st)
  = String.eqb y x || StorageManagerRest.isWordLearned y st
  /\ StorageManagerRest.isWordLearned y
       (StorageManagerRest.unmarkWordAsLearned x st)
     = negb (String.eqb y x) && StorageManagerRest.isWordLearned y st
  /\ List.NoDup (StorageManagerRest.getLearnedWords st)
  /\ (vocab_learned_words st = BadJson \/ vocab_learned_words st = NoItem ->
      StorageManagerRest.getLearnedWords st = [])
  /\ StorageManagerRest.getLearnedWords
       (StorageManagerRest.markWordAsLearned x st)
     = JsSet.add x (StorageManagerRest.getLearnedWords st)
  /\ StorageManagerRest.getLearnedWords
       (StorageManagerRest.unmarkWordAsLearned x st)
     = JsSet.remove x (StorageManagerRest.getLearnedWords st)
  /\ StorageManagerRest.markWordAsLearned x
       (StorageManagerRest.markWordAsLearned x st)
     = StorageManagerRest.markWordAsLearned x st.
Proof.
  assert (Hnd : NoDup (StorageManagerRest.getLearnedWords st)).
  { unfold StorageManagerRest.getLearnedWords.
    destruct (vocab_learned_words st);
      [constructor | constructor | apply JsSetFacts.NoDup_of_array]. }
  assert (Hmark : StorageManagerRest.getLearnedWords
                    (StorageManagerRest.markWordAsLearned x st)
                  = JsSet.add x (StorageManagerRest.getLearnedWords st)).
  { unfold StorageManagerRest.markWordAsLearned.
    unfold StorageManagerRest.getLearnedWords at 1.
    cbn [vocab_learned_words StorageManagerRest.with_learned_words].
    apply JsSetFacts.of_array_NoDup. now apply JsSetFacts.NoDup_add. }
  assert (Hunmark : StorageManagerRest.getLearnedWords
                      (StorageManagerRest.unmarkWordAsLearned x st)
                    = JsSet.remove x (StorageManagerRest.getLearnedWords st)).
  { unfold StorageManagerRest.unmarkWordAsLearned.
    unfold StorageManagerRest.getLearnedWords at 1.
    cbn [vocab_learned_words StorageManagerRest.with_learned_words].
    apply JsSetFacts.of_array_NoDup. now apply JsSetFacts.NoDup_remove. }
  split; [|split; [|split; [|split; [|split; [|split]]]]].
  - unfold StorageManagerRest.isWordLearned. rewrite Hmark.
    apply JsSetFacts.has_add.
  - unfold StorageManagerRest.isWordLearned. rewrite Hunmark.
    apply JsSetFacts.has_remove.
  - now apply NoDup_ListNoDup.
  - unfold StorageManagerRest.getLearnedWords. intros [-> | ->]; reflexivity.
  - exact Hmark.
  - exact Hunmark.
  - unfold StorageManagerRest.markWordAsLearned at 1 3.
    rewrite Hmark.
    unfold StorageManagerRest.markWordAsLearned,
      StorageManagerRest.with_learned_words.
    cbn [local_keys vocab_admin_password vocab_last_visit admin_logged_in].
    do 2 f_equal. unfold JsSet.add at 1.
    now rewrite JsSetFacts.has_add, String.eqb_refl.
Qed.

(** X21.  The session flag reads as it was set.  After [clearAll] nobody is
    logged in, the default password is the accepted one, no word is
    learned, and a world on the cleared keys has no credentials, reads the
    empty collection from the cache without a request and, at a
    representable instant whose previous day is representable too, starts
    a streak of 1. *)
Theorem clearAll_resets (st : BrowserStorage) (status : bool) (q x : string)
  (w : World) :
  StorageManagerRest.isAdminLoggedIn
    (StorageManagerRest.setAdminLoggedIn status st) = status
  /\ let st' := StorageManagerRest.clearAll st in
     let w' := with_storage (local_keys st') w in
     StorageManagerRest.isAdminLoggedIn st' = false
     /\ StorageManagerRest.verifyPassword q st' = String.eqb q "admin123"
     /\ StorageManagerRest.isWordLearned x st' = false
     /\ fst (hasApiCredentials w') = Ok false
     /\ fetchAllWords w' = (Ok [], w')
     /\ (JsDate.valid_time (clock w) ->
         JsDate.valid_time (clock w - 86400000) ->
         updateStreak w'
         = (Ok 1, with_streak 1 (getDateString (clock w)) w')).
Proof.
  split; [now destruct status|]. cbv zeta.
  split; [reflexivity|]. split; [reflexivity|]. split; [reflexivity|].
  split; [reflexivity|]. split.
  - rewrite RoutingFacts.fetchAllWords_local by (left; reflexivity).
    reflexivity.
  - intros Hnow Hyes.
    rewrite StreakFacts.updateStreak_run by assumption. reflexivity.
Qed.

(** X21 on a device last active on 2025-11-01 with a streak of 3, cleared
    on 2025-11-02: the next streak is 1. *)
Lemma clearAll_resets_witness :
  let cleared :=
    StorageManagerRest.clearAll
      {| local_keys := storage Scenario.returning_user;
         vocab_admin_password := Some "c2VjcmV0";
         vocab_learned_words := Item ["id-cat"];
         vocab_last_visit := None;
         admin_logged_in := Some "true" |} in
  fst (updateStreak (with_storage (local_keys cleared) Scenario.returning_user))
  = Ok 1
  /\ StorageManagerRest.isAdminLoggedIn cleared = false
  /\ StorageManagerRest.verifyPassword "admin123" cleared = true.
Proof.
  intros cleared.
  assert (Hnow : JsDate.valid_time (clock Scenario.returning_user))
    by (split; apply Z.leb_le; reflexivity).
  assert (Hyes : JsDate.valid_time (clock Scenario.returning_user - 86400000))
    by (split; apply Z.leb_le; reflexivity).
  destruct (clearAll_resets
              {| local_keys := storage Scenario.returning_user;
                 vocab_admin_password := Some "c2VjcmV0";
                 vocab_learned_words := Item ["id-cat"];
                 vocab_last_visit := None;
                 admin_logged_in := Some "true" |}
              true "admin123" "id-cat" Scenario.returning_user)
    as (_ & Hlogged & Hpw & _ & _ & _ & Hstreak).
  split; [|split].
  - exact (f_equal fst (Hstreak Hnow Hyes)).
  - exact Hlogged.
  - exact Hpw.
Defined.

(** ** The list fields *)

(** X22.  [parseArrayField] is idempotent: the list it returns, given to it
    again, comes back as it is.  So a list field that [addWord] or
    [updateWord] has stored is stable under a later parse. *)
Theorem parseArrayField_idempotent (field : option value) :
  parseArrayField (Some (VArr (parseArrayField field)))
  = parseArrayField field.
Proof.
  rewrite parseArrayField_array.
  destruct field as [[| b | n | s | items]|]; try reflexivity.
  - rewrite parseArrayField_string.
    apply WordListFacts.filter_all, forallb_forall. intros x Hx.
    pose proof (trimmed_nonempty_segments_spec s) as Hall.
    rewrite List.Forall_forall in Hall. destruct (Hall x Hx) as [Ht Hne].
    rewrite Ht. apply negb_true_iff. now apply JsStringFacts.is_empty_false.
  - rewrite parseArrayField_array.
    apply WordListFacts.filter_all, forallb_forall. intros x Hx.
    now apply List.filter_In in Hx as [_ Hx].
Qed.

(** X23.  The edit form gives a list field back: for a list of entries that
    are trimmed, not empty and without comma, the text that
    [openEditModal] puts into the input (the entries joined with a comma
    and a space), read by [saveWordEdit] and parsed by [parseArrayField],
    is the list again. *)
Theorem edit_form_round_trip (field : list string) :
  Forall plain_entry field ->
  exists text,
    AdminApp.edit_field_text (Some (VArr field)) = Ok text
    /\ parseArrayField (AdminApp.edit_field_value text) = field.
Proof.
  intros H. exists (AdminApp.join ", " field). split; [reflexivity|].
  unfold AdminApp.edit_field_value.
  destruct field as [|x rest]; [reflexivity|].
  destruct (EditFormFacts.join_clean x rest H) as (Hf & Hb & Hne).
  assert (Ht : JsString.trim (AdminApp.join ", " (x :: rest))
               = AdminApp.join ", " (x :: rest))
    by now apply EditFormFacts.trimmed_clean.
  rewrite Ht. unfold js_or. cbn [truthy].
  apply JsStringFacts.is_empty_false in Hne. rewrite Hne. cbn [negb].
  rewrite parseArrayField_string.
  now apply EditFormFacts.segments_of_join.
Qed.

(** X23 on the synonyms [big, very large]. *)
Lemma edit_form_round_trip_witness :
  exists text,
    AdminApp.edit_field_text (Some (VArr ["big"; "very large"])) = Ok text
    /\ parseArrayField (AdminApp.edit_field_value text)
       = ["big"; "very large"].
Proof.
  apply (edit_form_round_trip ["big"; "very large"]).
  repeat constructor; discriminate.
Defined.

(** Known hashes, among them one that uses the last two characters of the
    alphabet. *)
Example btoa_known :
  Base64.btoa "admin123" = "YWRtaW4xMjM="
  /\ Base64.btoa "a" = "YQ=="
  /\ Base64.btoa "ab" = "YWI="
  /\ Base64.btoa (String (ascii_of_nat 251) (String (ascii_of_nat 255) ""))
     = "+/8="
  /\ Base64.btoa
       (string_of_list_ascii
          (List.map ascii_of_nat [0; 16; 131; 16; 81; 135]%nat))
     = "ABCDEFGH".
Proof. repeat split; vm_compute; reflexivity. Qed.

(** ** The new word *)

(** X24.  [addWord] never throws, and it returns the new word whether the
    save reached the remote document or not: the outcome of
    [saveAllWords] is not looked at.  The new word has exactly the twelve
    properties of the data model, of which only [english] can be absent:
    [ipa], [context] and [meaning] are the input's, or the empty string
    when the input has none, [isLearned] is [false], and no other property
    of the input is copied.  The Local Cache Snapshot ends with the new
    word. *)
Theorem addWord_never_throws (w : World) (wordData : jsobject) :
  exists newWord w2,
    addWord wordData w = (Ok newWord, w2)
    /\ (forall k, k = "ipa" \/ k = "context" \/ k = "meaning" ->
          newWord !! k = js_or (wordData !! k) (Some (VStr EmptyString))
          /\ (truthy (wordData !! k) = false ->
              newWord !! k = Some (VStr EmptyString)))
    /\ newWord !! "english" = wordData !! "english"
    /\ newWord !! "isLearned" = Some (VBool false)
    /\ (forall k,
          In k ["id"; "date"; "wordNumber"; "ipa"; "context"; "meaning";
                "banglaMeanings"; "synonyms"; "antonyms"; "isLearned";
                "createdAt"] ->
          exists v, newWord !! k = Some v)
    /\ (forall k,
          ~ In k ["id"; "date"; "wordNumber"; "english"; "ipa"; "context";
                  "meaning"; "banglaMeanings"; "synonyms"; "antonyms";
                  "isLearned"; "createdAt"] ->
          newWord !! k = None)
    /\ last (snapshot (storage w2)) = Some newWord.
Proof.
  destruct (AddWordFacts.addWord_new_word wordData w)
    as (newWord & w2 & Ha & Hipa & Hctx & Hmean & Heng & Hlearned
        & (id & Hid) & (n & Hnum) & (t & Hcreated)
        & (l1 & Hb) & (l2 & Hs) & (l3 & Han) & Hnone).
  destruct (Run.fetchAllWords_total w) as (ws & w1 & Hf & _).
  destruct (OperationFacts.addWord_spec wordData w ws w1 Hf)
    as (id' & w1' & newWord' & b & w2' & _ & _ & Ha' & Hst & _ & Hdate & _).
  rewrite Ha in Ha'. injection Ha' as <- <-.
  exists newWord, w2. split; [exact Ha|].
  assert (Hdef : forall k,
             newWord !! k = js_or (wordData !! k) (Some (VStr EmptyString)) ->
             truthy (wordData !! k) = false ->
             newWord !! k = Some (VStr EmptyString)).
  { intros k Hk Hfalse. rewrite Hk. unfold js_or. now rewrite Hfalse. }
  split.
  { intros k Hk. destruct Hk as [Hk | Hk]; [|destruct Hk as [Hk | Hk]];
      subst k; split; auto. }
  split; [exact Heng|]. split; [exact Hlearned|]. split; [|split].
  - intros k Hk. cbn [In] in Hk.
    destruct (ObjectFacts.js_or_default (wordData !! "ipa") (VStr EmptyString))
      as (v1 & Hv1).
    destruct (ObjectFacts.js_or_default (wordData !! "context")
                (VStr EmptyString)) as (v2 & Hv2).
    destruct (ObjectFacts.js_or_default (wordData !! "meaning")
                (VStr EmptyString)) as (v3 & Hv3).
    destruct (ObjectFacts.js_or_default (wordData !! "date")
                (VStr (getDateString (clock w1)))) as (v4 & Hv4).
    destruct Hk as [<- | [<- | [<- | [<- | [<- | [<- | [<- | [<- | [<- |
                  [<- | [<- | []]]]]]]]]]]].
    + now exists (VStr id).
    + exists v4. now rewrite Hdate.
    + now exists (VNum n).
    + exists v1. now rewrite Hipa.
    + exists v2. now rewrite Hctx.
    + exists v3. now rewrite Hmean.
    + now exists (VArr l1).
    + now exists (VArr l2).
    + now exists (VArr l3).
    + now exists (VBool false).
    + now exists (VStr t).
  - intros k Hk. apply Hnone; intros ->; apply Hk; cbn [In]; auto 15.
  - rewrite Hst. cbn [snapshot vocab_local_words with_local_words].
    apply last_snoc.
Qed.

(** X25.  When the numbering invariant holds for a date, the number that
    [getNextWordNumber] gives is carried by no word of that date. *)
Theorem next_number_fresh (date : option value) (ws : list jsobject) :
  contiguous_numbering date ws ->
  ~ In (Some (VNum (getNextWordNumber ws date))) (date_numbers date ws).
Proof.
  unfold contiguous_numbering. intros H Hin.
  apply (Permutation_in _ H) in Hin. unfold one_to in Hin.
  apply List.in_map_iff in Hin as (i & Hi & Hseq).
  apply List.in_seq in Hseq.
  rewrite NumberingFacts.length_date_numbers in Hseq.
  unfold getNextWordNumber in Hi. injection Hi as Hi.
  fold (has_date date) in Hi. unfold has_date in *. lia.
Qed.

(** X25 on the words cat, dog, owl and emu: no word of 2025-11-02 carries
    the number 4. *)
Lemma next_number_fresh_witness :
  ~ In (Some (VNum 4))
      (date_numbers (Some (VStr "2025-11-02"))
         [Scenario.cat; Scenario.dog; Scenario.owl; Scenario.emu]).
Proof.
  apply (next_number_fresh (Some (VStr "2025-11-02"))
           [Scenario.cat; Scenario.dog; Scenario.owl; Scenario.emu]).
  unfold contiguous_numbering.
  change (date_numbers (Some (VStr "2025-11-02"))
            [Scenario.cat; Scenario.dog; Scenario.owl; Scenario.emu])
    with (one_to 3).
  reflexivity.
Defined.

(** ** Testing the connection with new credentials *)

(** X26.  The connection test of the settings: after
    [saveApiCredentials k b] with a non-empty [b], [testConnection] reads
    the latest version of the bin [b] with the access key [k], in one to
    three attempts; and whatever the test answers, the new credentials
    stay stored. *)
Theorem connection_test_uses_saved_credentials (k b : string) (w : World) :
  b <> EmptyString ->
  let w1 := snd (StorageManagerRest.saveApiCredentials k b w) in
  let sent := sent_options no_options (storage w1) in
  exists n success,
    (1 <= n <= 3)%nat
    /\ testConnection w1
       = (Ok success,
          after_attempts (BASE_URL +:+ "/b/" +:+ b +:+ "/latest") sent n w1)
    /\ headers sent !! "X-Master-Key" = Some k
    /\ method sent = None
    /\ body sent = None
    /\ fst (getApiCredentials (snd (testConnection w1)))
       = Ok {| apiKey := k; binId := b |}.
Proof.
  intros Hb w1 sent.
  assert (Hbin : vocab_bin_id (storage w1) = Some b) by reflexivity.
  assert (Hkey : vocab_api_key (storage w1) = Some k) by reflexivity.
  assert (Hpresent : truthy (Some (VStr (default EmptyString
                                           (vocab_bin_id (storage w1)))))
                     = true).
  { rewrite Hbin. cbn [default truthy]. destruct b; [congruence | reflexivity]. }
  assert (Hurl : latest_url (storage w1)
                 = BASE_URL +:+ "/b/" +:+ b +:+ "/latest")
    by (unfold latest_url; now rewrite Hbin).
  destruct (Run.request_spec (latest_url (storage w1)) no_options 2 w1)
    as (n & Hn & Hs & _).
  rewrite ConnectionFacts.testConnection_run, Hpresent.
  rewrite Hurl in *. fold sent in Hs.
  destruct (request _ no_options 2 w1) as [[j|e] w2]; cbn [snd] in Hs;
    subst w2; exists n; eexists; (split; [exact Hn|]);
    (split; [reflexivity|]); (split; [|split; [reflexivity|split;
      [reflexivity|]]]);
    try (cbn [snd fst getApiCredentials]; cbv [getApiCredentials bind
           getStorage ret after_attempts storage fst];
         fold (storage w1); now rewrite Hbin, Hkey);
    unfold sent, sent_options; cbn [headers no_options];
    rewrite lookup_union_r by apply lookup_empty;
    rewrite Hkey; reflexivity.
Qed.

(** X26 on a device without credentials whose network is down: the test
    fails after three attempts and the credentials [KEY] and [BIN] are
    stored. *)
Lemma connection_test_uses_saved_credentials_witness :
  fst (getApiCredentials
         (snd (testConnection
                 (snd (StorageManagerRest.saveApiCredentials "KEY" "BIN"
                         Scenario.local_only)))))
  = Ok {| apiKey := "KEY"; binId := "BIN" |}.
Proof.
  destruct (connection_test_uses_saved_credentials "KEY" "BIN"
              Scenario.local_only)
    as (n & success & _ & _ & _ & _ & _ & H).
  - discriminate.
  - exact H.
Defined.
